(** * Elenpay / Paidly invoice server: webhook verification, status cache,
      invoice orchestration and metadata sanitising.

    Shallow embedding of
      - src/server.js                  (stateful variant: paymentStore)
      - src/api/check-status.js        (first half: the status handler;
                                        second half: the stateless server
                                        variant with the corrected digest name)
      - src/api/create-invoice.js      (serverless invoice orchestrator)
      - src/api/webhook.js             (webhook handler without verification)
      - src/unnamed/part_000           (express server without polling)
      - src/unnamed/part_001           (express invoice orchestrator)
      - src/unnamed/part_002           (status handler with CORS)
      - src/unnamed/part_003           (create, poll once, pass on)
    together with the parts of the Node.js runtime these handlers call
    (crypto.createHmac, Buffer.from(_, 'hex'), crypto.timingSafeEqual,
    Map, String.prototype.replace with the two regular expressions used,
    and ToString as template literals and [toString()] apply it to the
    values of a parsed JSON document). *)

From Stdlib Require Import ZArith NArith List String Ascii Bool Lia.
From Stdlib Require Import Init.Byte Strings.Byte.
From stdpp Require Import base decidable option list strings pretty.

Local Open Scope Z_scope.
Set Warnings "-register-all".

(* ===================================================================== *)
(** ** Node.js runtime: buffers, hex, SHA-256, HMAC                       *)
(* ===================================================================== *)

Module Buffer.

(** A Node Buffer is a sequence of octets. *)
Abbreviation bytes := (list byte).

#[global] Instance byte_eq_dec : EqDecision byte := Byte.byte_eq_dec.

Definition byte_of_Z (z : Z) : byte :=
  match Byte.of_N (Z.to_N (z mod 256)) with
  | Some b => b
  | None => x00
  end.

Definition Z_of_byte (b : byte) : Z := Z.of_N (Byte.to_N b).

(** Bytes of a latin-1 / ASCII string (header values, test keys). *)
Fixpoint of_string (s : string) : bytes :=
  match s with
  | EmptyString => []
  | String c r => byte_of_Z (Z.of_N (N_of_ascii c)) :: of_string r
  end.

(** [buf.toString('hex')] / [hmac.digest('hex')]: two lowercase digits
    per octet. *)
Definition hex_digit (n : Z) : ascii :=
  if n <? 10 then ascii_of_N (Z.to_N (48 + n))
  else ascii_of_N (Z.to_N (87 + n)).

Fixpoint to_hex (b : bytes) : string :=
  match b with
  | [] => EmptyString
  | x :: r =>
      String (hex_digit (Z_of_byte x / 16))
        (String (hex_digit (Z_of_byte x mod 16)) (to_hex r))
  end.

(** [unhex]: value of one hexadecimal digit, either case; [None] for any
    other character. *)
Definition unhex (c : ascii) : option Z :=
  let n := Z.of_N (N_of_ascii c) in
  if (48 <=? n) && (n <=? 57) then Some (n - 48)
  else if (97 <=? n) && (n <=? 102) then Some (n - 87)
  else if (65 <=? n) && (n <=? 70) then Some (n - 55)
  else None.

(** [Buffer.from(s, 'hex')]: decodes pairs of digits from the left and
    stops, keeping what it has, at the first pair that is not two hex
    digits; a trailing single character is dropped.  It never throws. *)
Fixpoint from_hex (s : string) : bytes :=
  match s with
  | String a (String b r) =>
      match unhex a, unhex b with
      | Some h, Some l => byte_of_Z (16 * h + l) :: from_hex r
      | _, _ => []
      end
  | _ => []
  end.

Definition eqb (a b : bytes) : bool := bool_decide (a = b).

End Buffer.

Module Sha256.
Import Buffer.

Definition mask32 : Z := 4294967295.
Definition wrap (x : Z) : Z := Z.land x mask32.
Definition add32 (x y : Z) : Z := wrap (x + y).
Definition rotr (n x : Z) : Z :=
  wrap (Z.lor (Z.shiftr x n) (Z.shiftl x (32 - n))).
Definition shr (n x : Z) : Z := Z.shiftr x n.
Definition not32 (x : Z) : Z := Z.lxor x mask32.

Definition Ch (x y z : Z) : Z :=
  Z.lxor (Z.land x y) (Z.land (not32 x) z).
Definition Maj (x y z : Z) : Z :=
  Z.lxor (Z.lxor (Z.land x y) (Z.land x z)) (Z.land y z).
Definition bsig0 (x : Z) : Z :=
  Z.lxor (Z.lxor (rotr 2 x) (rotr 13 x)) (rotr 22 x).
Definition bsig1 (x : Z) : Z :=
  Z.lxor (Z.lxor (rotr 6 x) (rotr 11 x)) (rotr 25 x).
Definition ssig0 (x : Z) : Z :=
  Z.lxor (Z.lxor (rotr 7 x) (rotr 18 x)) (shr 3 x).
Definition ssig1 (x : Z) : Z :=
  Z.lxor (Z.lxor (rotr 17 x) (rotr 19 x)) (shr 10 x).

(** The round constants are the first 32 bits of the fractional parts of
    the cube roots of the first 64 primes, the initial hash value those of
    the square roots of the first 8 (FIPS 180-4, 4.2.2 and 5.3.3). *)
Definition is_prime (n : nat) : bool :=
  (1 <? n)%nat
  && forallb (fun d => negb (Nat.modulo n d =? 0)%nat) (seq 2 (n - 2)).

Definition primes : list Z :=
  map Z.of_nat (List.filter is_prime (seq 2 310)).

(** Integer cube root, one bit at a time from bit [bits - 1] down. *)
Fixpoint cube_root (bits : nat) (r n : Z) : Z :=
  match bits with
  | O => r
  | S b =>
      let c := r + 2 ^ Z.of_nat b in
      if c * c * c <=? n then cube_root b c n else cube_root b r n
  end.

Definition frac_cube_root (p : Z) : Z := wrap (cube_root 36 0 (p * 2 ^ 96)).
Definition frac_square_root (p : Z) : Z := wrap (Z.sqrt (p * 2 ^ 64)).

Definition K : list Z := Eval vm_compute in map frac_cube_root primes.

(** The eight working words. *)
Record regs := Regs { ra : Z; rb : Z; rc : Z; rd : Z;
                      re : Z; rf : Z; rg : Z; rh : Z }.

Definition H0 : regs :=
  Eval vm_compute in
    match map frac_square_root (firstn 8 primes) with
    | [a; b; c; d; e; f; g; h] => Regs a b c d e f g h
    | _ => Regs 0 0 0 0 0 0 0 0
    end.

Definition round (s : regs) (kw : Z * Z) : regs :=
  let t1 := add32 (add32 (add32 (add32 (rh s) (bsig1 (re s)))
                                (Ch (re s) (rf s) (rg s))) (fst kw)) (snd kw) in
  let t2 := add32 (bsig0 (ra s)) (Maj (ra s) (rb s) (rc s)) in
  Regs (add32 t1 t2) (ra s) (rb s) (rc s) (add32 (rd s) t1) (re s) (rf s) (rg s).

(** Big-endian 32-bit words of a block. *)
Fixpoint words (b : bytes) : list Z :=
  match b with
  | b0 :: b1 :: b2 :: b3 :: r =>
      (Z_of_byte b0 * 16777216 + Z_of_byte b1 * 65536
       + Z_of_byte b2 * 256 + Z_of_byte b3) :: words r
  | _ => []
  end.

(** Message schedule: [extend n w] appends [n] further words; [w] is kept
    newest-first. *)
Fixpoint extend (n : nat) (rev_w : list Z) : list Z :=
  match n with
  | O => rev_w
  | S m =>
      let g i := nth i rev_w 0 in
      extend m (add32 (add32 (add32 (ssig1 (g 1%nat)) (g 6%nat))
                             (ssig0 (g 14%nat))) (g 15%nat) :: rev_w)
  end.

Definition schedule (block : bytes) : list Z :=
  rev (extend 48 (rev (words block))).

Definition compress (h : regs) (block : bytes) : regs :=
  let s := fold_left round (combine K (schedule block)) h in
  Regs (add32 (ra h) (ra s)) (add32 (rb h) (rb s))
       (add32 (rc h) (rc s)) (add32 (rd h) (rd s))
       (add32 (re h) (re s)) (add32 (rf h) (rf s))
       (add32 (rg h) (rg s)) (add32 (rh h) (rh s)).

Definition be_bytes (n : nat) (x : Z) : bytes :=
  map (fun i => byte_of_Z (Z.shiftr x (8 * Z.of_nat i))) (rev (seq 0 n)).

Definition pad (m : bytes) : bytes :=
  let len := Z.of_nat (length m) in
  let zeros := Z.to_nat ((55 - len) mod 64) in
  m ++ x80 :: repeat x00 zeros ++ be_bytes 8 (8 * len).

Fixpoint blocks (n : nat) (h : regs) (m : bytes) : regs :=
  match n with
  | O => h
  | S k => blocks k (compress h (firstn 64 m)) (skipn 64 m)
  end.

Definition digest_of (h : regs) : bytes :=
  be_bytes 4 (ra h) ++ be_bytes 4 (rb h) ++ be_bytes 4 (rc h)
  ++ be_bytes 4 (rd h) ++ be_bytes 4 (re h) ++ be_bytes 4 (rf h)
  ++ be_bytes 4 (rg h) ++ be_bytes 4 (rh h).

Definition sha256 (m : bytes) : bytes :=
  let p := pad m in
  digest_of (blocks (Nat.div (length p) 64) H0 p).

(** HMAC (RFC 2104) with SHA-256: block size 64. *)
Definition xor_with (c : Z) (k : bytes) : bytes :=
  map (fun b => byte_of_Z (Z.lxor (Z_of_byte b) c)) k.

Definition hmac_sha256 (key msg : bytes) : bytes :=
  let k0 := if (64 <? Z.of_nat (length key)) then sha256 key else key in
  let k := k0 ++ repeat x00 (64 - length k0)%nat in
  sha256 (xor_with 0x5c k ++ sha256 (xor_with 0x36 k ++ msg)).

End Sha256.

Arguments Sha256.sha256 : simpl never.
Arguments Sha256.hmac_sha256 : simpl never.
Arguments Buffer.eqb : simpl never.

(* ===================================================================== *)
(** ** JavaScript values as the handlers see them                         *)
(* ===================================================================== *)

Module Json.

(** What [JSON.parse] and an upstream JSON response can produce.  Numbers
    are restricted to integers. *)
Inductive value :=
| Null
| Bool (b : bool)
| Num (n : Z)
| Str (s : string)
| Arr (items : list value)
| Obj (fields : list (string * value)).

(** A JavaScript expression evaluates to a JSON value or [undefined]. *)
Abbreviation jsval := (option value).
Definition undefined : jsval := None.

(** ToBoolean. *)
Definition truthy (v : jsval) : bool :=
  match v with
  | None | Some Null => false
  | Some (Bool b) => b
  | Some (Num n) => negb (n =? 0)
  | Some (Str s) => negb (String.eqb s "")
  | Some (Arr _) | Some (Obj _) => true
  end.

Fixpoint assoc (k : string) (fs : list (string * value)) : jsval :=
  match fs with
  | [] => None
  | (k', v) :: r => if String.eqb k k' then Some v else assoc k r
  end.

(** [v.k] for a property name [k] that no prototype defines (event, data,
    metadata, OrderId, id, paymentMethod, destination, address): a
    TypeError (outer [None]) on [null] and [undefined], the own property
    of an object, [undefined] otherwise. *)
Definition prop (v : jsval) (k : string) : option jsval :=
  match v with
  | None | Some Null => None
  | Some (Obj fs) => Some (assoc k fs)
  | Some _ => Some undefined
  end.

(** [v === "s"] for a string literal. *)
Definition is_string (v : jsval) (s : string) : bool :=
  match v with
  | Some (Str s') => String.eqb s' s
  | _ => false
  end.

(** Does ToString complete on [v]?  A primitive always has a string.  An
    object made by [JSON.parse] inherits [Object.prototype.toString] unless
    it has an own property named toString; that property holds a JSON
    value, which cannot be called, and neither can [valueOf] give a
    primitive then: a TypeError.  An array is joined, which converts each
    element in turn ([null] to the empty string). *)
Fixpoint stringable (v : value) : bool :=
  match v with
  | Null | Bool _ | Num _ | Str _ => true
  | Arr items => forallb stringable items
  | Obj fields =>
      match assoc "toString" fields with
      | Some _ => false
      | None => true
      end
  end.

(** [`${v}`]: the template literal completes; [undefined] prints as
    "undefined". *)
Definition interpolates (v : jsval) : bool :=
  match v with
  | None => true
  | Some x => stringable x
  end.

(** [v.toString()] completes: [null] and [undefined] have no properties,
    every other value finds the method of its prototype unless an own
    property hides it. *)
Definition has_toString (v : jsval) : bool :=
  match v with
  | None | Some Null => false
  | Some x => stringable x
  end.

End Json.

(** ** [Map]: insertion-ordered, keys compared by SameValueZero *)

Module JsMap.

(** Keys: primitives by value; an object or array is a fresh reference,
    equal to no key already present (every [JSON.parse] allocates new
    objects). *)
Inductive key :=
| KStr (s : string)
| KNum (n : Z)
| KBool (b : bool)
| KNull
| KFresh.

Definition key_eqb (a b : key) : bool :=
  match a, b with
  | KStr x, KStr y => String.eqb x y
  | KNum x, KNum y => x =? y
  | KBool x, KBool y => Bool.eqb x y
  | KNull, KNull => true
  | _, _ => false
  end.

Definition key_of (v : Json.value) : key :=
  match v with
  | Json.Null => KNull
  | Json.Bool b => KBool b
  | Json.Num n => KNum n
  | Json.Str s => KStr s
  | Json.Arr _ | Json.Obj _ => KFresh
  end.

Definition t (V : Type) := list (key * V).

Definition empty {V} : t V := [].

Fixpoint get {V} (m : t V) (k : key) : option V :=
  match m with
  | [] => None
  | (k', v) :: r => if key_eqb k k' then Some v else get r k
  end.

(** [m.set(k, v)]: overwrite in place, or append. *)
Fixpoint set {V} (m : t V) (k : key) (v : V) : t V :=
  match m with
  | [] => [(k, v)]
  | (k', v') :: r =>
      if key_eqb k k' then (k', v) :: r else (k', v') :: set r k v
  end.

Definition values {V} (m : t V) : list V := map snd m.

End JsMap.

(* ===================================================================== *)
(** ** Handlers as state-passing programs with exceptions                 *)
(* ===================================================================== *)

Module Js.

(** What a handler does besides answering: calls into [crypto], parsing,
    accesses to the status cache, upstream HTTP calls and timers, in
    program order. *)
Inductive effect :=
| CreateHmac (algorithm : string)
| HmacDigest
| TimingSafeEqual
| JsonParse
| StoreGet (k : JsMap.key)
| StoreSet (k : JsMap.key) (v : string)
| HttpPost
| HttpGet
| Sleep (ms : Z).

(** Process-wide state of server.js plus the record of effects. *)
Record world := World {
  paymentStore : JsMap.t string;
  effects : list effect
}.

Inductive completion (A : Type) :=
| Normal (a : A)
| Thrown.
Arguments Normal {A} a.
Arguments Thrown {A}.

Definition js (A : Type) : Type := world -> completion A * world.

Definition ret {A} (a : A) : js A := fun w => (Normal a, w).
Definition throw {A} : js A := fun w => (Thrown, w).
Definition bind {A B} (c : js A) (k : A -> js B) : js B :=
  fun w => match c w with
           | (Normal a, w') => k a w'
           | (Thrown, w') => (Thrown, w')
           end.
(** [try { body } catch (error) { handler }]: what [body] did to the world
    before it threw stays done. *)
Definition try_catch {A} (body handler : js A) : js A :=
  fun w => match body w with
           | (Normal a, w') => (Normal a, w')
           | (Thrown, w') => handler w'
           end.
Definition emit (e : effect) : js unit :=
  fun w => (Normal tt, World (paymentStore w) (effects w ++ [e])).
(** A runtime call that throws when it has no result. *)
Definition lift {A} (o : option A) : js A :=
  match o with Some a => ret a | None => throw end.
(** A template literal [`... ${v} ...`]: a TypeError when [v] has no
    string. *)
Definition interpolate (v : Json.jsval) : js unit :=
  if Json.interpolates v then ret tt else throw.

Definition store_get (k : JsMap.key) : js (option string) :=
  fun w => (Normal (JsMap.get (paymentStore w) k),
            World (paymentStore w) (effects w ++ [StoreGet k])).
Definition store_set (k : JsMap.key) (v : string) : js unit :=
  fun w => (Normal tt,
            World (JsMap.set (paymentStore w) k v) (effects w ++ [StoreSet k v])).

End Js.

Declare Scope js_scope.
Delimit Scope js_scope with js.
Notation "x <- c ;; k" := (Js.bind c (fun x => k))
  (at level 100, c at next level, right associativity) : js_scope.
Notation "c ;;; k" := (Js.bind c (fun _ => k))
  (at level 100, right associativity) : js_scope.

(** ** [crypto] *)

Module Crypto.
Import Buffer Js.
Local Open Scope js_scope.

(** Digest names: of OpenSSL's digests the sources name only sha256;
    a name that is not a digest (sha266) makes [createHmac] throw. *)
Definition digest_by_name (algorithm : string) : option (bytes -> bytes -> bytes) :=
  if String.eqb algorithm "sha256" then Some Sha256.hmac_sha256 else None.

(** [crypto.createHmac(algorithm, key)]; [key] is [None] when the secret is
    [undefined], which is a TypeError. *)
Definition createHmac (algorithm : string) (key : option bytes)
  : js (bytes -> bytes) :=
  emit (CreateHmac algorithm) ;;;
  k <- lift key ;;
  f <- lift (digest_by_name algorithm) ;;
  ret (f k).

(** [hmac.update(data); hmac.digest('hex')]. *)
Definition digest_hex (hmac : bytes -> bytes) (data : bytes) : js string :=
  emit HmacDigest ;;; ret (to_hex (hmac data)).

(** [crypto.timingSafeEqual(a, b)]: a RangeError when the byte lengths
    differ. *)
Definition timingSafeEqual (a b : bytes) : js bool :=
  emit TimingSafeEqual ;;;
  if (length a =? length b)%nat then ret (Buffer.eqb a b) else throw.

End Crypto.

(* ===================================================================== *)
(** ** HTTP responses                                                     *)
(* ===================================================================== *)

Module Http.

Inductive payload :=
| Text (s : string)
| JsonBody (v : Json.value)
| NoBody.

Record response := Response { status : Z; body : payload }.

(** [res.json({..., k: v, ...})] leaves out a property whose value is
    [undefined]. *)
Definition field (k : string) (v : Json.jsval) : list (string * Json.value) :=
  match v with
  | Some x => [(k, x)]
  | None => []
  end.

End Http.

(* ===================================================================== *)
(** ** src/server.js and its stateless sibling                            *)
(* ===================================================================== *)

Module Server.
Import Buffer Js Crypto Http.
Local Open Scope js_scope.

(** [process.env] as loaded at start-up; a variable that is not set is
    [None].  The webhook secret is given by its bytes. *)
Record config := Config {
  PAIDLY_API_TOKEN : option string;
  PAIDLY_STORE_ID : option string;
  PAIDLY_WEBHOOK_SECRET : option bytes;
  PAIDLY_API_URL : option string
}.

(** A string-or-undefined that is truthy: defined and not empty. *)
Definition present (s : option string) : option string :=
  match s with
  | Some s => if String.eqb s "" then None else Some s
  | None => None
  end.

(** [!s] for a string-or-undefined. *)
Definition missing (s : option string) : bool :=
  match present s with
  | Some _ => false
  | None => true
  end.

Section Handlers.

(** [JSON.parse(req.body.toString())]; [None] is a SyntaxError. *)
Variable JSON_parse : bytes -> option Json.value.
Variable env : config.

(** Lines 28-33 of server.js, 77-83 of the sibling: [true] iff
    [timingSafeEqual] returned [true].  The two files differ in the
    digest name only. *)
Definition signature_matches (algorithm : string) (signature : string)
           (body : bytes) : js bool :=
  hmac <- createHmac algorithm (PAIDLY_WEBHOOK_SECRET env) ;;
  expectedSignature <- digest_hex hmac body ;;
  let trusted := from_hex expectedSignature in
  let untrusted := from_hex signature in
  timingSafeEqual trusted untrusted.

(** Lines 39-49 of server.js; the order id is logged in a template
    literal (line 46) before it is used as the key (line 47). *)
Definition record_event (body : bytes) : js unit :=
  emit JsonParse ;;;
  event <- lift (JSON_parse body) ;;
  name <- lift (Json.prop (Some event) "event") ;;
  if Json.is_string name "invoice_paid" then
    invoice <- lift (Json.prop (Some event) "data") ;;
    metadata <- lift (Json.prop invoice "metadata") ;;
    orderId <- lift (Json.prop metadata "OrderId") ;;
    match orderId with
    | Some o =>
        if Json.truthy orderId
        then interpolate orderId ;;; store_set (JsMap.key_of o) "Paid"
        else ret tt
    | None => ret tt
    end
  else ret tt.

(** [app.post('/paidly-webhook', express.raw(...), ...)] with the digest
    name as written at the call of [createHmac]. *)
Definition webhook_with (algorithm : string) (process : bytes -> js unit)
           (signature : option string) (body : bytes) : js response :=
  match present signature with
  | None => ret (Response 400 (Text "Signature missing."))
  | Some signature =>
    try_catch
      (ok <- signature_matches algorithm signature body ;;
       if negb ok then ret (Response 401 (Text "Invalid signature."))
       else
         process body ;;;
         ret (Response 200 (Text "Webhook received and verified")))
      (ret (Response 500 (Text "Internal server error.")))
  end.

(** server.js, line 22. *)
Definition paidly_webhook : option string -> bytes -> js response :=
  webhook_with "sha266" record_event.

(** [paymentMethods.find(p => p.paymentMethod === name)]; [None] when the
    callback throws. *)
Fixpoint find_method (name : string) (items : list Json.value)
  : option Json.jsval :=
  match items with
  | [] => Some Json.undefined
  | p :: r =>
      match Json.prop (Some p) "paymentMethod" with
      | None => None
      | Some m => if Json.is_string m name then Some (Some p)
                  else find_method name r
      end
  end.

(** [found ? found.k : null]. *)
Definition prop_or_null (found : Json.jsval) (k : string) : option Json.jsval :=
  if Json.truthy found then Json.prop found k else Some (Some Json.Null).

(** [amount.toFixed(2)]: only a number has the method. *)
Definition toFixed2 (amount : Json.jsval) : option string :=
  match amount with
  | Some (Json.Num n) => Some (pretty n +:+ ".00")%string
  | _ => None
  end.

(** [app.post('/create-payment', ...)], line 62.  [body] is [req.body]
    after [express.json()], [now] is [Date.now()], [created] and
    [fetched] are the [data] of the two upstream answers ([None]: the
    axios call rejects).  The address of the second call is a template
    literal over the invoice id (line 96). *)
Definition create_payment (body : Json.value) (now : Z)
           (created fetched : option Json.jsval) : js response :=
  if missing (PAIDLY_API_TOKEN env) || missing (PAIDLY_STORE_ID env)
     || missing (PAIDLY_API_URL env)
  then ret (Response 500 (JsonBody
              (Json.Obj [("error", Json.Str "Server configuration error.")])))%string
  else
    try_catch
      (amount <- lift (Json.prop (Some body) "amount") ;;
       currency <- lift (Json.prop (Some body) "currency") ;;
       let orderId := ("ORDER-" +:+ pretty now)%string in
       amount2 <- lift (toFixed2 amount) ;;
       emit HttpPost ;;;
       data <- lift created ;;
       newInvoiceId <- lift (Json.prop data "id") ;;
       store_set (JsMap.KStr orderId) "New" ;;;
       interpolate newInvoiceId ;;;
       emit HttpGet ;;;
       paymentMethods <- lift fetched ;;
       items <- lift (match paymentMethods with
                      | Some (Json.Arr l) => Some l
                      | _ => None
                      end) ;;
       lightningPayment <- lift (find_method "BTC-LightningNetwork" items) ;;
       lightningInvoice <- lift (prop_or_null lightningPayment "destination") ;;
       onchainPayment <- lift (find_method "BTC" items) ;;
       onchainAddress <- lift (prop_or_null onchainPayment "address") ;;
       ret (Response 200 (JsonBody (Json.Obj
              ([("orderId", Json.Str orderId)]
               ++ field "lightningInvoice" lightningInvoice
               ++ field "onchainAddress" onchainAddress))))%string)
      (ret (Response 500 (JsonBody
              (Json.Obj [("error", Json.Str "Failed to process payment invoice.")]))))%string.

(** [paymentStore.get(orderId) || "Not Found"]. *)
Definition status_or_not_found (cached : option string) : string :=
  match cached with
  | Some s => if String.eqb s "" then "Not Found" else s
  | None => "Not Found"
  end.

(** [app.get('/check-status/:orderId', ...)], line 119. *)
Definition check_status (orderId : string) : js response :=
  cached <- store_get (JsMap.KStr orderId) ;;
  let status := status_or_not_found cached in
  ret (Response 200 (JsonBody (Json.Obj [("status", Json.Str status)])))%string.

(** The body of a [check_status] answer. *)
Definition status_of (r : response) : option string :=
  match body r with
  | JsonBody (Json.Obj [(_, Json.Str s)]) => Some s
  | _ => None
  end.

(** One request to the server. *)
Inductive request :=
| PaidlyWebhook (signature : option string) (body : bytes)
| CreatePayment (body : Json.value) (now : Z)
                (created fetched : option Json.jsval)
| CheckStatus (orderId : string).

Definition serve (r : request) : js response :=
  match r with
  | PaidlyWebhook signature body => paidly_webhook signature body
  | CreatePayment body now created fetched =>
      create_payment body now created fetched
  | CheckStatus orderId => check_status orderId
  end.

(** The world after a sequence of requests: handlers never leave an
    exception uncaught, so each runs to a response. *)
Fixpoint serve_all (rs : list request) (w : world) : world :=
  match rs with
  | [] => w
  | r :: rest => serve_all rest (snd (serve r w))
  end.

(** Lines 88-95 of the stateless sibling (src/api/check-status.js,
    second file): the event is only logged, the id of a paid invoice in a
    template literal (line 94). *)
Definition log_event (body : bytes) : js unit :=
  emit JsonParse ;;;
  event <- lift (JSON_parse body) ;;
  name <- lift (Json.prop (Some event) "event") ;;
  if Json.is_string name "invoice_paid" then
    data <- lift (Json.prop (Some event) "data") ;;
    id <- lift (Json.prop data "id") ;;
    interpolate id
  else ret tt.

(** The sibling's [app.post('/paidly-webhook', ...)], line 71 there:
    "Fixed typo: sha266 -> sha256". *)
Definition paidly_webhook_stateless : option string -> bytes -> js response :=
  webhook_with "sha256" log_event.

End Handlers.

Definition initial : world := World JsMap.empty [].

End Server.

(* ===================================================================== *)
(** ** sanitizeMetadata (api/create-invoice.js, part_001, part_003)       *)
(* ===================================================================== *)

Module Sanitize.

(** A JavaScript string is a sequence of UTF-16 code units; without the
    [u] flag a regular expression matches code unit by code unit. *)
Abbreviation jsstring := (list N).

Local Open Scope N_scope.

Definition underscore : N := 95.
Definition hyphen : N := 45.

(** [\s]: WhiteSpace and LineTerminator of ECMAScript. *)
Definition is_space (c : N) : bool :=
  (c =? 9) || (c =? 10) || (c =? 11) || (c =? 12) || (c =? 13)
  || (c =? 32) || (c =? 160) || (c =? 5760)
  || ((8192 <=? c) && (c <=? 8202))
  || (c =? 8232) || (c =? 8233) || (c =? 8239) || (c =? 8287)
  || (c =? 12288) || (c =? 65279).

(** The class [[a-zA-Z0-9_-]]. *)
Definition allowed (c : N) : bool :=
  ((97 <=? c) && (c <=? 122)) || ((65 <=? c) && (c <=? 90))
  || ((48 <=? c) && (c <=? 57)) || (c =? underscore) || (c =? hyphen).

(** [s.replace(/\s+/g, '_')]: [collapse] scans for the start of a match,
    [inside] consumes the rest of a greedy match of [\s+]. *)
Fixpoint collapse (s : jsstring) : jsstring :=
  match s with
  | [] => []
  | c :: r => if is_space c then underscore :: inside r else c :: collapse r
  end
with inside (s : jsstring) : jsstring :=
  match s with
  | [] => []
  | c :: r => if is_space c then inside r else c :: collapse r
  end.

(** [s.replace(/[^a-zA-Z0-9_-]/g, '')]: every single match is deleted. *)
Fixpoint strip (s : jsstring) : jsstring :=
  match s with
  | [] => []
  | c :: r => if negb (allowed c) then strip r else c :: strip r
  end.

Definition sanitizeMetadata (value : jsstring) : jsstring :=
  strip (collapse value).

(** *** The description in the words of the specification *)

(** The maximal runs of a string: consecutive code units of the same kind
    (whitespace or not), each run as long as possible. *)
Fixpoint runs (s : jsstring) : list (bool * jsstring) :=
  match s with
  | [] => []
  | c :: r =>
      match runs r with
      | (k, run) :: rest =>
          if Bool.eqb k (is_space c) then (k, c :: run) :: rest
          else (is_space c, [c]) :: (k, run) :: rest
      | [] => [(is_space c, [c])]
      end
  end.

(** What makes [rs] the maximal runs of a string: no run is empty, a run
    is of one kind, and neighbours are of different kinds. *)
Definition uniform (r : bool * jsstring) : Prop :=
  snd r <> [] /\ Forall (fun c => is_space c = fst r) (snd r).

Fixpoint alternating (rs : list (bool * jsstring)) : Prop :=
  match rs with
  | r1 :: rest =>
      match rest with
      | r2 :: _ => fst r1 <> fst r2
      | [] => True
      end /\ alternating rest
  | [] => True
  end.

(** "whitespace collapsed to underscore, characters outside
    [[A-Za-z0-9_-]] stripped". *)
Definition sanitize_run (r : bool * jsstring) : jsstring :=
  if fst r then [underscore] else List.filter allowed (snd r).

Definition sanitized_by_runs (s : jsstring) : jsstring :=
  concat (map sanitize_run (runs s)).

(** Code units of an ASCII literal. *)
Fixpoint of_ascii (s : string) : jsstring :=
  match s with
  | EmptyString => []
  | String c r => N_of_ascii c :: of_ascii r
  end.

End Sanitize.

(* ===================================================================== *)
(** ** Invoice orchestrator: api/create-invoice.js and part_001           *)
(* ===================================================================== *)

Module Invoice.
Import Sanitize.

(** One element of the payment-methods array, by the properties the
    handlers read: a JSON object (a Payment Method Entry of the
    specification), or any other value but [null], all of whose four
    properties are then [undefined]. *)
Record entry := Entry {
  paymentMethod : Json.jsval;
  destination : Json.jsval;
  amount : Json.jsval;
  cryptoAmount : Json.jsval
}.

(** What the create call answers, by the properties the handlers read:
    the invoice object, or any other value but [null] and [undefined]. *)
Record invoice := Invoice {
  id : Json.jsval;
  checkoutLink : Json.jsval;
  expirationTime : Json.jsval;
  status : Json.jsval
}.

(** The data of one answer of the payment-methods endpoint, as far as the
    handlers tell data apart, which they do by the guard
    [paymentMethods && paymentMethods.length > 0] and by the array methods
    [some] and [every]:
    - [Listed (Some l)]: an array, of the entries [l];
    - [Listed None]: [null], and any other value on which the guard is
      false ([undefined], a number, a boolean, the empty string, an object
      without a [length] above 0);
    - [NotAList]: every other value, a non-empty string for one: the
      guard holds or throws, and the value has no [some] and no [every]. *)
Inductive methods :=
| Listed (data : option (list entry))
| NotAList.

(** One answer of the payment-methods endpoint: the request rejects, or
    it answers with data. *)
Inductive poll_answer :=
| Rejected
| Answered (data : methods).

(** An answer whose data is [null] or an array. *)
Definition Answer (data : option (list entry)) : poll_answer :=
  Answered (Listed data).

(** The upstream as the handler meets it: the answer to the poll number
    [n], counted from 0. *)
Definition upstream := nat -> poll_answer.

(** [description] in the request body. *)
Inductive text :=
| Falsy                    (* undefined, null, the empty string, 0, false *)
| Text (s : jsstring)
| NotText.                 (* any other value: it has no [replace] *)

(** [const { amount, currency, description, paymentMethod } = req.body].
    A request without a body, on which the destructuring itself throws, is
    answered as the body all of whose four properties are [undefined] is:
    500 before any call. *)
Record body := Body {
  req_amount : Json.jsval;
  req_currency : Json.jsval;
  req_description : text;
  req_paymentMethod : Json.jsval
}.

(** The JSON sent to [POST /api/v1/stores/{storeId}/invoices];
    [amount] is the value whose [toString()] is sent. *)
Record invoiceData := InvoiceData {
  data_amount : Json.value;
  data_currency : Json.jsval;
  checkout_paymentMethods : list string;
  expirationMinutes : Z;
  order_id : string;
  description : jsstring
}.

(** Calls that leave the process, in program order. *)
Inductive call :=
| CreateInvoice (data : invoiceData)
| PollPaymentMethods
| Wait (ms : Z).

Definition LN : string := "BTC-LightningNetwork".
Definition ONCHAIN : string := "BTC-Onchain".

(** [paymentMethods.some(m => m.paymentMethod === name && m.destination)] *)
Definition has_destination (name : string) (pms : list entry) : bool :=
  existsb (fun m => Json.is_string (paymentMethod m) name
                    && Json.truthy (destination m)) pms.

(** *** The poll loop (create-invoice.js 85-120, part_001 120-157) *)

Record loop_state := LoopState {
  paymentMethods : methods;
  retries : nat;
  calls : list call
}.

Definition maxRetries (requested : Json.jsval) : nat :=
  if Json.is_string requested "onchain" then 5%nat else 1%nat.

(** The test that leads to [break]. *)
Definition found (requested : Json.jsval) (data : option (list entry)) : bool :=
  match data with
  | Some (m :: pms) =>
      let hasLightning := has_destination LN (m :: pms) in
      let hasOnchain := has_destination ONCHAIN (m :: pms) in
      if Json.is_string requested "lightning" && hasLightning then true
      else if Json.is_string requested "onchain" && hasOnchain then true
      else false
  | _ => false
  end.

(** One turn of the [while] body; the number of polls issued so far is the
    number of [PollPaymentMethods] among the calls.  The boolean tells
    whether the turn ended in [break]. *)
Definition polls_in (cs : list call) : nat :=
  length (List.filter (fun c => match c with PollPaymentMethods => true | _ => false end) cs).

Definition turn (requested : Json.jsval) (up : upstream) (s : loop_state)
  : loop_state * bool :=
  let waited := if (0 <? retries s)%nat then calls s ++ [Wait 2000] else calls s in
  let polled := waited ++ [PollPaymentMethods] in
  match up (polls_in (calls s)) with
  | Rejected => (LoopState (paymentMethods s) (S (retries s)) polled, false)
  | Answered NotAList =>
      (* the guard or [some] throws inside the [try]: the [catch] counts
         the attempt, the assignment stays done *)
      (LoopState NotAList (S (retries s)) polled, false)
  | Answered (Listed data) =>
      if found requested data
      then (LoopState (Listed data) (retries s) polled, true)
      else (LoopState (Listed data) (S (retries s)) polled, false)
  end.

(** [while (retries < maxRetries) { ... }]; [None] when the fuel runs out. *)
Fixpoint while (fuel : nat) (requested : Json.jsval) (up : upstream)
         (s : loop_state) : option loop_state :=
  match fuel with
  | O => None
  | S fuel' =>
      if (retries s <? maxRetries requested)%nat then
        match turn requested up s with
        | (s', true) => Some s'
        | (s', false) => while fuel' requested up s'
        end
      else Some s
  end.

(** [let paymentMethods = null; let retries = 0; while ...]: the loop from
    its initial state, with fuel for one more test than it has turns. *)
Definition poll_loop (requested : Json.jsval) (up : upstream)
  : option loop_state :=
  while (S (maxRetries requested)) requested up (LoopState (Listed None) 0 []).

(** The loop as a request meets it.  The address of each poll is a
    template literal over [invoice.id] (line 97, part_001 133), evaluated
    inside the inner [try]: when the id has no string, every turn throws
    before a request leaves, the [catch] counts it, and the waits between
    the turns are still made. *)
Definition unsent (s : loop_state) : loop_state :=
  LoopState (paymentMethods s) (retries s)
            (List.filter (fun c => match c with
                                   | PollPaymentMethods => false
                                   | _ => true
                                   end) (calls s)).

Definition attempts (inv : invoice) (requested : Json.jsval) (up : upstream)
  : option loop_state :=
  if Json.interpolates (id inv) then poll_loop requested up
  else option_map unsent (poll_loop requested (fun _ => Rejected)).

(** *** Result shaping *)

Record responseData := ResponseData {
  invoiceId : Json.jsval;
  checkoutURL : Json.jsval;
  expiresAt : Json.jsval;
  result_status : Json.jsval;
  lightningInvoice : Json.jsval;
  fallbackToLightning : bool;        (* [false]: the property is absent *)
  address : Json.jsval;
  btcAmount : Json.jsval;
  useCheckoutLink : bool;            (* [false]: absent *)
  onchainNotAvailable : bool;        (* [false]: absent *)
  message : option string
}.

Definition start (inv : invoice) : responseData :=
  ResponseData (id inv) (checkoutLink inv) (expirationTime inv) (status inv)
               None false None None false false None.

Definition set_lightningInvoice (v : Json.jsval) (r : responseData) :=
  ResponseData (invoiceId r) (checkoutURL r) (expiresAt r) (result_status r)
               v (fallbackToLightning r) (address r) (btcAmount r)
               (useCheckoutLink r) (onchainNotAvailable r) (message r).
Definition set_fallbackToLightning (r : responseData) :=
  ResponseData (invoiceId r) (checkoutURL r) (expiresAt r) (result_status r)
               (lightningInvoice r) true (address r) (btcAmount r)
               (useCheckoutLink r) (onchainNotAvailable r) (message r).
Definition set_address (a amt : Json.jsval) (r : responseData) :=
  ResponseData (invoiceId r) (checkoutURL r) (expiresAt r) (result_status r)
               (lightningInvoice r) (fallbackToLightning r) a amt
               (useCheckoutLink r) (onchainNotAvailable r) (message r).
Definition set_useCheckoutLink (unavailable : bool) (msg : string)
           (r : responseData) :=
  ResponseData (invoiceId r) (checkoutURL r) (expiresAt r) (result_status r)
               (lightningInvoice r) (fallbackToLightning r) (address r)
               (btcAmount r) true
               (if unavailable then true else onchainNotAvailable r) (Some msg).

(** [a || b]. *)
Definition or_else (a b : Json.jsval) : Json.jsval :=
  if Json.truthy a then a else b.

(** [for (const method of paymentMethods) { ... }] with a body that may
    throw ([None]), which ends the loop. *)
Fixpoint for_of (body : responseData -> entry -> option responseData)
         (pms : list entry) (r : responseData) : option responseData :=
  match pms with
  | [] => Some r
  | method :: rest =>
      match body r method with
      | Some r' => for_of body rest r'
      | None => None
      end
  end.

Definition amount_of (m : entry) : Json.jsval :=
  or_else (amount m) (or_else (cryptoAmount m) (Some (Json.Str "0.00000000"))).

(** [paymentMethod === 'onchain' && hasOnlyLightning && !hasOnchain]
    under [paymentMethods && paymentMethods.length > 0]. *)
Definition unavailable (requested : Json.jsval) (pms : option (list entry)) : bool :=
  match pms with
  | Some (m :: l) =>
      let hasOnlyLightning :=
        forallb (fun m => Json.is_string (paymentMethod m) LN) (m :: l) in
      let hasOnchain :=
        existsb (fun m => Json.is_string (paymentMethod m) ONCHAIN) (m :: l) in
      Json.is_string requested "onchain" && hasOnlyLightning && negb hasOnchain
  | _ => false
  end.

Definition entries (pms : option (list entry)) : list entry :=
  match pms with
  | Some l => l
  | None => []
  end.

Module Api.
(** src/api/create-invoice.js *)

(** Body of [for (const method of paymentMethods)], lines 140-152. *)
Definition visit (requested : Json.jsval) (onchainNotAvailable : bool)
           (r : responseData) (method : entry) : responseData :=
  if Json.is_string (paymentMethod method) LN && Json.truthy (destination method)
  then
    if Json.is_string requested "lightning"
    then set_lightningInvoice (destination method) r
    else if Json.is_string requested "onchain" && onchainNotAvailable
    then set_fallbackToLightning (set_lightningInvoice (destination method) r)
    else r
  else if Json.is_string (paymentMethod method) ONCHAIN
          && Json.truthy (destination method)
  then set_address (destination method) (amount_of method) r
  else r.

(** Lines 122-162. *)
Definition shape (requested : Json.jsval) (inv : invoice)
           (pms : option (list entry)) : responseData :=
  let notAvailable := unavailable requested pms in
  let r := fold_left (visit requested notAvailable) (entries pms) (start inv) in
  if notAvailable then
    set_useCheckoutLink true
      "On-chain payments not available. Use checkout page or try Lightning." r
  else if negb (Json.truthy (lightningInvoice r)) && negb (Json.truthy (address r))
  then set_useCheckoutLink false
         "Payment details not available. Use checkout page." r
  else r.

Definition checkout_methods (requested : Json.jsval) : list string :=
  if Json.is_string requested "onchain" then [ONCHAIN; LN]
  else if Json.is_string requested "lightning" then [LN]
  else [LN; ONCHAIN].
End Api.

Module Express.
(** src/unnamed/part_001 *)

(** Body of the [for] loop, lines 184-196.  Each entry is logged in a
    template literal first (line 185), and so are the address and amount
    just set (line 194): [None] when one of them has no string. *)
Definition visit (requested : Json.jsval) (r : responseData) (method : entry)
  : option responseData :=
  if Json.interpolates (paymentMethod method)
     && Json.interpolates (or_else (destination method) (Some (Json.Str "NOT SET")))
  then
    if Json.is_string requested "lightning"
       && Json.is_string (paymentMethod method) LN
       && Json.truthy (destination method)
    then Some (set_lightningInvoice (destination method) r)
    else if Json.is_string requested "onchain"
            && Json.is_string (paymentMethod method) ONCHAIN
            && Json.truthy (destination method)
    then
      let r' := set_address (destination method) (amount_of method) r in
      if Json.interpolates (address r') && Json.interpolates (btcAmount r')
      then Some r' else None
    else Some r
  else None.

Definition staging_message : string :=
  "⚠️ On-Chain Payments Not Available in Staging

Elenpay's RegTest/Staging environment only supports Lightning Network payments. For real Bitcoin on-chain transactions, please use the production environment.

The checkout page will show Lightning Network payment as an alternative.".

(** What follows the [for] loop, lines 202-215. *)
Definition finish (requested : Json.jsval) (notAvailable : bool)
           (r : responseData) : responseData :=
  if notAvailable then set_useCheckoutLink true staging_message r
  else if negb (Json.truthy (lightningInvoice r)) && negb (Json.truthy (address r))
  then set_useCheckoutLink false
         (if Json.is_string requested "onchain"
          then "On-chain address generation is taking longer than expected. Please use the checkout page."
          else "Payment details not available. Please use the checkout page.") r
  else r.

(** Lines 162-215; [None] when the [for] loop throws. *)
Definition shape (requested : Json.jsval) (inv : invoice)
           (pms : option (list entry)) : option responseData :=
  let notAvailable := unavailable requested pms in
  match for_of (visit requested) (entries pms) (start inv) with
  | Some r => Some (finish requested notAvailable r)
  | None => None
  end.

Definition checkout_methods (requested : Json.jsval) : list string :=
  if Json.is_string requested "onchain" then [ONCHAIN; LN]
  else if Json.is_string requested "lightning" then [LN]
  else [LN; ONCHAIN].
End Express.

(** *** The handlers *)

Inductive response :=
| Ended (status : Z)
| Failure (status : Z) (error : string)
| Success (status : Z) (data : responseData).

(** [sanitizeMetadata(description || 'Payment')]; [None]: a TypeError. *)
Definition metadata_description (d : text) : option jsstring :=
  match d with
  | Falsy => Some (sanitizeMetadata (of_ascii "Payment"))
  | Text s => Some (sanitizeMetadata s)
  | NotText => None
  end.

(** [console.log(`Creating ${paymentMethod} invoice for ${amount}
    ${currency}`)], the first statement of the [try] (line 54, part_001 63,
    part_000 56): does it complete? *)
Definition logs (b : body) : bool :=
  Json.interpolates (req_paymentMethod b)
  && Json.interpolates (req_amount b)
  && Json.interpolates (req_currency b).

(** The object literal [invoiceData]; [None] when [amount.toString()] or
    [sanitizeMetadata] throws. *)
Definition make_invoiceData (methods : Json.jsval -> list string)
           (b : body) (now : Z) : option invoiceData :=
  match req_amount b with
  | Some a =>
      if Json.has_toString (req_amount b) then
        match metadata_description (req_description b) with
        | None => None
        | Some d =>
            Some (InvoiceData a (req_currency b) (methods (req_paymentMethod b)) 15
                              ("order_" +:+ pretty now) d)
        end
      else None
  | None => None
  end.

(** From the [try] on: log, create the invoice, poll, shape, answer;
    whatever throws on the way is caught and answered 500.  [created] is
    what the create call answers, [None] when it rejects (or answers [null]
    or nothing, so that [invoice.id] throws).  [announce] stands for the
    statements between the create call and the loop, which may throw;
    [shape] for those after the loop.  The outer [None] is reserved for a
    loop that runs out of fuel. *)
Definition orchestrate
           (methods : Json.jsval -> list string)
           (announce : invoice -> bool)
           (shape : Json.jsval -> invoice -> option (list entry) -> option responseData)
           (b : body) (now : Z) (created : option invoice) (up : upstream)
  : option (response * list call) :=
  let failed := Failure 500 "Failed to create invoice" in
  if logs b then
    match make_invoiceData methods b now with
    | None => Some (failed, [])
    | Some data =>
        match created with
        | None => Some (failed, [CreateInvoice data])
        | Some inv =>
            if announce inv then
              match attempts inv (req_paymentMethod b) up with
              | None => None
              | Some s =>
                  let cs := CreateInvoice data :: calls s in
                  match paymentMethods s with
                  | NotAList => Some (failed, cs)
                  | Listed pms =>
                      match shape (req_paymentMethod b) inv pms with
                      | Some r => Some (Success 200 r, cs)
                      | None => Some (failed, cs)
                      end
                  end
              end
            else Some (failed, [CreateInvoice data])
        end
    end
  else Some (failed, []).

(** api/create-invoice.js: [export default async function handler]. *)
Definition handler (http_method : string) (b : body) (now : Z)
           (created : option invoice) (up : upstream)
  : option (response * list call) :=
  if String.eqb http_method "OPTIONS" then Some (Ended 200, [])
  else if negb (String.eqb http_method "POST")
  then Some (Failure 405 "Method not allowed", [])
  else orchestrate Api.checkout_methods (fun _ => true)
                   (fun requested inv pms => Some (Api.shape requested inv pms))
                   b now created up.

(** part_001: [app.post('/api/create-invoice', ...)].  Between the create
    call and the loop the invoice id is logged in a template literal
    (line 118). *)
Definition create_invoice (b : body) (now : Z)
           (created : option invoice) (up : upstream)
  : option (response * list call) :=
  orchestrate Express.checkout_methods (fun inv => Json.interpolates (id inv))
              Express.shape b now created up.

End Invoice.

(* ===================================================================== *)
(** ** The stateless server: src/api/check-status.js, second file         *)
(* ===================================================================== *)

Module Stateless.
Import Buffer Js Crypto Http Server.
Local Open Scope js_scope.

Section Handlers.

Variable env : config.

(** [app.post('/create-payment', ...)], line 109 there: as in server.js,
    without the write to the cache and with [invoiceId] in the answer. *)
Definition create_payment (body : Json.value) (now : Z)
           (created fetched : option Json.jsval) : js response :=
  if missing (PAIDLY_API_TOKEN env) || missing (PAIDLY_STORE_ID env)
     || missing (PAIDLY_API_URL env)
  then ret (Response 500 (JsonBody
              (Json.Obj [("error", Json.Str "Server configuration error.")])))%string
  else
    try_catch
      (amount <- lift (Json.prop (Some body) "amount") ;;
       currency <- lift (Json.prop (Some body) "currency") ;;
       let orderId := ("ORDER-" +:+ pretty now)%string in
       amount2 <- lift (toFixed2 amount) ;;
       emit HttpPost ;;;
       data <- lift created ;;
       newInvoiceId <- lift (Json.prop data "id") ;;
       interpolate newInvoiceId ;;;
       emit HttpGet ;;;
       paymentMethods <- lift fetched ;;
       items <- lift (match paymentMethods with
                      | Some (Json.Arr l) => Some l
                      | _ => None
                      end) ;;
       lightningPayment <- lift (find_method "BTC-LightningNetwork" items) ;;
       lightningInvoice <- lift (prop_or_null lightningPayment "destination") ;;
       onchainPayment <- lift (find_method "BTC" items) ;;
       onchainAddress <- lift (prop_or_null onchainPayment "address") ;;
       ret (Response 200 (JsonBody (Json.Obj
              ([("orderId", Json.Str orderId)]
               ++ field "invoiceId" newInvoiceId
               ++ field "lightningInvoice" lightningInvoice
               ++ field "onchainAddress" onchainAddress))))%string)
      (ret (Response 500 (JsonBody
              (Json.Obj [("error", Json.Str "Failed to process payment invoice.")]))))%string.

(** [app.get('/check-status/:invoiceId', ...)], line 166 there.  [fetched]
    is the [data] of the upstream answer, [None] when the call rejects. *)
Definition check_status (invoiceId : string) (fetched : option Json.jsval)
  : js response :=
  if missing (PAIDLY_API_TOKEN env) || missing (PAIDLY_STORE_ID env)
  then ret (Response 500 (JsonBody (Json.Obj [("status", Json.Str "Error")])))%string
  else
    try_catch
      (emit HttpGet ;;;
       data <- lift fetched ;;
       status <- lift (Json.prop data "status") ;;
       if Json.is_string status "Settled" || Json.is_string status "Complete"
          || Json.is_string status "Confirmed"
       then ret (Response 200 (JsonBody (Json.Obj [("status", Json.Str "Paid")])))%string
       else ret (Response 200 (JsonBody (Json.Obj (field "status" status)))))
      (ret (Response 200 (JsonBody (Json.Obj [("status", Json.Str "Error")]))))%string.

End Handlers.

End Stateless.

(* ===================================================================== *)
(** ** Handlers without state: api/webhook.js, api/check-status.js,       *)
(** ** part_000, part_002, part_003                                       *)
(* ===================================================================== *)

Module Plain.
Import Sanitize Invoice.

(** An answer: a JSON body, an error object whose message the engine or the
    upstream made, or no body. *)
Inductive reply :=
| Json (status : Z) (body : Json.value)
| Problem (status : Z) (error : option string)
| Empty (status : Z).

(** *** api/webhook.js (and [/api/webhook] of part_000 and part_001) *)

(** Lines written to the console. *)
Inductive log_line :=
| Received (type invoiceId status : Json.jsval)
| InvoicePaid (invoiceId : Json.jsval)
| InvoiceExpired (invoiceId : Json.jsval)
| InvoiceProcessing (invoiceId : Json.jsval)
| UnknownEvent (type : Json.jsval).

(** The [switch (event.type)]: the line of the case taken, and the value
    its template literal prints. *)
Definition dispatch (type invoiceId : Json.jsval) : log_line * Json.jsval :=
  if Json.is_string type "invoice.paid" then (InvoicePaid invoiceId, invoiceId)
  else if Json.is_string type "invoice.expired" then (InvoiceExpired invoiceId, invoiceId)
  else if Json.is_string type "invoice.processing"
  then (InvoiceProcessing invoiceId, invoiceId)
  else (UnknownEvent type, type).

(** From [const event = req.body] on: the lines written, and whether the
    block ran to its end.  It throws when a property of [null] or
    [undefined] is read, before any line, and when the value printed by the
    [switch] has no string, after the first line. *)
Definition acknowledge (event : Json.jsval) : list log_line * bool :=
  match Json.prop event "type", Json.prop event "invoiceId", Json.prop event "status" with
  | Some type, Some invoiceId, Some status =>
      let (line, printed) := dispatch type invoiceId in
      if Json.interpolates printed
      then ([Received type invoiceId status; line], true)
      else ([Received type invoiceId status], false)
  | _, _, _ => ([], false)
  end.

Definition received : Json.value := Json.Obj [("received", Json.Bool true)].

(** api/webhook.js: [export default async function handler]. *)
Definition webhook (http_method : string) (event : Json.jsval)
  : reply * list log_line :=
  if negb (String.eqb http_method "POST")
  then (Json 405 (Json.Obj [("error", Json.Str "Method Not Allowed")]), [])
  else match acknowledge event with
       | (lines, true) => (Json 200 received, lines)
       | (lines, false) => (Problem 500 None, lines)
       end.

(** part_000 and part_001: [app.post('/api/webhook', ...)]. *)
Definition express_webhook (event : Json.jsval) : reply * list log_line :=
  match acknowledge event with
  | (lines, true) => (Json 200 received, lines)
  | (lines, false) => (Problem 500 (Some "Webhook processing failed"), lines)
  end.

(** *** api/check-status.js (first file) and part_002 *)

(** The upstream call [GET /api/v1/stores/{storeId}/invoices/{invoiceId}]. *)
Inductive lookup := GetInvoice (invoiceId : string).

(** [{status: invoice.status, paidAt: invoice.paidAt, amount: invoice.amount,
    currency: invoice.currency}]; [None] when [invoice] is [null] or
    [undefined]. *)
Definition summary (invoice : Json.jsval) : option Json.value :=
  match Json.prop invoice "status", Json.prop invoice "paidAt",
        Json.prop invoice "amount", Json.prop invoice "currency" with
  | Some status, Some paidAt, Some amount, Some currency =>
      Some (Json.Obj (Http.field "status" status ++ Http.field "paidAt" paidAt
                      ++ Http.field "amount" amount ++ Http.field "currency" currency))
  | _, _, _, _ => None
  end.

(** The [try] block: [fetched] is what the upstream answers to the call,
    [None] when it rejects. *)
Definition fetch_summary (failure : option string) (invoiceId : string)
           (fetched : option Json.jsval) : reply * list lookup :=
  match fetched with
  | None => (Problem 500 failure, [GetInvoice invoiceId])
  | Some invoice =>
      match summary invoice with
      | Some body => (Json 200 body, [GetInvoice invoiceId])
      | None => (Problem 500 failure, [GetInvoice invoiceId])
      end
  end.

(** api/check-status.js, first file: [invoiceId] is [req.query.invoiceId]. *)
Definition check_status (http_method : string) (invoiceId : option string)
           (fetched : option Json.jsval) : reply * list lookup :=
  if negb (String.eqb http_method "GET")
  then (Json 405 (Json.Obj [("error", Json.Str "Method Not Allowed")]), [])
  else match Server.present invoiceId with
       | None => (Json 400 (Json.Obj [("error", Json.Str "Missing invoiceId parameter")]), [])
       | Some id => fetch_summary None id fetched
       end.


(** *** part_000: [app.post('/api/create-invoice', ...)], no polling *)

(** The invoice as part_000 reads it. *)
Record invoice0 := Invoice0 {
  id0 : Json.jsval;
  checkoutURL0 : Json.jsval;
  expiresAt0 : Json.jsval;
  status0 : Json.jsval;
  lightningInvoice0 : Json.jsval;
  address0 : Json.jsval;
  btcAmount0 : Json.jsval
}.

(** The answer of part_000: [undefined] properties are left out. *)
Record answer0 := Answer0 {
  a_invoiceId : Json.jsval;
  a_checkoutURL : Json.jsval;
  a_expiresAt : Json.jsval;
  a_status : Json.jsval;
  a_lightningInvoice : Json.jsval;
  a_address : Json.jsval;
  a_btcAmount : Json.jsval
}.

(** Lines 96-118. *)
Definition shape0 (requested : Json.jsval) (inv : invoice0) : answer0 :=
  let base := Answer0 (id0 inv) (checkoutURL0 inv) (expiresAt0 inv) (status0 inv) in
  if Json.is_string requested "lightning" && Json.truthy (lightningInvoice0 inv)
  then base (lightningInvoice0 inv) None None
  else if Json.is_string requested "onchain" && Json.truthy (address0 inv)
  then base None (address0 inv) (btcAmount0 inv)
  else base (if Json.truthy (lightningInvoice0 inv) then lightningInvoice0 inv else None)
            (if Json.truthy (address0 inv) then address0 inv else None)
            (if Json.truthy (address0 inv) then btcAmount0 inv else None).

(** What part_000 posts: the description goes out as it came. *)
Record invoiceData0 := InvoiceData0 {
  data0_amount : Json.value;
  data0_currency : Json.jsval;
  data0_description : text;
  data0_paymentMethods : list string;
  data0_redirectURL : string;
  data0_expirationMinutes : Z;
  data0_orderId : string;
  data0_customer : string
}.

Definition methods0 (requested : Json.jsval) : list string :=
  if Json.is_string requested "lightning" then [LN]
  else if Json.is_string requested "onchain" then [ONCHAIN]
  else [LN; ONCHAIN].

(** [description || 'Payment']. *)
Definition description_or_default (d : text) : text :=
  match d with
  | Falsy => Text (of_ascii "Payment")
  | d => d
  end.

Inductive result0 :=
| Failed0
| Created0 (a : answer0).

(** [protocol] and [host] are [req.protocol] and [req.get('host')];
    [created] is the invoice the upstream answers, [None] when the call
    rejects. *)
Definition create_invoice0 (protocol host : string) (b : body) (now : Z)
           (created : option invoice0) : result0 * list invoiceData0 :=
  if logs b && Json.has_toString (req_amount b) then
    match req_amount b with
    | None => (Failed0, [])
    | Some a =>
        let data :=
          InvoiceData0 a (req_currency b) (description_or_default (req_description b))
                       (methods0 (req_paymentMethod b))
                       (protocol +:+ "://" +:+ host +:+ "/success") 15
                       ("order_" +:+ pretty now) "web_customer" in
        match created with
        | None => (Failed0, [data])
        | Some inv => (Created0 (shape0 (req_paymentMethod b) inv), [data])
        end
    end
  else (Failed0, []).

(** *** part_003: create, poll once, pass both on *)

Definition methods3 (requested : Json.jsval) : list string :=
  if Json.is_string requested "lightning" then [LN]
  else if Json.is_string requested "onchain" then [ONCHAIN]
  else [LN; ONCHAIN].

Inductive result3 :=
| Refused3 (status : Z)
| Failed3
| Passed3 (inv : invoice) (paymentMethods : methods).

(** No log line precedes the object literal here; the address of the poll
    is a template literal over [invoice.id] (line 64), outside any inner
    [try]. *)
Definition handler3 (http_method : string) (b : body) (now : Z)
           (created : option invoice) (polled : poll_answer)
  : result3 * list call :=
  if negb (String.eqb http_method "POST") then (Refused3 405, [])
  else
    match make_invoiceData methods3 b now with
    | None => (Failed3, [])
    | Some data =>
        match created with
        | None => (Failed3, [CreateInvoice data])
        | Some inv =>
            if Json.interpolates (id inv) then
              match polled with
              | Rejected => (Failed3, [CreateInvoice data; PollPaymentMethods])
              | Answered pms =>
                  (Passed3 inv pms, [CreateInvoice data; PollPaymentMethods])
              end
            else (Failed3, [CreateInvoice data])
        end
    end.

End Plain.

(* ===================================================================== *)
(** ** Notions used in the statements, and sample inputs                  *)
(* ===================================================================== *)

Module Props.
Import Js Server Invoice.

(** The two values the stateful server writes into the cache. *)
Definition valid_status (s : string) : Prop := s = "New"%string \/ s = "Paid"%string.

Definition all_valid (m : JsMap.t string) : Prop :=
  Forall valid_status (JsMap.values m).

(** A property of the cache that a command keeps, however it ends. *)
Definition keeps (I : JsMap.t string -> Prop) {A} (c : js A) : Prop :=
  forall w, I (paymentStore w) -> I (paymentStore (snd (c w))).

(** A command that ends normally in every world: no exception leaves it. *)
Definition answers {A} (c : js A) : Prop :=
  forall w, exists r w', c w = (Normal r, w').

(** [ev] is a paid event for the order [o]: [ev.event] is 'invoice_paid'
    and [ev.data.metadata.OrderId] is the non-empty string [o]. *)
Definition paid_for (ev : Json.value) (o : string) : Prop :=
  exists name inv md,
    Json.prop (Some ev) "event" = Some name
    /\ Json.is_string name "invoice_paid" = true
    /\ Json.prop (Some ev) "data" = Some inv
    /\ Json.prop inv "metadata" = Some md
    /\ Json.prop md "OrderId" = Some (Some (Json.Str o))
    /\ o <> ""%string.

(** [n] deliveries of the same webhook request, one after the other. *)
Fixpoint deliver (handle : js Http.response) (n : nat) (w : world) : world :=
  match n with
  | O => w
  | S k => deliver handle k (snd (handle w))
  end.

(** [n] polls, consecutive ones separated by one 2000 ms timer. *)
Definition spaced_polls (n : nat) : list call :=
  match n with
  | O => []
  | S k => PollPaymentMethods :: concat (repeat [Wait 2000; PollPaymentMethods] k)
  end.

(** The calls of the turn that issues poll number [i], and of [n] turns
    from poll number [from] on. *)
Definition segment (i : nat) : list call :=
  (if (0 <? i)%nat then [Wait 2000] else []) ++ [PollPaymentMethods].

Definition segments (from n : nat) : list call :=
  concat (map segment (seq from n)).

(** Does the answer to a poll satisfy the loop's stop test? *)
Definition hit (requested : Json.jsval) (a : poll_answer) : bool :=
  match a with
  | Answered (Listed data) => found requested data
  | Answered NotAList | Rejected => false
  end.

(** The upstream name of the requested method. *)
Definition wanted (requested : Json.jsval) : option string :=
  if Json.is_string requested "lightning" then Some LN
  else if Json.is_string requested "onchain" then Some ONCHAIN
  else None.

(** The value of [paymentMethods] when the loop of a request is left. *)
Definition final_methods (inv : invoice) (requested : Json.jsval) (up : upstream)
  : methods :=
  match attempts inv requested up with
  | Some s => paymentMethods s
  | None => Listed None
  end.

(** The list in [paymentMethods], if it holds one. *)
Definition listed (v : methods) : option (list entry) :=
  match v with
  | Listed data => data
  | NotAList => None
  end.

(** A list that holds BTC-LightningNetwork entries only. *)
Definition only_lightning (pms : list entry) : Prop :=
  Forall (fun m => paymentMethod m = Some (Json.Str LN)) pms.

(** A request body from which the object literal [invoiceData] can be
    built: [amount] is neither [null] nor [undefined] and its [toString]
    completes, and [description] is a string or falsy. *)
Definition sendable (b : body) : bool :=
  Json.has_toString (req_amount b)
  && match req_description b with
     | NotText => false
     | _ => true
     end.

(** A request body that gets as far as the create call in
    create-invoice.js and part_001: the first log line can be written and
    the object literal can be built. *)
Definition well_formed (b : body) : bool :=
  logs b && sendable b.

(** The checkout-link fallback as the specification words it, for a
    handler [h]: a request that gets as far as the poll loop and whose
    polls never met the stop test, outside the on-chain-unavailable case,
    is answered 200 with [useCheckoutLink] and a message. *)
Definition checkout_fallback
           (h : body -> Z -> option invoice -> upstream -> option (response * list call))
  : Prop :=
  forall (b : body) (now : Z) (inv : invoice) (up : upstream),
    well_formed b = true ->
    (forall i, (i < maxRetries (req_paymentMethod b))%nat ->
               hit (req_paymentMethod b) (up i) = false) ->
    unavailable (req_paymentMethod b)
                (listed (final_methods inv (req_paymentMethod b) up)) = false ->
    exists r cs,
      h b now (Some inv) up = Some (Success 200 r, cs)
      /\ useCheckoutLink r = true
      /\ message r <> None.

End Props.

Module Samples.
Import Buffer Server.

Definition dq : string := String (ascii_of_nat 34) EmptyString.
Definition quoted (s : string) : string := dq +:+ s +:+ dq.

(** The raw body of a paid event for ORDER-1 and its parse. *)
Definition paid_text : string :=
  "{" +:+ quoted "event" +:+ ":" +:+ quoted "invoice_paid" +:+ ","
  +:+ quoted "data" +:+ ":{" +:+ quoted "metadata" +:+ ":{"
  +:+ quoted "OrderId" +:+ ":" +:+ quoted "ORDER-1" +:+ "}}}".
Definition paid_body : bytes := of_string paid_text.
Definition paid_event : Json.value :=
  Json.Obj [("event", Json.Str "invoice_paid");
            ("data", Json.Obj [("metadata",
                       Json.Obj [("OrderId", Json.Str "ORDER-1")])])]%string.

(** A stand-in for [JSON.parse] that knows this one body. *)
Definition parse_paid (b : bytes) : option Json.value :=
  if Buffer.eqb b paid_body then Some paid_event else None.

Definition secret : bytes := of_string "whsec_test".
Definition env : config :=
  Config (Some "token") (Some "store") (Some secret) (Some "https://api.example")%string.

(** The signature the provider sends: hex of HMAC-SHA256 of the body. *)
Definition paid_signature : string :=
  Eval vm_compute in to_hex (Sha256.hmac_sha256 secret paid_body).

(** An invoice, request bodies and payment-method entries. *)
Definition invoice_1 : Invoice.invoice :=
  Invoice.Invoice (Some (Json.Str "inv_1"))
                  (Some (Json.Str "https://pay.example/i/inv_1"))
                  (Some (Json.Num 1700000900)) (Some (Json.Str "New")).

Definition request_for (method : string) : Invoice.body :=
  Invoice.Body (Some (Json.Num 10)) (Some (Json.Str "USD")) Invoice.Falsy
               (Some (Json.Str method)).

Definition lightning_entry : Invoice.entry :=
  Invoice.Entry (Some (Json.Str Invoice.LN)) (Some (Json.Str "lnbc100n1example"))
                None None.

Definition onchain_entry : Invoice.entry :=
  Invoice.Entry (Some (Json.Str Invoice.ONCHAIN)) (Some (Json.Str "bc1qexample"))
                None None.

End Samples.

(* ===================================================================== *)
(** ** Further notions and sample inputs                                  *)
(* ===================================================================== *)

Module Notions.
Import Js Server Invoice.

(** An event the stateless webhook handler logs without a TypeError: not
    [null], and when it is a paid event, with a [data] that is not [null]
    or [undefined] and whose [id] has a string. *)
Definition readable (ev : Json.value) : bool :=
  match Json.prop (Some ev) "event" with
  | None => false
  | Some name =>
      if Json.is_string name "invoice_paid" then
        match Json.prop (Some ev) "data" with
        | Some (Some (Json.Obj fields)) => Json.interpolates (Json.assoc "id" fields)
        | Some (Some Json.Null) | Some None | None => false
        | Some (Some _) => true
        end
      else true
  end.

(** An effect on the status cache. *)
Definition on_store (e : effect) : bool :=
  match e with
  | StoreGet _ | StoreSet _ _ => true
  | _ => false
  end.

(** A command that works beside the cache: in every world it only adds
    effects, none of them on the store, and leaves the cache as it is; when
    it ends normally its result satisfies [P]. *)
Definition beside {A} (P : A -> Prop) (c : js A) : Prop :=
  forall w, exists res added,
    c w = (res, World (paymentStore w) (effects w ++ added))
    /\ Forall (fun e => on_store e = false) added
    /\ match res with
       | Normal a => P a
       | Thrown => True
       end.

(** The statuses the stateless server answers with. *)
Definition stateless_status (r : Http.response) : Prop :=
  Http.status r = 200 \/ Http.status r = 400 \/ Http.status r = 401
  \/ Http.status r = 500.

(** An entry all of whose logged properties have a string: part_001 prints
    the method, the destination and, of an address it sets, the amount. *)
Definition prints (m : entry) : bool :=
  Json.interpolates (paymentMethod m)
  && Json.interpolates (destination m)
  && Json.interpolates (amount_of m).

(** Milliseconds spent in timers. *)
Fixpoint total_wait (cs : list call) : Z :=
  match cs with
  | [] => 0
  | Wait ms :: r => ms + total_wait r
  | _ :: r => total_wait r
  end.

(** The cache holds "New" and nothing else. *)
Definition all_new (m : JsMap.t string) : Prop :=
  Forall (fun v => v = "New"%string) (JsMap.values m).

(** The flags the loop over the entries never touches. *)
Definition plain (r : responseData) : Prop :=
  useCheckoutLink r = false /\ onchainNotAvailable r = false /\ message r = None.

(** The result carries the destination of an entry of [pms] named [name]:
    as [lightningInvoice] for Lightning, as [address] with a [btcAmount] for
    on-chain. *)
Definition carries (name : string) (pms : list entry) (r : responseData) : Prop :=
  exists m,
    In m pms
    /\ paymentMethod m = Some (Json.Str name)
    /\ Json.truthy (destination m) = true
    /\ (name = LN -> lightningInvoice r = destination m)
    /\ (name = ONCHAIN ->
        address r = destination m /\ Json.truthy (btcAmount r) = true).

(** What the answer to a request is when poll number [i] is the first to
    meet the stop test for the method named [name]: 200, one create call and
    [i + 1] polls, the destination of an entry of that poll in the result,
    and none of the fallback flags. *)
Definition delivers (name : string) (up : upstream) (i : nat)
           (outcome : option (response * list call)) : Prop :=
  exists r d pms,
    outcome = Some (Success 200 r, CreateInvoice d :: Props.spaced_polls (S i))
    /\ up i = Answer (Some pms)
    /\ carries name pms r
    /\ plain r.

(** What every result of a handler satisfies. *)
Definition consistent (inv : invoice) (r : responseData) : Prop :=
  invoiceId r = id inv /\ checkoutURL r = checkoutLink inv
  /\ expiresAt r = expirationTime inv /\ result_status r = status inv
  /\ (useCheckoutLink r = true <-> message r <> None)
  /\ (onchainNotAvailable r = true -> useCheckoutLink r = true)
  /\ (useCheckoutLink r = true <->
      onchainNotAvailable r = true
      \/ (Json.truthy (lightningInvoice r) = false /\ Json.truthy (address r) = false))
  /\ (address r <> None ->
      Json.truthy (address r) = true /\ Json.truthy (btcAmount r) = true)
  /\ (lightningInvoice r <> None -> Json.truthy (lightningInvoice r) = true).

(** What the loop over the entries keeps. *)
Definition shaped (inv : invoice) (r : responseData) : Prop :=
  invoiceId r = id inv /\ checkoutURL r = checkoutLink inv
  /\ expiresAt r = expirationTime inv /\ result_status r = status inv
  /\ plain r
  /\ (address r <> None ->
      Json.truthy (address r) = true /\ Json.truthy (btcAmount r) = true)
  /\ (lightningInvoice r <> None -> Json.truthy (lightningInvoice r) = true).

(** [P] holds of the result of every request that is answered with one;
    the request ends (the loop does not run out of fuel) and such an answer
    has status 200. *)
Definition every_result (P : responseData -> Prop)
           (outcome : option (response * list call)) : Prop :=
  match outcome with
  | Some (Success st r, _) => st = 200 /\ P r
  | Some _ => True
  | None => False
  end.

(** part_001 reports the requested method only. *)
Definition requested_only (requested : Json.jsval) (r : responseData) : Prop :=
  fallbackToLightning r = false
  /\ (Json.is_string requested "lightning" = false -> lightningInvoice r = None)
  /\ (Json.is_string requested "onchain" = false -> address r = None).

(** Every create call among [cs] sends a sanitized description, the order
    id [order_<now>] and an expiry of 15 minutes. *)
Definition sends_clean_metadata (now : Z) (cs : list call) : Prop :=
  Forall (fun c =>
            match c with
            | CreateInvoice d =>
                Forall (fun u => Sanitize.allowed u = true) (description d)
                /\ order_id d = ("order_" +:+ pretty now)%string
                /\ expirationMinutes d = 15
            | _ => True
            end) cs.

(** One request to the stateless server. *)
Inductive stateless_request :=
| Webhook (signature : option string) (body : Buffer.bytes)
| Create (body : Json.value) (now : Z) (created fetched : option Json.jsval)
| Status (invoiceId : string) (fetched : option Json.jsval).

Definition serve_stateless (JSON_parse : Buffer.bytes -> option Json.value)
           (env : config) (r : stateless_request) : js Http.response :=
  match r with
  | Webhook signature body => paidly_webhook_stateless JSON_parse env signature body
  | Create body now created fetched =>
      Stateless.create_payment env body now created fetched
  | Status invoiceId fetched => Stateless.check_status env invoiceId fetched
  end.

End Notions.

Module Fixtures.
Import Buffer Server.

(** A header that decodes to 32 octets which are not the HMAC of the
    sample body. *)
Definition zero_signature : string :=
  "0000000000000000000000000000000000000000000000000000000000000000".

(** A body that is not JSON, and the provider's signature for it. *)
Definition broken_body : bytes := of_string "{not json".
Definition broken_signature : string :=
  Eval vm_compute in to_hex (Sha256.hmac_sha256 Samples.secret broken_body).

(** A create-payment body and upstream answers. *)
Definition payment_body : Json.value :=
  Json.Obj [("amount", Json.Num 25); ("currency", Json.Str "USD")].
Definition created_data : Json.jsval :=
  Some (Json.Obj [("id", Json.Str "inv_7")]).
Definition fetched_methods : Json.jsval :=
  Some (Json.Arr [Json.Obj [("paymentMethod", Json.Str "BTC-LightningNetwork");
                            ("destination", Json.Str "lnbc250n1example")]]).

End Fixtures.

(* ===================================================================== *)
(** * Theorems                                                            *)
(* ===================================================================== *)

(** ** Runtime facts *)

Example sha256_constants :
  length Sha256.K = 64%nat
  /\ nth 0 Sha256.K 0 = 0x428a2f98 /\ nth 63 Sha256.K 0 = 0xc67178f2
  /\ Sha256.ra Sha256.H0 = 0x6a09e667 /\ Sha256.rh Sha256.H0 = 0x5be0cd19.
Proof. repeat split. Qed.

(** FIPS 180-4 and RFC 4231 test vectors. *)
Example sha256_abc :
  Buffer.to_hex (Sha256.sha256 (Buffer.of_string "abc")) =
  "ba7816bf8f01cfea414140de5dae2223b00361a396177a9cb410ff61f20015ad"%string.
Proof. vm_compute. reflexivity. Qed.

Example sha256_empty :
  Buffer.to_hex (Sha256.sha256 []) =
  "e3b0c44298fc1c149afbf4c8996fb92427ae41e4649b934ca495991b7852b855"%string.
Proof. vm_compute. reflexivity. Qed.

Example sha256_two_blocks :
  Buffer.to_hex (Sha256.sha256 (Buffer.of_string
    "abcdbcdecdefdefgefghfghighijhijkijkljklmklmnlmnomnopnopq")) =
  "248d6a61d20638b8e5c026930c3e6039a33ce45964ff2167f6ecedd419db06c1"%string.
Proof. vm_compute. reflexivity. Qed.

Example hmac_rfc4231_case2 :
  Buffer.to_hex (Sha256.hmac_sha256 (Buffer.of_string "Jefe")
     (Buffer.of_string "what do ya want for nothing?")) =
  "5bdcc146bf60754e6a042426089575c75a003f089d2739839dec58b964ec3843"%string.
Proof. vm_compute. reflexivity. Qed.

Example from_hex_truncates :
  Buffer.from_hex "1ag123" = [x1a] /\ Buffer.from_hex "1a7" = [x1a]
  /\ Buffer.from_hex "1634" = [x16; x34] /\ Buffer.from_hex "AbCd" = [xab; xcd].
Proof. repeat split. Qed.

Section BufferFacts.
Import Buffer.

Lemma hex_octet (b : byte) :
  unhex (hex_digit (Z_of_byte b / 16)) = Some (Z_of_byte b / 16)
  /\ unhex (hex_digit (Z_of_byte b mod 16)) = Some (Z_of_byte b mod 16)
  /\ byte_of_Z (16 * (Z_of_byte b / 16) + Z_of_byte b mod 16) = b.
Proof. destruct b; vm_compute; auto. Qed.

(** Decoding the hex form of a buffer gives the buffer back. *)
Lemma from_hex_to_hex (b : bytes) : from_hex (to_hex b) = b.
Proof.
  induction b as [|x r IH]; [reflexivity|].
  destruct (hex_octet x) as (Hh & Hl & Hb).
  cbn [to_hex from_hex]. rewrite Hh, Hl, Hb, IH. reflexivity.
Qed.

Lemma to_hex_nonempty (b : bytes) : b <> [] -> to_hex b <> EmptyString.
Proof. destruct b; [congruence | discriminate]. Qed.

Lemma length_digest (h : Sha256.regs) : length (Sha256.digest_of h) = 32%nat.
Proof. reflexivity. Qed.

Lemma length_sha256 (m : bytes) : length (Sha256.sha256 m) = 32%nat.
Proof. apply length_digest. Qed.

Lemma length_hmac_sha256 (k m : bytes) :
  length (Sha256.hmac_sha256 k m) = 32%nat.
Proof. apply length_sha256. Qed.

Lemma eqb_true (a b : bytes) : Buffer.eqb a b = true <-> a = b.
Proof. unfold Buffer.eqb. apply bool_decide_eq_true. Qed.

End BufferFacts.

(** ** Facts about [Map] *)

Section MapFacts.
Import JsMap.
Context {V : Type}.
Implicit Types (m : JsMap.t V) (k : key) (v : V).

Lemma key_eqb_eq k k' : key_eqb k k' = true -> k = k'.
Proof.
  destruct k, k'; cbn; try discriminate; intros H; try reflexivity.
  - apply String.eqb_eq in H. congruence.
  - apply Z.eqb_eq in H. congruence.
  - apply Bool.eqb_prop in H. congruence.
Qed.

Lemma key_eqb_refl k : k <> KFresh -> key_eqb k k = true.
Proof.
  destruct k; cbn; intros H; try reflexivity; try congruence.
  - apply String.eqb_refl.
  - apply Z.eqb_refl.
  - apply Bool.eqb_reflx.
Qed.

Lemma get_set_same m k v : k <> KFresh -> get (set m k v) k = Some v.
Proof.
  intros Hk. induction m as [|[k' v'] r IH]; cbn.
  - rewrite key_eqb_refl; auto.
  - destruct (key_eqb k k') eqn:E; cbn; rewrite E; auto.
Qed.

Lemma get_set_other m k q v : key_eqb q k = false -> get (set m k v) q = get m q.
Proof.
  intros Hq. induction m as [|[k' v'] r IH]; cbn.
  - rewrite Hq. reflexivity.
  - destruct (key_eqb k k') eqn:E; cbn.
    + apply key_eqb_eq in E. subst k'. rewrite Hq. reflexivity.
    + rewrite IH. reflexivity.
Qed.

(** Overwriting with the value already written changes nothing. *)
Lemma set_set m k v : k <> KFresh -> set (set m k v) k v = set m k v.
Proof.
  intros Hk. induction m as [|[k' v'] r IH]; cbn.
  - rewrite key_eqb_refl; auto.
  - destruct (key_eqb k k') eqn:E; cbn; rewrite E; [reflexivity|].
    rewrite IH. reflexivity.
Qed.

Lemma values_set (P : V -> Prop) m k v :
  Forall P (values m) -> P v -> Forall P (values (set m k v)).
Proof.
  intros Hm Hv. induction m as [|[k' v'] r IH]; cbn.
  - constructor; auto.
  - unfold values in Hm. cbn in Hm. apply Forall_cons_1 in Hm as [H1 H2].
    destruct (key_eqb k k'); cbn; constructor; auto.
Qed.

Lemma get_values (P : V -> Prop) m k v :
  Forall P (values m) -> get m k = Some v -> P v.
Proof.
  induction m as [|[k' v'] r IH]; cbn; [discriminate|].
  intros Hm. apply Forall_cons_1 in Hm as [H1 H2].
  destruct (key_eqb k k'); [congruence | auto].
Qed.

End MapFacts.

(** ** The webhook handler *)

Section Webhook.
Import Buffer Js Crypto Http Server JsMap.

Variable JSON_parse : bytes -> option Json.value.
Variable env : config.

Ltac run := unfold paidly_webhook, paidly_webhook_stateless, webhook_with,
              signature_matches, createHmac, digest_hex, timingSafeEqual,
              try_catch, bind, emit, lift, ret, throw; cbn.

Lemma present_some (s : string) : s <> ""%string -> present (Some s) = Some s.
Proof. destruct s; [congruence | reflexivity]. Qed.

Lemma present_hex (b : bytes) : length b <> 0%nat -> present (Some (to_hex b)) = Some (to_hex b).
Proof. destruct b; [intros H; destruct H; reflexivity | reflexivity]. Qed.

(** With the digest name of server.js the signature check throws at
    [createHmac], whatever the request: the handler answers 500 and the
    cache is as before. *)
Lemma sha266_always_500 (c : ascii) (s : string) (body : bytes) (w : world) :
  paidly_webhook JSON_parse env (Some (String c s)) body w =
  (Normal (Response 500 (Text "Internal server error.")),
   World (paymentStore w) (effects w ++ [CreateHmac "sha266"])).
Proof. run. destruct (PAIDLY_WEBHOOK_SECRET env); reflexivity. Qed.

(** The signature check with the digest name of the sibling: a
    RangeError unless the header decodes to 32 octets, else the comparison
    of the octets. *)
Lemma sha256_check (secret : bytes) (signature : string) (body : bytes) (w : world) :
  PAIDLY_WEBHOOK_SECRET env = Some secret ->
  signature_matches env "sha256" signature body w =
  (if (length (from_hex signature) =? 32)%nat
   then Normal (Buffer.eqb (Sha256.hmac_sha256 secret body) (from_hex signature))
   else Thrown,
   World (paymentStore w)
         (effects w ++ [CreateHmac "sha256"] ++ [HmacDigest] ++ [TimingSafeEqual])).
Proof.
  intros Hs.
  unfold signature_matches, createHmac, digest_hex, timingSafeEqual,
    bind, emit, lift, ret, throw.
  rewrite Hs. cbn -[Nat.eqb from_hex to_hex].
  rewrite from_hex_to_hex, length_hmac_sha256.
  rewrite <- !app_assoc. cbn [app].
  rewrite (Nat.eqb_sym 32).
  destruct (length (from_hex signature) =? 32)%nat; reflexivity.
Qed.

(** The sibling accepts the provider's signature whenever processing the
    body does not throw. *)
Lemma sha256_accepts (process : bytes -> js unit)
      (secret : bytes) (body : bytes) (w w' : world) :
  PAIDLY_WEBHOOK_SECRET env = Some secret ->
  process body
    (World (paymentStore w)
       (effects w ++ [CreateHmac "sha256"] ++ [HmacDigest] ++ [TimingSafeEqual]))
  = (Normal tt, w') ->
  webhook_with env "sha256" process
    (Some (to_hex (Sha256.hmac_sha256 secret body))) body w
  = (Normal (Response 200 (Text "Webhook received and verified")), w').
Proof.
  intros Hs Hp. unfold webhook_with.
  rewrite present_hex by (rewrite length_hmac_sha256; discriminate).
  unfold try_catch, bind at 1.
  rewrite (sha256_check secret), from_hex_to_hex, length_hmac_sha256 by assumption.
  cbn [Nat.eqb]. rewrite (proj2 (eqb_true _ _)) by reflexivity. cbn [negb].
  unfold bind. rewrite Hp. reflexivity.
Qed.

(** It answers 401 to a header that decodes to 32 other octets. *)
Lemma sha256_rejects (process : bytes -> js unit)
      (secret : bytes) (signature : string) (body : bytes) (w : world) :
  PAIDLY_WEBHOOK_SECRET env = Some secret ->
  length (from_hex signature) = 32%nat ->
  from_hex signature <> Sha256.hmac_sha256 secret body ->
  webhook_with env "sha256" process (Some signature) body w
  = (Normal (Response 401 (Text "Invalid signature.")),
     World (paymentStore w)
       (effects w ++ [CreateHmac "sha256"] ++ [HmacDigest] ++ [TimingSafeEqual])).
Proof.
  intros Hs Hl Hne. unfold webhook_with.
  rewrite present_some by (intros ->; discriminate Hl).
  unfold try_catch, bind at 1.
  rewrite (sha256_check secret), Hl by assumption. cbn [Nat.eqb].
  unfold Buffer.eqb. rewrite bool_decide_eq_false_2 by congruence.
  reflexivity.
Qed.

(** It answers 500, without touching the cache, to a header that decodes
    to any other number of octets. *)
Lemma sha256_wrong_length (process : bytes -> js unit)
      (signature : string) (body : bytes) (w : world) :
  signature <> ""%string ->
  length (from_hex signature) <> 32%nat ->
  exists w',
    webhook_with env "sha256" process (Some signature) body w
    = (Normal (Response 500 (Text "Internal server error.")), w')
    /\ paymentStore w' = paymentStore w.
Proof.
  intros Hne Hl. unfold webhook_with.
  rewrite present_some by assumption.
  destruct (PAIDLY_WEBHOOK_SECRET env) as [secret|] eqn:Hs.
  - unfold try_catch, bind at 1.
    rewrite (sha256_check secret) by assumption.
    apply Nat.eqb_neq in Hl. rewrite Hl. cbn. eauto.
  - run. rewrite Hs. cbn. eauto.
Qed.

End Webhook.

(** *** Claims about the webhook handler of server.js *)

Section WebhookClaims.
Import Buffer Js Crypto Http Server JsMap Props.

(** C7.  A webhook request without the signature header (or with an empty
    one) is answered 400 "Signature missing." and nothing else happens:
    the world after the request is the world before it, so no call into
    [crypto] was made (no effect was recorded) and the cache was neither
    read nor written.  The same holds for the stateless sibling. *)
Theorem webhook_without_signature
        (JSON_parse : bytes -> option Json.value) (env : config)
        (body : bytes) (w : world) :
  let answer := (Normal (Response 400 (Text "Signature missing.")), w) in
  paidly_webhook JSON_parse env None body w = answer
  /\ paidly_webhook JSON_parse env (Some ""%string) body w = answer
  /\ paidly_webhook_stateless JSON_parse env None body w = answer
  /\ effects (snd (paidly_webhook JSON_parse env None body w)) = effects w
  /\ paymentStore (snd (paidly_webhook JSON_parse env None body w)) = paymentStore w.
Proof. repeat split. Qed.

(** C1 (the code departs from it).  For every secret and raw body, the
    request that carries the hex HMAC-SHA256 of the body under the secret
    is answered 500 by server.js: [createHmac('sha266', ...)] throws
    before anything is compared, and the cache is left as it was. *)
Theorem valid_signature_answered_500
        (JSON_parse : bytes -> option Json.value)
        (token store url : option string) (secret body : bytes) (w : world) :
  let env := Config token store (Some secret) url in
  let signature := to_hex (Sha256.hmac_sha256 secret body) in
  paidly_webhook JSON_parse env (Some signature) body w =
  (Normal (Response 500 (Text "Internal server error.")),
   World (paymentStore w) (effects w ++ [CreateHmac "sha266"])).
Proof.
  cbn zeta. pose proof (length_hmac_sha256 secret body) as L.
  destruct (Sha256.hmac_sha256 secret body) as [|b0 l]; [discriminate L|].
  cbn [to_hex]. apply sha266_always_500.
Qed.

(** C3 (the code departs from it).  A signature header that is not hex is
    answered 500, not 401, by server.js and by its sibling alike; the
    cache is untouched and no exception escapes the handler. *)
Theorem non_hex_signature_answered_500
        (JSON_parse : bytes -> option Json.value) (env : config)
        (body : bytes) (w : world) :
  let signature := "not-hex!"%string in
  let internal_error := Normal (Response 500 (Text "Internal server error.")) in
  from_hex signature = []
  /\ fst (paidly_webhook JSON_parse env (Some signature) body w) = internal_error
  /\ paymentStore (snd (paidly_webhook JSON_parse env (Some signature) body w))
     = paymentStore w
  /\ fst (paidly_webhook_stateless JSON_parse env (Some signature) body w)
     = internal_error
  /\ paymentStore (snd (paidly_webhook_stateless JSON_parse env (Some signature) body w))
     = paymentStore w.
Proof.
  cbn zeta. split; [reflexivity|].
  rewrite sha266_always_500. cbn [fst snd paymentStore].
  do 2 (split; [reflexivity|]).
  destruct (sha256_wrong_length env (log_event JSON_parse) "not-hex!" body w)
    as (w' & Hr & Hw); [discriminate | vm_compute; discriminate |].
  unfold paidly_webhook_stateless. rewrite Hr. cbn [fst snd]. auto.
Qed.

(** C6 (the code departs from it).  The paid event for ORDER-1, signed
    with the webhook secret, delivered [n] times to server.js, whatever
    [JSON.parse] does: the cache stays empty, ORDER-1 is never mapped to
    "Paid". *)
Theorem paid_event_never_recorded
        (JSON_parse : bytes -> option Json.value) (n : nat) :
  let deliveries :=
    deliver (paidly_webhook JSON_parse Samples.env
               (Some Samples.paid_signature) Samples.paid_body) n initial in
  paid_for Samples.paid_event "ORDER-1"
  /\ from_hex Samples.paid_signature
     = Sha256.hmac_sha256 Samples.secret Samples.paid_body
  /\ paymentStore deliveries = []
  /\ JsMap.get (paymentStore deliveries) (KStr "ORDER-1") = None.
Proof.
  cbn zeta. split; [|split].
  - exists (Some (Json.Str "invoice_paid")),
      (Some (Json.Obj [("metadata", Json.Obj [("OrderId", Json.Str "ORDER-1")])]))%string,
      (Some (Json.Obj [("OrderId", Json.Str "ORDER-1")]))%string.
    repeat split; discriminate.
  - vm_compute. reflexivity.
  - assert (H : forall w, paymentStore w = [] ->
             paymentStore (deliver (paidly_webhook JSON_parse Samples.env
               (Some Samples.paid_signature) Samples.paid_body) n w) = []).
    { induction n as [|k IH]; intros w Hw; [exact Hw|].
      cbn [deliver]. apply IH. unfold Samples.paid_signature.
      rewrite sha266_always_500. exact Hw. }
    rewrite (H initial) by reflexivity. auto.
Qed.

End WebhookClaims.

(** ** The status cache *)

Section Stability.
Import Js JsMap Props.

Variable I : JsMap.t string -> Prop.

Lemma keeps_ret {A} (a : A) : keeps I (ret a).
Proof. intros w H. exact H. Qed.

Lemma keeps_throw {A} : keeps I (@throw A).
Proof. intros w H. exact H. Qed.

Lemma keeps_emit e : keeps I (emit e).
Proof. intros w H. exact H. Qed.

Lemma keeps_lift {A} (o : option A) : keeps I (lift o).
Proof. destruct o; [apply keeps_ret | apply keeps_throw]. Qed.

Lemma keeps_interpolate v : keeps I (interpolate v).
Proof.
  unfold interpolate. destruct (Json.interpolates v); [apply keeps_ret | apply keeps_throw].
Qed.

Lemma keeps_store_get k : keeps I (store_get k).
Proof. intros w H. exact H. Qed.

Lemma keeps_store_set k v :
  (forall m, I m -> I (JsMap.set m k v)) -> keeps I (store_set k v).
Proof. intros Hset w H. cbn. auto. Qed.

Lemma keeps_bind {A B} (c : js A) (k : A -> js B) :
  keeps I c -> (forall a, keeps I (k a)) -> keeps I (bind c k).
Proof.
  intros Hc Hk w H. unfold bind. specialize (Hc w H).
  destruct (c w) as [[a|] w1]; cbn in *; [apply Hk; exact Hc | exact Hc].
Qed.

Lemma keeps_try {A} (body handler : js A) :
  keeps I body -> keeps I handler -> keeps I (try_catch body handler).
Proof.
  intros Hb Hh w H. unfold try_catch. specialize (Hb w H).
  destruct (body w) as [[a|] w1]; cbn in *; [exact Hb | apply Hh; exact Hb].
Qed.

End Stability.

Section Answering.
Import Js Props.

Lemma answers_ret {A} (a : A) : answers (ret a).
Proof. intros w. unfold ret. eauto. Qed.

Lemma answers_try {A} (body handler : js A) :
  answers handler -> answers (try_catch body handler).
Proof.
  intros Hh w. unfold try_catch.
  destruct (body w) as [[a|] w1]; [eauto | apply Hh].
Qed.

End Answering.

Section Cache.
Import Buffer Js Crypto Http Server JsMap Props.

Variable JSON_parse : bytes -> option Json.value.
Variable env : config.

Ltac keep :=
  repeat first
    [ progress intros
    | apply keeps_bind
    | apply keeps_try
    | apply keeps_ret | apply keeps_throw | apply keeps_emit | apply keeps_lift
    | apply keeps_interpolate
    | apply keeps_store_get
    | apply keeps_store_set;
      [intros; apply values_set; [assumption | unfold valid_status; auto]]
    | match goal with
      | |- keeps _ (if ?b then _ else _) => destruct b
      | |- keeps _ (match ?x with _ => _ end) => destruct x
      end ].

Lemma record_event_keeps body : keeps all_valid (record_event JSON_parse body).
Proof. unfold record_event. keep. Qed.

(** Whatever the digest name, the webhook handler of server.js writes
    nothing but "Paid". *)
Lemma webhook_keeps algorithm signature body :
  keeps all_valid
    (webhook_with env algorithm (record_event JSON_parse) signature body).
Proof.
  unfold webhook_with, signature_matches, createHmac, digest_hex, timingSafeEqual.
  pose proof record_event_keeps. keep.
Qed.

Lemma create_payment_keeps body now created fetched :
  keeps all_valid (create_payment env body now created fetched).
Proof. unfold create_payment. keep. Qed.

Lemma check_status_keeps orderId : keeps all_valid (check_status orderId).
Proof. unfold check_status. keep. Qed.

(** Every operation of the server preserves the invariant. *)
Lemma serve_keeps r : keeps all_valid (serve JSON_parse env r).
Proof.
  destruct r; cbn [serve].
  - apply webhook_keeps.
  - apply create_payment_keeps.
  - apply check_status_keeps.
Qed.

Lemma serve_all_keeps rs w :
  all_valid (paymentStore w) ->
  all_valid (paymentStore (serve_all JSON_parse env rs w)).
Proof.
  revert w. induction rs as [|r rs IH]; intros w H; cbn [serve_all]; [exact H|].
  apply IH. apply serve_keeps. exact H.
Qed.

End Cache.

Section CacheClaims.
Import Buffer Js Crypto Http Server JsMap Props.

(** The three handlers of server.js always answer: whatever is thrown
    inside is caught. *)
Lemma serve_answers JSON_parse env r : answers (serve JSON_parse env r).
Proof.
  destruct r; cbn [serve].
  - unfold paidly_webhook, webhook_with.
    destruct (present signature); [|apply answers_ret].
    apply answers_try, answers_ret.
  - unfold create_payment.
    destruct (_ || _); [apply answers_ret|].
    apply answers_try, answers_ret.
  - intros w. unfold check_status, bind, store_get, ret. eauto.
Qed.

(** C8.  A status query for an order id without an entry in the cache is
    answered 200 with the status "Not Found"; the handler ends normally
    and leaves the cache as it was. *)
Theorem check_status_unknown_order (orderId : string) (w : world) :
  JsMap.get (paymentStore w) (KStr orderId) = None ->
  check_status orderId w =
  (Normal (Response 200 (JsonBody (Json.Obj [("status", Json.Str "Not Found")]))),
   World (paymentStore w) (effects w ++ [StoreGet (KStr orderId)]))%string.
Proof.
  intros H. unfold check_status, bind, store_get, ret. rewrite H. reflexivity.
Qed.

Lemma check_status_unknown_order_witness :
  JsMap.get [(KStr "ORDER-1", "New")]%string (KStr "ORDER-2") = None
  /\ fst (check_status "ORDER-2" (World [(KStr "ORDER-1", "New")]%string []))
     = Normal (Response 200 (JsonBody (Json.Obj [("status", Json.Str "Not Found")])))%string.
Proof.
  split; [reflexivity|].
  rewrite (check_status_unknown_order "ORDER-2"
             (World [(KStr "ORDER-1", "New")]%string [])); reflexivity.
Defined.

(** C10.  In server.js, after any sequence of requests from start-up,
    every value in the cache is "New" or "Paid", and a status query is
    answered with exactly one of "New", "Paid" and "Not Found". *)
Theorem cache_holds_new_or_paid
        (JSON_parse : bytes -> option Json.value) (env : config)
        (rs : list request) (orderId : string) :
  let w := serve_all JSON_parse env rs initial in
  Forall valid_status (values (paymentStore w))
  /\ exists s w',
       check_status orderId w =
       (Normal (Response 200 (JsonBody (Json.Obj [("status", Json.Str s)]))), w')%string
       /\ (s = "New" \/ s = "Paid" \/ s = "Not Found")%string.
Proof.
  cbn zeta.
  assert (Hinv : all_valid (paymentStore (serve_all JSON_parse env rs initial))).
  { apply serve_all_keeps. constructor. }
  split; [exact Hinv|].
  unfold check_status, bind, store_get, ret, status_or_not_found.
  destruct (JsMap.get _ (KStr orderId)) as [s|] eqn:G.
  - pose proof (get_values valid_status _ _ _ Hinv G) as [-> | ->];
      cbn; eexists _, _; (split; [reflexivity | auto]).
  - eexists _, _; split; [reflexivity | auto].
Qed.

End CacheClaims.

(** *** The handler of server.js with the digest name of its sibling *)

Section Repaired.
Import Buffer Js Crypto Http Server JsMap Props.

Variable JSON_parse : bytes -> option Json.value.
Variable env : config.

Lemma record_event_paid body ev o w :
  JSON_parse body = Some ev ->
  paid_for ev o ->
  record_event JSON_parse body w =
  (Normal tt, World (JsMap.set (paymentStore w) (KStr o) "Paid")
                    (effects w ++ [JsonParse] ++ [StoreSet (KStr o) "Paid"])).
Proof.
  intros Hp (name & inv & md & Hn & Hi & Hd & Hm & Ho & Hne).
  unfold record_event, bind, emit, lift, ret, store_set.
  cbn -[Json.prop Json.is_string JsMap.set].
  rewrite Hp. cbn -[Json.prop Json.is_string JsMap.set].
  rewrite Hn. cbn -[Json.prop Json.is_string JsMap.set].
  rewrite Hi, Hd. cbn -[Json.prop Json.is_string JsMap.set].
  rewrite Hm. cbn -[Json.prop Json.is_string JsMap.set].
  rewrite Ho. cbn -[Json.prop Json.is_string JsMap.set].
  destruct o as [|c o']; [congruence|]. cbn -[JsMap.set].
  rewrite <- app_assoc. reflexivity.
Qed.

(** With "sha256" in place of "sha266", one delivery of a paid event for
    [o] that carries the provider's signature maps [o] to "Paid" and
    changes no other entry, and any further delivery changes nothing. *)
Lemma sha256_deliveries_idempotent secret body ev o w n :
  PAIDLY_WEBHOOK_SECRET env = Some secret ->
  JSON_parse body = Some ev ->
  paid_for ev o ->
  let h := webhook_with env "sha256" (record_event JSON_parse)
             (Some (to_hex (Sha256.hmac_sha256 secret body))) body in
  paymentStore (deliver h (S n) w) = JsMap.set (paymentStore w) (KStr o) "Paid"
  /\ JsMap.get (paymentStore (deliver h (S n) w)) (KStr o) = Some "Paid"%string
  /\ forall k, key_eqb k (KStr o) = false ->
       JsMap.get (paymentStore (deliver h (S n) w)) k = JsMap.get (paymentStore w) k.
Proof.
  intros Hs Hp Hpaid h.
  assert (Hone : forall w0, paymentStore (snd (h w0))
                            = JsMap.set (paymentStore w0) (KStr o) "Paid").
  { intros w0. unfold h.
    erewrite sha256_accepts; [| exact Hs | eapply record_event_paid; eauto].
    reflexivity. }
  assert (Hall : paymentStore (deliver h (S n) w)
                 = JsMap.set (paymentStore w) (KStr o) "Paid").
  { revert w. induction n as [|k IH]; intros w.
    - cbn [deliver]. apply Hone.
    - change (deliver h (S (S k)) w) with (deliver h (S k) (snd (h w))).
      rewrite IH, Hone. apply set_set. discriminate. }
  rewrite Hall. split; [reflexivity|]. split.
  - apply get_set_same. discriminate.
  - intros k Hk. apply get_set_other. exact Hk.
Qed.

End Repaired.

(** The sample event on the repaired handler, delivered once and twice. *)
Example sha256_records_paid_event :
  let h := Server.webhook_with Samples.env "sha256"
             (Server.record_event Samples.parse_paid)
             (Some Samples.paid_signature) Samples.paid_body in
  Js.paymentStore (Props.deliver h 1 Server.initial)
  = [(JsMap.KStr "ORDER-1", "Paid")]%string
  /\ Js.paymentStore (Props.deliver h 2 Server.initial)
     = [(JsMap.KStr "ORDER-1", "Paid")]%string.
Proof. vm_compute. auto. Qed.

(** The sibling decodes the header before it compares: the provider's
    signature followed by characters that are not hex is accepted as well. *)
Example sha256_accepts_trailing_garbage :
  fst (Server.paidly_webhook_stateless Samples.parse_paid Samples.env
         (Some (Samples.paid_signature +:+ "zz")) Samples.paid_body Server.initial)
  = Js.Normal (Http.Response 200 (Http.Text "Webhook received and verified")).
Proof. vm_compute. reflexivity. Qed.

(** ** sanitizeMetadata *)

Section SanitizeFacts.
Import Sanitize.

Lemma allowed_underscore : allowed underscore = true.
Proof. reflexivity. Qed.

Lemma strip_filter (s : jsstring) : strip s = List.filter allowed s.
Proof.
  induction s as [|c r IH]; [reflexivity|].
  cbn [strip List.filter]. destruct (allowed c); cbn; congruence.
Qed.

Lemma strip_allowed (s : jsstring) : Forall (fun c => allowed c = true) (strip s).
Proof.
  induction s as [|c r IH]; cbn [strip]; [constructor|].
  destruct (allowed c) eqn:E; cbn; [constructor; assumption | assumption].
Qed.

(** The runs of [s] are its maximal runs. *)
Lemma runs_concat (s : jsstring) : concat (map snd (runs s)) = s.
Proof.
  induction s as [|c r IH]; [reflexivity|].
  cbn [runs]. destruct (runs r) as [|[k run] rest]; cbn in *.
  - congruence.
  - destruct (Bool.eqb k (is_space c)); cbn; congruence.
Qed.

Lemma runs_uniform (s : jsstring) : Forall uniform (runs s).
Proof.
  induction s as [|c r IH]; cbn [runs]; [constructor|].
  destruct (runs r) as [|[k run] rest].
  - constructor; [|constructor]. split; cbn; [discriminate | auto].
  - apply Forall_cons_1 in IH as [[Hne Hk] Hrest]. cbn in Hne, Hk.
    destruct (Bool.eqb k (is_space c)) eqn:E.
    + apply Bool.eqb_prop in E. constructor; [|assumption].
      split; cbn; [discriminate | constructor; auto].
    + constructor; [split; cbn; [discriminate | auto] |].
      constructor; [split; assumption | assumption].
Qed.

Lemma runs_alternating (s : jsstring) : alternating (runs s).
Proof.
  induction s as [|c r IH]; cbn [runs]; [exact Logic.I|].
  destruct (runs r) as [|[k run] rest].
  - split; exact Logic.I.
  - destruct (Bool.eqb k (is_space c)) eqn:E.
    + exact IH.
    + split; [|exact IH]. cbn [fst]. intros H.
      rewrite H, Bool.eqb_reflx in E. discriminate.
Qed.

(** The scanner against the runs: [inside] is [collapse] without the
    whitespace run a string may start with. *)
Lemma scan_runs (s : jsstring) :
  strip (collapse s) = sanitized_by_runs s
  /\ strip (inside s) =
     match runs s with
     | (true, _) :: rest => concat (map sanitize_run rest)
     | rs => concat (map sanitize_run rs)
     end.
Proof.
  unfold sanitized_by_runs.
  induction s as [|c r [IHc IHi]]; [split; reflexivity|].
  cbn [collapse inside runs].
  destruct (is_space c) eqn:Ec.
  - cbn [strip]. rewrite allowed_underscore. cbn [negb]. rewrite IHi.
    destruct (runs r) as [|[[|] run] rest]; cbn; auto.
  - cbn [strip]. rewrite IHc.
    destruct (runs r) as [|[[|] run] rest]; cbn;
      destruct (allowed c); cbn; auto.
Qed.

End SanitizeFacts.

(** C9.  [sanitizeMetadata] replaces each maximal run of whitespace of its
    argument by one underscore and deletes every other code unit outside
    [[A-Za-z0-9_-]]: the result is the concatenation, over the maximal runs
    of the argument, of "_" for a whitespace run and of the allowed code
    units of any other run.  Hence all code units of the result are in
    [[A-Za-z0-9_-]]. *)
Theorem sanitizeMetadata_by_runs (value : Sanitize.jsstring) :
  Sanitize.sanitizeMetadata value = Sanitize.sanitized_by_runs value
  /\ concat (map snd (Sanitize.runs value)) = value
  /\ Forall Sanitize.uniform (Sanitize.runs value)
  /\ Sanitize.alternating (Sanitize.runs value)
  /\ Forall (fun c => Sanitize.allowed c = true) (Sanitize.sanitizeMetadata value).
Proof.
  split; [apply scan_runs|].
  split; [apply runs_concat|].
  split; [apply runs_uniform|].
  split; [apply runs_alternating|].
  apply strip_allowed.
Qed.

(** The description sent as metadata is a sanitized string. *)
Lemma transmitted_description_allowed methods b now d :
  Invoice.make_invoiceData methods b now = Some d ->
  Forall (fun c => Sanitize.allowed c = true) (Invoice.description d).
Proof.
  unfold Invoice.make_invoiceData, Invoice.metadata_description.
  destruct (Invoice.req_amount b) as [a|]; [|discriminate].
  destruct (Json.has_toString (Some a)); [|discriminate].
  destruct (Invoice.req_description b); try discriminate;
    intros [= <-]; cbn; apply strip_allowed.
Qed.

Example sanitize_hello :
  Sanitize.sanitizeMetadata (Sanitize.of_ascii "Order  #42: two cups!") =
  Sanitize.of_ascii "Order_42_two_cups".
Proof. vm_compute. reflexivity. Qed.

(** U+2028 and U+00A0 are whitespace, U+00E9 is outside the class. *)
Example sanitize_unicode :
  Sanitize.sanitizeMetadata [67; 97; 102; 233; 160; 8232; 49]%N = [67; 97; 102; 95; 49]%N.
Proof. vm_compute. reflexivity. Qed.

(** ** The poll loop *)

Section PollLoop.
Import Invoice Props.
Local Open Scope nat_scope.

Variable requested : Json.jsval.
Variable up : upstream.

Lemma polls_in_app (a b : list call) : polls_in (a ++ b) = (polls_in a + polls_in b)%nat.
Proof. unfold polls_in. rewrite List.filter_app, length_app. reflexivity. Qed.

Lemma polls_in_turn (s : loop_state) :
  polls_in (calls (fst (turn requested up s))) = S (polls_in (calls s)).
Proof.
  unfold turn.
  assert (H : polls_in ((if (0 <? retries s)%nat then calls s ++ [Wait 2000] else calls s)
                        ++ [PollPaymentMethods]) = S (polls_in (calls s))).
  { destruct (0 <? retries s)%nat; rewrite !polls_in_app; cbn; lia. }
  destruct (up (polls_in (calls s))) as [|[data|]]; [exact H | | exact H].
  destruct (found requested data); exact H.
Qed.

Lemma calls_turn (s : loop_state) :
  calls (fst (turn requested up s)) = calls s ++ segment (retries s).
Proof.
  unfold turn, segment.
  assert (H : (if (0 <? retries s)%nat then calls s ++ [Wait 2000] else calls s)
              ++ [PollPaymentMethods]
              = calls s ++ (if (0 <? retries s)%nat then [Wait 2000] else [])
                        ++ [PollPaymentMethods]).
  { destruct (0 <? retries s)%nat; [rewrite <- app_assoc|]; reflexivity. }
  destruct (up (polls_in (calls s))) as [|[data|]]; [exact H | | exact H].
  destruct (found requested data); exact H.
Qed.

Lemma segments_S (from n : nat) :
  segments from (S n) = segment from ++ segments (S from) n.
Proof. reflexivity. Qed.

(** The loop from any state in which the polls issued so far are as many
    as [retries]: it ends after [n] further polls, the last of which met
    the stop test unless the budget is used up. *)
Lemma while_run (d : nat) : forall (fuel : nat) (s : loop_state),
  (maxRetries requested - retries s = d)%nat ->
  (d < fuel)%nat ->
  polls_in (calls s) = retries s ->
  hit requested (Answered (paymentMethods s)) = false ->
  exists (n : nat) (final : loop_state),
    while fuel requested up s = Some final
    /\ calls final = calls s ++ segments (retries s) n
    /\ (n <= d)%nat
    /\ (forall j, (j + 1 < n)%nat -> hit requested (up (retries s + j)) = false)
    /\ ((1 <= n)%nat
        /\ hit requested (up (retries s + n - 1)) = true
        /\ up (retries s + n - 1) = Answered (paymentMethods final)
        \/ n = d
           /\ (forall j, (j < n)%nat -> hit requested (up (retries s + j)) = false)
           /\ hit requested (Answered (paymentMethods final)) = false).
Proof.
  induction d as [|d IH]; intros fuel s Hd Hfuel Hpolls Hpm;
    destruct fuel as [|fuel]; try lia; cbn [while].
  - assert (E : (retries s <? maxRetries requested)%nat = false)
      by (apply Nat.ltb_ge; lia).
    rewrite E. exists 0%nat, s. cbn [segments seq map concat]. rewrite app_nil_r.
    repeat split; try lia. right. repeat split; auto. intros; lia.
  - assert (E : (retries s <? maxRetries requested)%nat = true)
      by (apply Nat.ltb_lt; lia).
    rewrite E.
    pose proof (polls_in_turn s) as Hp. pose proof (calls_turn s) as Hc.
    destruct (turn requested up s) as [s' brk] eqn:Ht. cbn [fst] in Hp, Hc.
    (* either the turn ends in [break], or it counts one more attempt and
       leaves data that does not meet the test *)
    assert (Hturn :
              brk = true /\ hit requested (up (retries s)) = true
              /\ up (retries s) = Answered (paymentMethods s')
              \/ brk = false /\ hit requested (up (retries s)) = false
                 /\ retries s' = S (retries s)
                 /\ hit requested (Answered (paymentMethods s')) = false).
    { unfold turn in Ht. rewrite Hpolls in Ht.
      destruct (up (retries s)) as [|[data|]] eqn:Hup.
      - injection Ht as <- <-. right. cbn. auto.
      - destruct (found requested data) eqn:Hfound; injection Ht as <- <-.
        + left. cbn. auto.
        + right. cbn. auto.
      - injection Ht as <- <-. right. cbn. auto. }
    destruct Hturn as [(-> & Hhit & Hans) | (-> & Hmiss & Hret & Hpm')].
    + exists 1%nat, s'. split; [reflexivity|].
      split; [rewrite Hc; cbn [segments seq map concat]; rewrite app_nil_r; reflexivity|].
      split; [lia|]. split; [intros; lia|].
      left. replace (retries s + 1 - 1)%nat with (retries s) by lia. auto.
    + destruct (IH fuel s') as (n & final & Hw & Hcalls & Hn & Hbefore & Hlast);
        try lia; try assumption.
      rewrite Hret in *.
      exists (S n), final.
      split; [exact Hw|]. split.
      { rewrite Hcalls, Hc, segments_S, <- app_assoc. reflexivity. }
      split; [lia|]. split.
      { intros [|j] Hj.
        - rewrite Nat.add_0_r. exact Hmiss.
        - replace (retries s + S j)%nat with (S (retries s) + j)%nat by lia.
          apply Hbefore. lia. }
      destruct Hlast as [(H1 & Hhit & Hans) | (-> & Hnone & Hf)].
      * left. replace (retries s + S n - 1)%nat with (S (retries s) + n - 1)%nat by lia.
        repeat split; auto; lia.
      * right. repeat split; auto. intros [|j] Hj.
        -- rewrite Nat.add_0_r. exact Hmiss.
        -- replace (retries s + S j)%nat with (S (retries s) + j)%nat by lia.
           apply Hnone. lia.
Qed.

(** A poll that rejects leaves [paymentMethods] as it was. *)
Lemma while_keeps_methods (fuel : nat) : forall (s final : loop_state),
  (forall i, up i = Rejected) ->
  while fuel requested up s = Some final ->
  paymentMethods final = paymentMethods s.
Proof.
  induction fuel as [|fuel IH]; intros s final Hrej; cbn [while]; [discriminate|].
  destruct (retries s <? maxRetries requested)%nat; [|intros [= <-]; reflexivity].
  unfold turn. rewrite Hrej. intros Hw.
  apply IH in Hw; [exact Hw | exact Hrej].
Qed.

End PollLoop.

Section PollClaims.
Import Invoice Props.
Local Open Scope nat_scope.

Lemma is_string_eq (v : Json.jsval) (s : string) :
  Json.is_string v s = true <-> v = Some (Json.Str s).
Proof.
  unfold Json.is_string. destruct v as [[]|]; split; try discriminate.
  - intros H. apply String.eqb_eq in H. congruence.
  - intros [= ->]. apply String.eqb_refl.
Qed.

Lemma has_destination_iff (name : string) (pms : list entry) :
  has_destination name pms = true <->
  exists m, In m pms /\ paymentMethod m = Some (Json.Str name)
            /\ Json.truthy (destination m) = true.
Proof.
  unfold has_destination. rewrite existsb_exists.
  split; intros (m & Hin & H); exists m; (split; [exact Hin|]).
  - apply andb_true_iff in H as [H1 H2]. apply is_string_eq in H1. auto.
  - destruct H as [H1 H2]. apply andb_true_iff. split; [apply is_string_eq|]; auto.
Qed.

(** The stop test in words: the answer is an array with an entry of the
    requested method whose destination is truthy. *)
Lemma hit_iff (requested : Json.jsval) (a : poll_answer) :
  hit requested a = true <->
  exists name pms m,
    wanted requested = Some name /\ a = Answer (Some pms) /\ In m pms
    /\ paymentMethod m = Some (Json.Str name)
    /\ Json.truthy (destination m) = true.
Proof.
  unfold Answer, hit, found, wanted. split.
  - destruct a as [|[[[|m0 l]|]|]]; try discriminate.
    destruct (Json.is_string requested "lightning") eqn:El; cbn [andb].
    + destruct (has_destination LN (m0 :: l)) eqn:Hl.
      * intros _. apply has_destination_iff in Hl as (m & Hin & Hm & Hd).
        exists LN, (m0 :: l), m. auto.
      * apply is_string_eq in El. subst requested. cbn. discriminate.
    + destruct (Json.is_string requested "onchain") eqn:Eo; cbn [andb]; [|discriminate].
      destruct (has_destination ONCHAIN (m0 :: l)) eqn:Ho; [|discriminate].
      intros _. apply has_destination_iff in Ho as (m & Hin & Hm & Hd).
      exists ONCHAIN, (m0 :: l), m. auto.
  - intros (name & pms & m & Hw & -> & Hin & Hm & Hd).
    assert (Hhas : has_destination name pms = true)
      by (apply has_destination_iff; eauto).
    destruct pms as [|m0 l]; [destruct Hin|].
    destruct (Json.is_string requested "lightning") eqn:El.
    + injection Hw as <-. rewrite Hhas. reflexivity.
    + destruct (Json.is_string requested "onchain") eqn:Eo; [|discriminate].
      injection Hw as <-. rewrite Hhas. cbn. destruct (has_destination LN (m0 :: l)); reflexivity.
Qed.

Lemma segments_later (from n : nat) :
  (1 <= from)%nat ->
  segments from n = concat (repeat [Wait 2000; PollPaymentMethods] n).
Proof.
  revert from. induction n as [|n IH]; intros from H; [reflexivity|].
  rewrite segments_S, (IH (S from)) by lia.
  unfold segment. destruct from; [lia|]. reflexivity.
Qed.

Lemma segments_spaced (n : nat) : segments 0 n = spaced_polls n.
Proof.
  destruct n as [|n]; [reflexivity|].
  rewrite segments_S, segments_later by lia. reflexivity.
Qed.

Lemma maxRetries_values (requested : Json.jsval) :
  maxRetries requested = 1%nat \/ maxRetries requested = 5%nat.
Proof. unfold maxRetries. destruct (Json.is_string requested "onchain"); auto. Qed.

(** The loop as a whole. *)
Lemma poll_loop_run (requested : Json.jsval) (up : upstream) :
  exists (n : nat) (final : loop_state),
    poll_loop requested up = Some final
    /\ calls final = spaced_polls n
    /\ (1 <= n <= maxRetries requested)%nat
    /\ (forall j, (j + 1 < n)%nat -> hit requested (up j) = false)
    /\ (hit requested (up (n - 1)) = true
        /\ up (n - 1) = Answered (paymentMethods final)
        \/ n = maxRetries requested
           /\ (forall j, (j < n)%nat -> hit requested (up j) = false)
           /\ hit requested (Answered (paymentMethods final)) = false).
Proof.
  unfold poll_loop.
  destruct (while_run requested up (maxRetries requested)
              (S (maxRetries requested)) (LoopState (Listed None) 0 []))
    as (n & final & Hw & Hc & Hn & Hbefore & Hlast);
    try reflexivity; cbn; try lia.
  cbn [retries calls] in *. rewrite segments_spaced in Hc.
  exists n, final. split; [exact Hw|]. split; [exact Hc|].
  pose proof (maxRetries_values requested) as Hmax.
  split; [destruct Hlast as [(H1 & _) | (-> & _)]; lia|].
  split; [exact Hbefore|].
  destruct Hlast as [(H1 & Hhit & Hans) | (-> & Hnone & Hf)]; [left | right]; auto.
Qed.

(** C2.  Whatever the upstream answers, the poll loop of createInvoice
    ends, after [n] polls with one 2000 ms wait between consecutive
    polls and nothing else; [n] is at least 1 and at most the budget, which
    is 1 for "lightning" and 5 for "onchain"; no poll before the last met
    the stop test, and the last one met it unless the budget is used up.
    A rejected poll never meets the stop test (it only counts), and an
    answer meets it exactly when it is an array with an entry of the
    requested method and a non-empty destination. *)
Theorem poll_loop_bounded (requested : Json.jsval) (up : upstream) :
  (exists (n : nat) (final : loop_state),
      poll_loop requested up = Some final
      /\ calls final = spaced_polls n
      /\ (1 <= n <= maxRetries requested)%nat
      /\ (forall j, (j + 1 < n)%nat -> hit requested (up j) = false)
      /\ (hit requested (up (n - 1)) = true \/ n = maxRetries requested))
  /\ maxRetries (Some (Json.Str "lightning")) = 1%nat
  /\ maxRetries (Some (Json.Str "onchain")) = 5%nat
  /\ hit requested Rejected = false
  /\ (forall a, hit requested a = true <->
        exists name pms m,
          wanted requested = Some name /\ a = Answer (Some pms) /\ In m pms
          /\ paymentMethod m = Some (Json.Str name)
          /\ Json.truthy (destination m) = true).
Proof.
  split.
  - destruct (poll_loop_run requested up)
      as (n & final & Hw & Hc & Hn & Hbefore & Hlast).
    exists n, final. repeat split; try assumption; try lia.
    destruct Hlast as [(Hhit & _) | (-> & _)]; auto.
  - repeat split; try reflexivity; apply hit_iff.
Qed.

End PollClaims.

(** The scenario of the specification: empty lists on the first two polls,
    an on-chain address on the third; polls four and five are not issued. *)
Example onchain_found_on_third_poll :
  let address := Invoice.Entry (Some (Json.Str Invoice.ONCHAIN))
                   (Some (Json.Str "bc1qexample")) None None in
  let up := fun n => match n with
                     | 0%nat | 1%nat => Invoice.Answer (Some [])
                     | _ => Invoice.Answer (Some [address])
                     end in
  option_map Invoice.calls (Invoice.poll_loop (Some (Json.Str "onchain")) up)
  = Some [Invoice.PollPaymentMethods; Invoice.Wait 2000; Invoice.PollPaymentMethods;
          Invoice.Wait 2000; Invoice.PollPaymentMethods].
Proof. vm_compute. reflexivity. Qed.

(** Five rejected polls use up the on-chain budget; a lightning request
    polls once. *)
Example rejected_polls_count :
  option_map Invoice.calls
    (Invoice.poll_loop (Some (Json.Str "onchain")) (fun _ => Invoice.Rejected))
  = Some (Props.spaced_polls 5)
  /\ option_map Invoice.calls
       (Invoice.poll_loop (Some (Json.Str "lightning")) (fun _ => Invoice.Rejected))
     = Some (Props.spaced_polls 1).
Proof. vm_compute. auto. Qed.

(** ** Result shaping *)

Section Shaping.
Import Invoice Props.
Local Open Scope nat_scope.

Lemma fold_left_fixed {A B} (f : A -> B -> A) (l : list B) (a : A) :
  (forall x, In x l -> f a x = a) -> fold_left f l a = a.
Proof.
  induction l as [|x l IH]; intros H; [reflexivity|].
  cbn [fold_left]. rewrite (H x) by (left; reflexivity).
  apply IH. intros y Hy. apply H. right. exact Hy.
Qed.

Lemma for_of_fixed (f : responseData -> entry -> option responseData)
      (l : list entry) (a : responseData) :
  (forall x, In x l -> f a x = Some a) -> for_of f l a = Some a.
Proof.
  induction l as [|x l IH]; intros H; [reflexivity|].
  cbn [for_of]. rewrite (H x) by (left; reflexivity).
  apply IH. intros y Hy. apply H. right. exact Hy.
Qed.

Lemma existsb_false_in {A} (f : A -> bool) (l : list A) (x : A) :
  existsb f l = false -> In x l -> f x = false.
Proof.
  intros H Hin. destruct (f x) eqn:E; [|reflexivity].
  rewrite <- H. symmetry. apply existsb_exists. eauto.
Qed.

(** [well_formed] is the condition under which the create call is made. *)
Lemma well_formed_data methods (b : body) (now : Z) :
  well_formed b = true <->
  logs b = true /\ exists d, make_invoiceData methods b now = Some d.
Proof.
  unfold well_formed, sendable, make_invoiceData, metadata_description.
  destruct (logs b); cbn [andb];
    [|split; [discriminate | intros [H _]; discriminate H]].
  destruct (req_amount b) as [a|];
    [|split; [discriminate | intros [_ [d H]]; discriminate H]].
  destruct (Json.has_toString (Some a)); cbn [andb];
    [|split; [discriminate | intros [_ [d H]]; discriminate H]].
  destruct (req_description b); split; eauto; try discriminate.
  intros [_ [d H]]. discriminate H.
Qed.

(** With an id that has no string, no poll is sent: the loop runs through
    its budget on failed attempts and leaves [paymentMethods] at [null]. *)
Lemma poll_loop_rejected (requested : Json.jsval) :
  exists final,
    poll_loop requested (fun _ => Rejected) = Some final
    /\ paymentMethods final = Listed None
    /\ calls final = spaced_polls (maxRetries requested).
Proof.
  destruct (poll_loop_run requested (fun _ => Rejected))
    as (n & final & Hw & Hc & Hn & _ & Hlast).
  exists final. split; [exact Hw|]. split.
  - unfold poll_loop in Hw.
    apply (while_keeps_methods requested (fun _ => Rejected)) in Hw; [exact Hw|].
    reflexivity.
  - destruct Hlast as [(Hh & _) | (-> & _)]; [discriminate Hh | exact Hc].
Qed.

Lemma attempts_sent (inv : invoice) (requested : Json.jsval) (up : upstream) :
  Json.interpolates (id inv) = true ->
  attempts inv requested up = poll_loop requested up.
Proof. intros H. unfold attempts. rewrite H. reflexivity. Qed.

Lemma attempts_unsent (inv : invoice) (requested : Json.jsval) (up : upstream) :
  Json.interpolates (id inv) = false ->
  exists final,
    attempts inv requested up = Some (unsent final)
    /\ paymentMethods final = Listed None
    /\ calls final = spaced_polls (maxRetries requested).
Proof.
  intros H. unfold attempts. rewrite H.
  destruct (poll_loop_rejected requested) as (final & Hw & Hpm & Hc).
  exists final. rewrite Hw. auto.
Qed.

(** The loop of a request always ends. *)
Lemma attempts_run (inv : invoice) (requested : Json.jsval) (up : upstream) :
  exists s, attempts inv requested up = Some s.
Proof.
  destruct (Json.interpolates (id inv)) eqn:E.
  - rewrite (attempts_sent _ _ _ E).
    destruct (poll_loop_run requested up) as (n & final & Hw & _). eauto.
  - destruct (attempts_unsent inv requested up E) as (final & Hw & _). eauto.
Qed.

Lemma final_methods_unsent (inv : invoice) (requested : Json.jsval) (up : upstream) :
  Json.interpolates (id inv) = false ->
  final_methods inv requested up = Listed None.
Proof.
  intros H. unfold final_methods.
  destruct (attempts_unsent inv requested up H) as (final & -> & Hpm & _).
  exact Hpm.
Qed.

(** A final value that holds entries was polled: the id had a string. *)
Lemma final_methods_polled (inv : invoice) (requested : Json.jsval) (up : upstream)
      (pms : list entry) :
  final_methods inv requested up = Listed (Some pms) ->
  Json.interpolates (id inv) = true.
Proof.
  intros H. destruct (Json.interpolates (id inv)) eqn:E; [reflexivity|].
  rewrite (final_methods_unsent _ _ _ E) in H. discriminate H.
Qed.

(** A request that is well formed and whose invoice is created runs the
    loop and is answered from what the loop ends with. *)
Lemma orchestrate_run methods announce shape (b : body) (now : Z) (inv : invoice)
      (up : upstream) :
  well_formed b = true ->
  announce inv = true ->
  exists d s,
    attempts inv (req_paymentMethod b) up = Some s
    /\ orchestrate methods announce shape b now (Some inv) up =
       Some (match final_methods inv (req_paymentMethod b) up with
             | Listed pms =>
                 match shape (req_paymentMethod b) inv pms with
                 | Some r => Success 200 r
                 | None => Failure 500 "Failed to create invoice"
                 end
             | NotAList => Failure 500 "Failed to create invoice"
             end, CreateInvoice d :: calls s).
Proof.
  intros Hwf Han.
  destruct (proj1 (well_formed_data methods b now) Hwf) as (Hlog & d & Hd).
  destruct (attempts_run inv (req_paymentMethod b) up) as (s & Hs).
  exists d, s. split; [exact Hs|].
  unfold orchestrate, final_methods. rewrite Hlog, Hd, Han, Hs.
  destruct (paymentMethods s) as [pms|]; [|reflexivity].
  destruct (shape (req_paymentMethod b) inv pms); reflexivity.
Qed.

Lemma handler_post (b : body) (now : Z) (created : option invoice) (up : upstream) :
  handler "POST" b now created up =
  orchestrate Api.checkout_methods (fun _ => true)
              (fun requested inv pms => Some (Api.shape requested inv pms))
              b now created up.
Proof. reflexivity. Qed.

Lemma found_false (requested : Json.jsval) (data : option (list entry)) (name : string) :
  found requested data = false ->
  wanted requested = Some name ->
  has_destination name (entries data) = false.
Proof.
  unfold found, wanted. destruct data as [[|m l]|]; try reflexivity.
  cbn [entries].
  destruct (Json.is_string requested "lightning"); cbn [andb].
  - intros H [= <-]. destruct (has_destination LN (m :: l)); [discriminate | reflexivity].
  - destruct (Json.is_string requested "onchain"); cbn [andb]; [|discriminate].
    intros H [= <-]. destruct (has_destination ONCHAIN (m :: l)); [discriminate | reflexivity].
Qed.

(** When no poll within the budget meets the stop test, what the loop is
    left with does not meet it either. *)
Lemma exhausted_final (inv : invoice) (requested : Json.jsval) (up : upstream) :
  (forall i, i < maxRetries requested -> hit requested (up i) = false) ->
  hit requested (Answered (final_methods inv requested up)) = false.
Proof.
  intros Hex. destruct (Json.interpolates (id inv)) eqn:E.
  - unfold final_methods. rewrite (attempts_sent _ _ _ E).
    destruct (poll_loop_run requested up)
      as (n & final & Hw & _ & Hn & _ & [(Hhit & _) | (_ & _ & Hf)]);
      rewrite Hw; [|exact Hf].
    rewrite Hex in Hhit by lia. discriminate.
  - rewrite (final_methods_unsent _ _ _ E). reflexivity.
Qed.

Lemma wanted_cases (requested : Json.jsval) (name : string) :
  wanted requested = Some name ->
  requested = Some (Json.Str "lightning") /\ name = LN
  \/ requested = Some (Json.Str "onchain") /\ name = ONCHAIN.
Proof.
  unfold wanted.
  destruct (Json.is_string requested "lightning") eqn:El.
  - apply is_string_eq in El. intros [= <-]. auto.
  - destruct (Json.is_string requested "onchain") eqn:Eo; [|discriminate].
    apply is_string_eq in Eo. intros [= <-]. auto.
Qed.

Lemma interpolates_or_else (v : Json.jsval) (s : string) :
  Json.interpolates v = true ->
  Json.interpolates (or_else v (Some (Json.Str s))) = true.
Proof. intros H. unfold or_else. destruct (Json.truthy v); [exact H | reflexivity]. Qed.

(** part_001 sets a field only for an entry of the requested method with
    a destination. *)
Lemma express_start (requested : Json.jsval) (inv : invoice) (pms : list entry) :
  (forall name, wanted requested = Some name -> has_destination name pms = false) ->
  Forall (fun m => Notions.prints m = true) pms ->
  for_of (Express.visit requested) pms (start inv) = Some (start inv).
Proof.
  intros Hno Hpr. apply for_of_fixed. intros m Hin.
  pose proof (proj1 (List.Forall_forall _ _) Hpr m Hin) as Hm.
  unfold Notions.prints in Hm.
  apply andb_true_iff in Hm as [Hm _]. apply andb_true_iff in Hm as [Hp Hd].
  unfold Express.visit. rewrite Hp, (interpolates_or_else _ _ Hd). cbn [andb].
  unfold wanted in Hno.
  destruct (Json.is_string requested "lightning") eqn:El; cbn [andb].
  - pose proof (existsb_false_in _ _ m (Hno LN eq_refl) Hin) as Hf. cbn beta in Hf.
    rewrite Hf.
    assert (Eo : Json.is_string requested "onchain" = false)
      by (apply is_string_eq in El; subst; reflexivity).
    rewrite Eo. reflexivity.
  - destruct (Json.is_string requested "onchain") eqn:Eo; cbn [andb]; [|reflexivity].
    pose proof (existsb_false_in _ _ m (Hno ONCHAIN eq_refl) Hin) as Hf. cbn beta in Hf.
    rewrite Hf. reflexivity.
Qed.

Lemma fold_left_inv {A B} (P : A -> Prop) (f : A -> B -> A) (l : list B) (a : A) :
  P a -> (forall a x, In x l -> P a -> P (f a x)) -> P (fold_left f l a).
Proof.
  revert a. induction l as [|x l IH]; intros a Ha Hf; [exact Ha|].
  cbn [fold_left]. apply IH.
  - apply Hf; [left; reflexivity | exact Ha].
  - intros b y Hy. apply Hf. right. exact Hy.
Qed.

(** A loop body that writes [value m] into the field [get] for the entries
    selected by [sel] and leaves the field alone otherwise: after the loop
    the field holds the value of a selected entry. *)
Lemma fold_left_selected {T} (sel : entry -> bool) (value : entry -> T)
      (get : responseData -> T)
      (f : responseData -> entry -> responseData) :
  (forall a m, sel m = true -> get (f a m) = value m) ->
  (forall a m, sel m = false -> get (f a m) = get a) ->
  forall (pms : list entry) (a : responseData),
    existsb sel pms = true ->
    exists m, In m pms /\ sel m = true /\ get (fold_left f pms a) = value m.
Proof.
  intros Hset Hkeep pms. induction pms as [|x l IH]; intros a Hex; [discriminate|].
  cbn [fold_left]. destruct (existsb sel l) eqn:El.
  - destruct (IH (f a x) eq_refl) as (m & Hin & Hs & Hv).
    exists m. split; [right; exact Hin | auto].
  - cbn [existsb] in Hex. rewrite El, orb_false_r in Hex.
    exists x. split; [left; reflexivity|]. split; [exact Hex|].
    rewrite <- (Hset a x Hex).
    apply (fold_left_inv (fun r => get r = get (f a x))); [reflexivity|].
    intros r y Hy Hr. rewrite Hkeep; [exact Hr|].
    apply (existsb_false_in sel l y El Hy).
Qed.

Lemma plain_start (inv : invoice) : Notions.plain (start inv).
Proof. repeat split. Qed.

Lemma api_visit_plain requested flag (pms : list entry) (r : responseData) :
  Notions.plain r -> Notions.plain (fold_left (Api.visit requested flag) pms r).
Proof.
  intros H. apply fold_left_inv; [exact H|]. clear. intros a m _ Ha.
  unfold Api.visit.
  repeat match goal with |- context [if ?b then _ else _] => destruct b end;
    exact Ha.
Qed.

End Shaping.

Section ShapingClaims.
Import Invoice Props.
Local Open Scope nat_scope.

(** create-invoice.js keeps the result as it is over a list without any
    destination of the requested method and without any on-chain
    destination, outside the on-chain-unavailable case. *)
Lemma api_start (requested : Json.jsval) (inv : invoice) (pms : list entry) :
  (forall name, wanted requested = Some name -> has_destination name pms = false) ->
  has_destination ONCHAIN pms = false ->
  fold_left (Api.visit requested false) pms (start inv) = start inv.
Proof.
  intros Hno Hoc. apply fold_left_fixed. intros m Hin.
  pose proof (existsb_false_in _ _ m Hoc Hin) as Ho. cbn beta in Ho.
  unfold Api.visit. rewrite Ho, andb_false_r. unfold wanted in Hno.
  destruct (Json.is_string requested "lightning") eqn:El.
  - pose proof (existsb_false_in _ _ m (Hno LN eq_refl) Hin) as Hf. cbn beta in Hf.
    rewrite Hf. reflexivity.
  - destruct (Json.is_string (paymentMethod m) LN && Json.truthy (destination m));
      reflexivity.
Qed.

Lemma checkout_link_set (unavailable : bool) (msg : string) (r : responseData) :
  useCheckoutLink (set_useCheckoutLink unavailable msg r) = true
  /\ message (set_useCheckoutLink unavailable msg r) <> None.
Proof. split; [reflexivity | discriminate]. Qed.

(** No destination of the requested method in what the loop is left
    with. *)
Lemma none_wanted (inv : invoice) (requested : Json.jsval) (up : upstream)
      (data : option (list entry)) :
  (forall i, i < maxRetries requested -> hit requested (up i) = false) ->
  final_methods inv requested up = Listed data ->
  forall name, wanted requested = Some name ->
               has_destination name (entries data) = false.
Proof.
  intros Hex Hfinal name Hw.
  pose proof (exhausted_final inv requested up Hex) as Hf.
  rewrite Hfinal in Hf. exact (found_false _ _ name Hf Hw).
Qed.

(** part_001 does what the specification says of the fallback, for a
    request whose invoice id and polled entries can be logged. *)
Lemma express_checkout_fallback (b : body) (now : Z) (inv : invoice) (up : upstream)
      (data : option (list entry)) :
  well_formed b = true ->
  Json.interpolates (id inv) = true ->
  (forall i, i < maxRetries (req_paymentMethod b) ->
             hit (req_paymentMethod b) (up i) = false) ->
  final_methods inv (req_paymentMethod b) up = Listed data ->
  Forall (fun m => Notions.prints m = true) (entries data) ->
  unavailable (req_paymentMethod b) data = false ->
  exists r cs,
    create_invoice b now (Some inv) up = Some (Success 200 r, cs)
    /\ useCheckoutLink r = true
    /\ message r <> None.
Proof.
  intros Hwf Hid Hex Hfinal Hpr Hna.
  destruct (orchestrate_run Express.checkout_methods
              (fun inv => Json.interpolates (id inv)) Express.shape b now inv up Hwf Hid)
    as (d & s & _ & Hrun).
  unfold create_invoice. rewrite Hrun, Hfinal.
  unfold Express.shape.
  rewrite (express_start _ inv _ (none_wanted _ _ _ _ Hex Hfinal) Hpr), Hna.
  eexists _, _. split; [reflexivity|].
  unfold Express.finish. cbn [start lightningInvoice address Json.truthy negb andb].
  apply checkout_link_set.
Qed.

(** Where create-invoice.js does give the fallback: a request that reaches
    the poll loop and none of whose polls within the budget meets the stop
    test, outside the on-chain-unavailable case, is answered 200 with
    [useCheckoutLink] true and a message, provided that what the loop is
    left with is a list or [null] (not a string, say) and that the request
    is for on-chain or that list has no on-chain entry with a
    destination. *)
Lemma api_checkout_fallback (b : body) (now : Z) (inv : invoice) (up : upstream)
        (data : option (list entry)) :
  well_formed b = true ->
  (forall i, i < maxRetries (req_paymentMethod b) ->
             hit (req_paymentMethod b) (up i) = false) ->
  final_methods inv (req_paymentMethod b) up = Listed data ->
  unavailable (req_paymentMethod b) data = false ->
  req_paymentMethod b = Some (Json.Str "onchain")
  \/ has_destination ONCHAIN (entries data) = false ->
  exists r cs,
    handler "POST" b now (Some inv) up = Some (Success 200 r, cs)
    /\ useCheckoutLink r = true
    /\ message r <> None.
Proof.
  intros Hwf Hex Hfinal Hna Hoc.
  destruct (orchestrate_run Api.checkout_methods (fun _ => true)
              (fun requested inv pms => Some (Api.shape requested inv pms))
              b now inv up Hwf eq_refl)
    as (d & s & _ & Hrun).
  rewrite handler_post, Hrun, Hfinal.
  eexists _, _. split; [reflexivity|].
  pose proof (none_wanted _ _ _ _ Hex Hfinal) as Hno.
  assert (Hoc' : has_destination ONCHAIN (entries data) = false).
  { destruct Hoc as [Hr | Hoc]; [|exact Hoc].
    apply Hno. rewrite Hr. reflexivity. }
  unfold Api.shape. rewrite Hna.
  rewrite (api_start _ inv _ Hno Hoc').
  apply checkout_link_set.
Qed.

(** C4.  create-invoice.js copies the destination of every BTC-Onchain
    entry into [address], whatever method was requested (lines 148-150),
    and decides on the fallback by the fields of the result (line 159).
    So a request that is not for on-chain, that reaches the poll loop, none
    of whose polls meets the stop test, and whose final list holds an
    on-chain entry with a destination, is not the on-chain-unavailable case
    and is answered 200 with that address, without a Lightning invoice and
    without [useCheckoutLink] or a message: no destination of the requested
    method was found, and the fallback is not given. *)
Theorem onchain_entry_suppresses_fallback
        (b : body) (now : Z) (inv : invoice) (up : upstream)
        (data : option (list entry)) :
  well_formed b = true ->
  Json.is_string (req_paymentMethod b) "onchain" = false ->
  (forall i, i < maxRetries (req_paymentMethod b) ->
             hit (req_paymentMethod b) (up i) = false) ->
  final_methods inv (req_paymentMethod b) up = Listed data ->
  has_destination ONCHAIN (entries data) = true ->
  unavailable (req_paymentMethod b) data = false
  /\ exists r cs m,
       handler "POST" b now (Some inv) up = Some (Success 200 r, cs)
       /\ In m (entries data)
       /\ paymentMethod m = Some (Json.Str ONCHAIN)
       /\ address r = destination m
       /\ Json.truthy (address r) = true
       /\ lightningInvoice r = None
       /\ useCheckoutLink r = false
       /\ message r = None.
Proof.
  intros Hwf Hreq Hex Hfinal Hhas.
  assert (Hna : unavailable (req_paymentMethod b) data = false).
  { unfold unavailable. destruct data as [[|m l]|]; try reflexivity.
    rewrite Hreq. reflexivity. }
  split; [exact Hna|].
  destruct (orchestrate_run Api.checkout_methods (fun _ => true)
              (fun requested inv pms => Some (Api.shape requested inv pms))
              b now inv up Hwf eq_refl)
    as (d & s & _ & Hrun).
  rewrite handler_post, Hrun, Hfinal.
  pose proof (none_wanted _ _ _ _ Hex Hfinal) as Hno.
  set (folded := fold_left (Api.visit (req_paymentMethod b) false) (entries data)
                           (start inv)).
  (* the address comes from an on-chain entry with a destination *)
  destruct (fold_left_selected
              (fun m => Json.is_string (paymentMethod m) ONCHAIN
                        && Json.truthy (destination m))
              destination address
              (Api.visit (req_paymentMethod b) false))
    with (pms := entries data) (a := start inv) as (m & Hin & Hsel & Hget).
  { intros a m Hm. unfold Api.visit. rewrite Hm.
    apply andb_true_iff in Hm as [Hname _]. apply is_string_eq in Hname.
    rewrite Hname.
    replace (Json.is_string (Some (Json.Str ONCHAIN)) LN) with false by reflexivity.
    reflexivity. }
  { intros a m Hm. unfold Api.visit. rewrite Hm.
    destruct (Json.is_string (paymentMethod m) LN && Json.truthy (destination m));
      [|reflexivity].
    destruct (Json.is_string (req_paymentMethod b) "lightning"); [reflexivity|].
    destruct (Json.is_string (req_paymentMethod b) "onchain" && false); reflexivity. }
  { exact Hhas. }
  fold folded in Hget.
  apply andb_true_iff in Hsel as [Hname Hdest]. apply is_string_eq in Hname.
  (* no Lightning invoice is set *)
  assert (Hln : lightningInvoice folded = None).
  { unfold folded. apply fold_left_inv; [reflexivity|].
    intros a x Hx Ha. unfold Api.visit. rewrite Hreq. cbn [andb]. unfold wanted in Hno.
    destruct (Json.is_string (req_paymentMethod b) "lightning") eqn:El.
    - pose proof (existsb_false_in _ _ x (Hno LN eq_refl) Hx) as Hf. cbn beta in Hf.
      rewrite Hf.
      destruct (Json.is_string (paymentMethod x) ONCHAIN && Json.truthy (destination x));
        exact Ha.
    - destruct (Json.is_string (paymentMethod x) LN && Json.truthy (destination x));
        [exact Ha|].
      destruct (Json.is_string (paymentMethod x) ONCHAIN && Json.truthy (destination x));
        exact Ha. }
  destruct (api_visit_plain (req_paymentMethod b) false (entries data) (start inv)
              (plain_start inv)) as (Hlink & _ & Hmsg).
  fold folded in Hlink, Hmsg.
  exists folded, (CreateInvoice d :: calls s), m.
  unfold Api.shape. rewrite Hna. fold folded.
  rewrite Hget, Hdest, andb_false_r.
  repeat split; auto.
Qed.

End ShapingClaims.

Section FallbackWitnesses.
Import Invoice Props.
Local Open Scope nat_scope.

Lemma api_checkout_fallback_witness :
  exists r cs,
    handler "POST" (Samples.request_for "onchain") 1700000000000%Z (Some Samples.invoice_1)
            (fun _ => Answer (Some [Entry (Some (Json.Str ONCHAIN)) None None None]))
    = Some (Success 200 r, cs)
    /\ useCheckoutLink r = true
    /\ message r <> None.
Proof.
  apply (api_checkout_fallback (Samples.request_for "onchain") 1700000000000%Z
           Samples.invoice_1
           (fun _ => Answer (Some [Entry (Some (Json.Str ONCHAIN)) None None None]))
           (Some [Entry (Some (Json.Str ONCHAIN)) None None None])).
  - reflexivity.
  - intros i _. reflexivity.
  - vm_compute. reflexivity.
  - vm_compute. reflexivity.
  - left. reflexivity.
Defined.

Lemma onchain_entry_suppresses_fallback_witness :
  exists r cs,
    handler "POST" (Samples.request_for "lightning") 1700000000000%Z
            (Some Samples.invoice_1)
            (fun _ => Answer (Some [Samples.onchain_entry]))
    = Some (Success 200 r, cs)
    /\ address r = Some (Json.Str "bc1qexample")
    /\ lightningInvoice r = None
    /\ useCheckoutLink r = false
    /\ message r = None.
Proof.
  destruct (onchain_entry_suppresses_fallback
              (Samples.request_for "lightning") 1700000000000%Z Samples.invoice_1
              (fun _ => Answer (Some [Samples.onchain_entry]))
              (Some [Samples.onchain_entry]))
    as (_ & r & cs & m & Hrun & Hin & _ & Ha & _ & Hl & Hlink & Hmsg).
  - reflexivity.
  - reflexivity.
  - intros i _. reflexivity.
  - vm_compute. reflexivity.
  - reflexivity.
  - exists r, cs. split; [exact Hrun|].
    destruct Hin as [<- | []]. auto.
Defined.

(** The fallback as the specification states it does not hold of
    create-invoice.js: a lightning request to which the upstream answers
    an on-chain entry with a destination finds no lightning destination,
    is not the on-chain-unavailable case, and is answered with the
    on-chain address and without [useCheckoutLink]. *)
Lemma api_lightning_request_without_fallback :
  ~ checkout_fallback (handler "POST").
Proof.
  intros H.
  destruct (H (Samples.request_for "lightning") 1700000000000%Z Samples.invoice_1
              (fun _ => Answer (Some [Samples.onchain_entry])))
    as (r & cs & Hrun & Hlink & _).
  - reflexivity.
  - intros i _. reflexivity.
  - vm_compute. reflexivity.
  - vm_compute in Hrun. injection Hrun as <- _. discriminate Hlink.
Qed.

(** What the handler answers there. *)
Example api_lightning_request_answer :
  exists r cs,
    handler "POST" (Samples.request_for "lightning") 1700000000000%Z
            (Some Samples.invoice_1)
            (fun _ => Answer (Some [Samples.onchain_entry]))
    = Some (Success 200 r, cs)
    /\ lightningInvoice r = None
    /\ address r = Some (Json.Str "bc1qexample")
    /\ useCheckoutLink r = false
    /\ message r = None.
Proof. eexists _, _. split; [vm_compute; reflexivity|]. repeat split. Qed.

(** part_001 on the same request: the on-chain entry is passed over and
    the fallback is given. *)
Example express_lightning_request_answer :
  exists r cs,
    create_invoice (Samples.request_for "lightning") 1700000000000%Z
                   (Some Samples.invoice_1)
                   (fun _ => Answer (Some [Samples.onchain_entry]))
    = Some (Success 200 r, cs)
    /\ lightningInvoice r = None
    /\ address r = None
    /\ useCheckoutLink r = true
    /\ message r <> None.
Proof. eexists _, _. split; [vm_compute; reflexivity|]. repeat split. discriminate. Qed.

(** A request that names neither method is not offered the Lightning
    invoice it is answered with; it falls back to the checkout link. *)
Example api_unspecified_request_answer :
  exists r cs,
    handler "POST" (Samples.request_for "") 1700000000000%Z (Some Samples.invoice_1)
            (fun _ => Answer (Some [Samples.lightning_entry]))
    = Some (Success 200 r, cs)
    /\ lightningInvoice r = None
    /\ useCheckoutLink r = true.
Proof. eexists _, _. split; [vm_compute; reflexivity|]. repeat split. Qed.

(** An answer that is not a list (a non-empty string, say) counts as a
    failed attempt in the loop and makes the shaping throw: the request is
    answered 500 after the create call and the polls. *)
Example not_a_list_answered_500 :
  exists d,
    handler "POST" (Samples.request_for "lightning") 1700000000000%Z
            (Some Samples.invoice_1) (fun _ => Answered NotAList)
    = Some (Failure 500 "Failed to create invoice",
            [CreateInvoice d; PollPaymentMethods]).
Proof. eexists. vm_compute. reflexivity. Qed.

(** A body whose currency has no string is refused before the create
    call. *)
Example unprintable_currency_answered_500 :
  handler "POST"
    (Body (Some (Json.Num 10)) (Some (Json.Obj [("toString", Json.Num 1)])) Falsy
          (Some (Json.Str "onchain")))
    1700000000000%Z (Some Samples.invoice_1)
    (fun _ => Answer (Some [Samples.onchain_entry]))
  = Some (Failure 500 "Failed to create invoice", []).
Proof. vm_compute. reflexivity. Qed.

End FallbackWitnesses.

Section Unavailable.
Import Invoice Props.
Local Open Scope nat_scope.

Lemma only_lightning_unavailable (pms : list entry) :
  pms <> [] -> only_lightning pms ->
  unavailable (Some (Json.Str "onchain")) (Some pms) = true.
Proof.
  intros Hne Hall. unfold unavailable. destruct pms as [|m l]; [congruence|].
  assert (Hf : forallb (fun m => Json.is_string (paymentMethod m) LN) (m :: l) = true).
  { apply forallb_forall. intros x Hx.
    rewrite (proj1 (List.Forall_forall _ _) Hall x Hx). reflexivity. }
  assert (He : existsb (fun m => Json.is_string (paymentMethod m) ONCHAIN) (m :: l) = false).
  { destruct (existsb _ (m :: l)) eqn:E; [|reflexivity].
    apply existsb_exists in E as (x & Hx & Hs).
    rewrite (proj1 (List.Forall_forall _ _) Hall x Hx) in Hs. discriminate. }
  rewrite Hf, He. reflexivity.
Qed.

(** Neither handler sets [address] from a Lightning entry. *)
Lemma api_no_address requested flag (pms : list entry) : forall r,
  only_lightning pms -> address r = None ->
  address (fold_left (Api.visit requested flag) pms r) = None.
Proof.
  induction pms as [|m l IH]; intros r Hall Hr; [exact Hr|].
  apply Forall_cons_1 in Hall as [Hm Hl]. cbn [fold_left]. apply IH; [exact Hl|].
  unfold Api.visit. rewrite Hm.
  replace (Json.is_string (Some (Json.Str LN)) ONCHAIN) with false by reflexivity.
  cbn [andb].
  destruct (Json.is_string (Some (Json.Str LN)) LN && Json.truthy (destination m));
    [|exact Hr].
  destruct (Json.is_string requested "lightning"); [exact Hr|].
  destruct (Json.is_string requested "onchain" && flag); exact Hr.
Qed.

Lemma express_no_address requested (pms : list entry) : forall r,
  only_lightning pms ->
  Forall (fun m => Json.interpolates (destination m) = true) pms ->
  address r = None ->
  exists r', for_of (Express.visit requested) pms r = Some r' /\ address r' = None.
Proof.
  induction pms as [|m l IH]; intros r Hall Hpr Hr; [eauto|].
  apply Forall_cons_1 in Hall as [Hm Hl]. apply Forall_cons_1 in Hpr as [Hd Hdl].
  cbn [for_of]. unfold Express.visit at 1.
  rewrite Hm, (interpolates_or_else _ _ Hd).
  replace (Json.is_string (Some (Json.Str LN)) ONCHAIN) with false by reflexivity.
  replace (Json.interpolates (Some (Json.Str LN))) with true by reflexivity.
  rewrite andb_false_r. cbn [andb].
  destruct (Json.is_string requested "lightning"
            && Json.is_string (Some (Json.Str LN)) LN
            && Json.truthy (destination m)); apply IH; assumption.
Qed.

(** C5.  In create-invoice.js, an on-chain request that reaches the poll
    loop and whose final polled payment-methods list is not empty and holds
    only BTC-LightningNetwork entries is answered 200 with
    [onchainNotAvailable] true and without an [address]. *)
Theorem onchain_unavailable_flagged
        (b : body) (now : Z) (inv : invoice) (up : upstream) (pms : list entry) :
  well_formed b = true ->
  req_paymentMethod b = Some (Json.Str "onchain") ->
  final_methods inv (req_paymentMethod b) up = Listed (Some pms) ->
  pms <> [] ->
  Forall (fun m => paymentMethod m = Some (Json.Str LN)) pms ->
  exists r cs,
    handler "POST" b now (Some inv) up = Some (Success 200 r, cs)
    /\ onchainNotAvailable r = true /\ address r = None.
Proof.
  intros Hwf Hreq Hfinal Hne Hall.
  pose proof (only_lightning_unavailable pms Hne Hall) as Hun.
  destruct (orchestrate_run Api.checkout_methods (fun _ => true)
              (fun requested inv pms => Some (Api.shape requested inv pms))
              b now inv up Hwf eq_refl)
    as (d & s & _ & Hrun).
  rewrite handler_post, Hrun, Hfinal.
  eexists _, _. split; [reflexivity|].
  unfold Api.shape. rewrite Hreq, Hun. cbn [entries].
  split; [reflexivity|]. cbn [address set_useCheckoutLink].
  apply api_no_address; [exact Hall | reflexivity].
Qed.

Lemma onchain_unavailable_flagged_witness :
  exists r cs,
    handler "POST" (Samples.request_for "onchain") 1700000000000%Z
            (Some Samples.invoice_1)
            (fun _ => Answer (Some [Samples.lightning_entry]))
    = Some (Success 200 r, cs)
    /\ onchainNotAvailable r = true /\ address r = None.
Proof.
  apply (onchain_unavailable_flagged (Samples.request_for "onchain") 1700000000000%Z
           Samples.invoice_1 (fun _ => Answer (Some [Samples.lightning_entry]))
           [Samples.lightning_entry]).
  - reflexivity.
  - reflexivity.
  - vm_compute. reflexivity.
  - discriminate.
  - repeat constructor.
Defined.

(** part_001 answers the same when the destinations of the entries can be
    logged (line 185); otherwise the loop over the entries throws and the
    request is answered 500. *)
Lemma express_onchain_unavailable_flagged
      (b : body) (now : Z) (inv : invoice) (up : upstream) (pms : list entry) :
  well_formed b = true ->
  req_paymentMethod b = Some (Json.Str "onchain") ->
  final_methods inv (req_paymentMethod b) up = Listed (Some pms) ->
  pms <> [] ->
  Forall (fun m => paymentMethod m = Some (Json.Str LN)) pms ->
  Forall (fun m => Json.interpolates (destination m) = true) pms ->
  exists r cs,
    create_invoice b now (Some inv) up = Some (Success 200 r, cs)
    /\ onchainNotAvailable r = true /\ address r = None
    /\ lightningInvoice r = None /\ fallbackToLightning r = false.
Proof.
  intros Hwf Hreq Hfinal Hne Hall Hpr.
  pose proof (only_lightning_unavailable pms Hne Hall) as Hun.
  pose proof (final_methods_polled _ _ _ _ Hfinal) as Hid.
  destruct (orchestrate_run Express.checkout_methods
              (fun inv => Json.interpolates (id inv)) Express.shape b now inv up Hwf Hid)
    as (d & s & _ & Hrun).
  unfold create_invoice. rewrite Hrun, Hfinal.
  unfold Express.shape. rewrite Hreq, Hun. cbn [entries].
  assert (Hfold : exists r',
             for_of (Express.visit (Some (Json.Str "onchain"))) pms (start inv) = Some r'
             /\ address r' = None /\ lightningInvoice r' = None
             /\ fallbackToLightning r' = false).
  { clear - Hall Hpr. generalize (start inv) (eq_refl : address (start inv) = None)
      (eq_refl : lightningInvoice (start inv) = None)
      (eq_refl : fallbackToLightning (start inv) = false).
    induction pms as [|m l IH]; intros r Ha Hl Hf; [eauto|].
    apply Forall_cons_1 in Hall as [Hm Hall]. apply Forall_cons_1 in Hpr as [Hd Hpr].
    cbn [for_of]. unfold Express.visit at 1.
    rewrite Hm, (interpolates_or_else _ _ Hd). cbn. apply IH; assumption. }
  destruct Hfold as (r' & -> & Ha & Hl & Hf).
  eexists _, _. split; [reflexivity|].
  unfold Express.finish. cbn. auto.
Qed.

Example express_unprintable_destination_answered_500 :
  exists d,
    create_invoice (Samples.request_for "onchain") 1700000000000%Z
      (Some Samples.invoice_1)
      (fun _ => Answer (Some [Entry (Some (Json.Str LN))
                                    (Some (Json.Obj [("toString", Json.Num 1)]))
                                    None None]))
    = Some (Failure 500 "Failed to create invoice",
            CreateInvoice d :: spaced_polls 5).
Proof. eexists. vm_compute. reflexivity. Qed.

End Unavailable.

(** An empty final list is not the on-chain-unavailable case: the request
    falls back to the checkout link without the flag. *)
Example empty_list_not_flagged :
  exists r cs,
    Invoice.handler "POST" (Samples.request_for "onchain") 1700000000000
                    (Some Samples.invoice_1) (fun _ => Invoice.Answer (Some []))
    = Some (Invoice.Success 200 r, cs)
    /\ Invoice.onchainNotAvailable r = false
    /\ Invoice.useCheckoutLink r = true.
Proof. eexists _, _. split; [vm_compute; reflexivity|]. split; reflexivity. Qed.

(** The end-to-end scenario of the specification: a lightning request, the
    invoice inv_1, one poll that answers the Lightning invoice. *)
Example lightning_end_to_end :
  exists r d,
    Invoice.handler "POST" (Samples.request_for "lightning") 1700000000000
                    (Some Samples.invoice_1)
                    (fun _ => Invoice.Answer (Some [Samples.lightning_entry]))
    = Some (Invoice.Success 200 r,
            [Invoice.CreateInvoice d; Invoice.PollPaymentMethods])
    /\ Invoice.invoiceId r = Some (Json.Str "inv_1")
    /\ Invoice.lightningInvoice r = Some (Json.Str "lnbc100n1example")
    /\ Invoice.useCheckoutLink r = false.
Proof. eexists _, _. split; [vm_compute; reflexivity|]. repeat split. Qed.

(** The calls of a whole request whose invoice id has a string: one create
    call, then the polls of the loop and nothing else. *)
Lemma handler_calls (b : Invoice.body) (now : Z) (inv : Invoice.invoice)
      (up : Invoice.upstream) :
  Props.well_formed b = true ->
  Json.interpolates (Invoice.id inv) = true ->
  exists r d n,
    Invoice.handler "POST" b now (Some inv) up
    = Some (r, Invoice.CreateInvoice d :: Props.spaced_polls n)
    /\ (1 <= n <= Invoice.maxRetries (Invoice.req_paymentMethod b))%nat.
Proof.
  intros Hwf Hid.
  destruct (orchestrate_run Invoice.Api.checkout_methods (fun _ => true)
              (fun requested inv pms => Some (Invoice.Api.shape requested inv pms))
              b now inv up Hwf eq_refl)
    as (d & s & Hs & Hrun).
  rewrite attempts_sent in Hs by exact Hid.
  destruct (poll_loop_run (Invoice.req_paymentMethod b) up)
    as (n & final & Hw & Hc & Hn & _).
  rewrite Hw in Hs. injection Hs as <-.
  rewrite handler_post, Hrun, Hc. eauto.
Qed.

(* ===================================================================== *)
(** * Further properties of the code                                      *)
(* ===================================================================== *)

(** ** The webhook handler of the stateless server *)

Section StatelessWebhook.
Import Buffer Js Crypto Http Server JsMap Notions.

Variable JSON_parse : bytes -> option Json.value.
Variable env : config.

Lemma log_event_readable (body : bytes) (ev : Json.value) (w : world) :
  JSON_parse body = Some ev ->
  readable ev = true ->
  log_event JSON_parse body w =
  (Normal tt, World (paymentStore w) (effects w ++ [JsonParse])).
Proof.
  intros Hp Hr. unfold readable in Hr.
  unfold log_event, bind, emit, lift, ret, throw, interpolate.
  cbn -[Json.prop Json.is_string Json.interpolates]. rewrite Hp.
  cbn -[Json.prop Json.is_string Json.interpolates].
  destruct (Json.prop (Some ev) "event") as [name|]; [|discriminate].
  cbn -[Json.prop Json.is_string Json.interpolates].
  destruct (Json.is_string name "invoice_paid"); [|reflexivity].
  destruct (Json.prop (Some ev) "data") as [[[]|]|]; try discriminate;
    cbn -[Json.interpolates]; rewrite ?Hr; reflexivity.
Qed.

Lemma log_event_unreadable (body : bytes) (w : world) :
  JSON_parse body = None
  \/ (exists ev, JSON_parse body = Some ev /\ readable ev = false) ->
  log_event JSON_parse body w =
  (Thrown, World (paymentStore w) (effects w ++ [JsonParse])).
Proof.
  unfold log_event, bind, emit, lift, ret, throw, interpolate.
  cbn -[Json.prop Json.is_string Json.interpolates].
  intros [Hp | (ev & Hp & Hr)]; rewrite Hp; [reflexivity|].
  unfold readable in Hr. cbn -[Json.prop Json.is_string Json.interpolates].
  destruct (Json.prop (Some ev) "event") as [name|]; [|reflexivity].
  cbn -[Json.prop Json.is_string Json.interpolates].
  destruct (Json.is_string name "invoice_paid"); [|discriminate].
  destruct (Json.prop (Some ev) "data") as [[[]|]|]; try discriminate;
    cbn -[Json.interpolates]; rewrite ?Hr; reflexivity.
Qed.

(** The handler up to the end of the signature check, for a header that
    decodes to the HMAC. *)
Lemma stateless_after_check (secret : bytes) (signature : string) (body : bytes)
      (w : world) :
  PAIDLY_WEBHOOK_SECRET env = Some secret ->
  signature <> ""%string ->
  from_hex signature = Sha256.hmac_sha256 secret body ->
  paidly_webhook_stateless JSON_parse env (Some signature) body w =
  match log_event JSON_parse body
          (World (paymentStore w)
             (effects w ++ [CreateHmac "sha256"] ++ [HmacDigest] ++ [TimingSafeEqual]))
  with
  | (Normal _, w') => (Normal (Response 200 (Text "Webhook received and verified")), w')
  | (Thrown, w') => (Normal (Response 500 (Text "Internal server error.")), w')
  end.
Proof.
  intros Hs Hne Hsig. unfold paidly_webhook_stateless, webhook_with.
  rewrite present_some by assumption.
  unfold try_catch, bind at 1.
  rewrite (sha256_check env secret) by assumption.
  rewrite Hsig, length_hmac_sha256. cbn [Nat.eqb].
  rewrite (proj2 (eqb_true _ _)) by reflexivity. cbn [negb].
  unfold bind, ret.
  destruct (log_event JSON_parse body _) as [[[]|] w']; reflexivity.
Qed.

End StatelessWebhook.

Section StatelessWebhookProperties.
Import Buffer Js Crypto Http Server JsMap Notions.

(** X1.  The stateless handler compares decoded octets: a non-empty header
    that hex-decodes to the HMAC-SHA256 of the raw body under the secret is
    accepted with 200 whenever the body parses to an event that can be
    logged; the body is parsed once, after the comparison, and the cache is
    left alone. *)
Theorem stateless_accepts_decoded_hmac
        (JSON_parse : bytes -> option Json.value) (env : config)
        (secret : bytes) (signature : string) (body : bytes)
        (ev : Json.value) (w : world) :
  PAIDLY_WEBHOOK_SECRET env = Some secret ->
  signature <> ""%string ->
  from_hex signature = Sha256.hmac_sha256 secret body ->
  JSON_parse body = Some ev ->
  readable ev = true ->
  paidly_webhook_stateless JSON_parse env (Some signature) body w =
  (Normal (Response 200 (Text "Webhook received and verified")),
   World (paymentStore w)
         (effects w ++ [CreateHmac "sha256"; HmacDigest; TimingSafeEqual; JsonParse])).
Proof.
  intros Hs Hne Hsig Hp Hr.
  rewrite (stateless_after_check JSON_parse env secret) by assumption.
  rewrite (log_event_readable JSON_parse body ev) by assumption.
  cbn [paymentStore effects]. rewrite <- !app_assoc. reflexivity.
Qed.

Lemma stateless_accepts_decoded_hmac_witness :
  paidly_webhook_stateless Samples.parse_paid Samples.env
    (Some (Samples.paid_signature +:+ "zz")) Samples.paid_body initial =
  (Normal (Response 200 (Text "Webhook received and verified")),
   World [] [CreateHmac "sha256"; HmacDigest; TimingSafeEqual; JsonParse]).
Proof.
  apply (stateless_accepts_decoded_hmac Samples.parse_paid Samples.env
           Samples.secret (Samples.paid_signature +:+ "zz") Samples.paid_body
           Samples.paid_event initial).
  - reflexivity.
  - discriminate.
  - vm_compute. reflexivity.
  - vm_compute. reflexivity.
  - reflexivity.
Defined.

(** X2.  A header that decodes to 32 octets other than the HMAC is answered
    401 "Invalid signature."; the body is never parsed and the cache is left
    alone. *)
Theorem stateless_rejects_other_octets
        (JSON_parse : bytes -> option Json.value) (env : config)
        (secret : bytes) (signature : string) (body : bytes) (w : world) :
  PAIDLY_WEBHOOK_SECRET env = Some secret ->
  length (from_hex signature) = 32%nat ->
  from_hex signature <> Sha256.hmac_sha256 secret body ->
  paidly_webhook_stateless JSON_parse env (Some signature) body w =
  (Normal (Response 401 (Text "Invalid signature.")),
   World (paymentStore w)
         (effects w ++ [CreateHmac "sha256"; HmacDigest; TimingSafeEqual])).
Proof.
  intros Hs Hl Hne. unfold paidly_webhook_stateless.
  rewrite (sha256_rejects env (log_event JSON_parse) secret) by assumption.
  reflexivity.
Qed.

Lemma stateless_rejects_other_octets_witness :
  paidly_webhook_stateless Samples.parse_paid Samples.env
    (Some Fixtures.zero_signature) Samples.paid_body initial =
  (Normal (Response 401 (Text "Invalid signature.")),
   World [] [CreateHmac "sha256"; HmacDigest; TimingSafeEqual]).
Proof.
  apply (stateless_rejects_other_octets Samples.parse_paid Samples.env
           Samples.secret Fixtures.zero_signature Samples.paid_body initial).
  - reflexivity.
  - vm_compute. reflexivity.
  - vm_compute. discriminate.
Defined.

(** X3.  A correctly signed body that is not JSON, or that parses to [null]
    or to a paid event without [data], is answered 500 "Internal server
    error.": the signature was accepted, processing threw, and the catch
    block answered. *)
Theorem stateless_signed_but_unreadable
        (JSON_parse : bytes -> option Json.value) (env : config)
        (secret : bytes) (signature : string) (body : bytes) (w : world) :
  PAIDLY_WEBHOOK_SECRET env = Some secret ->
  signature <> ""%string ->
  from_hex signature = Sha256.hmac_sha256 secret body ->
  JSON_parse body = None
  \/ (exists ev, JSON_parse body = Some ev /\ readable ev = false) ->
  paidly_webhook_stateless JSON_parse env (Some signature) body w =
  (Normal (Response 500 (Text "Internal server error.")),
   World (paymentStore w)
         (effects w ++ [CreateHmac "sha256"; HmacDigest; TimingSafeEqual; JsonParse])).
Proof.
  intros Hs Hne Hsig Hbad.
  rewrite (stateless_after_check JSON_parse env secret) by assumption.
  rewrite (log_event_unreadable JSON_parse body) by assumption.
  cbn [paymentStore effects]. rewrite <- !app_assoc. reflexivity.
Qed.

Lemma stateless_signed_but_unreadable_witness :
  paidly_webhook_stateless Samples.parse_paid Samples.env
    (Some Fixtures.broken_signature) Fixtures.broken_body initial =
  (Normal (Response 500 (Text "Internal server error.")),
   World [] [CreateHmac "sha256"; HmacDigest; TimingSafeEqual; JsonParse]).
Proof.
  apply (stateless_signed_but_unreadable Samples.parse_paid Samples.env
           Samples.secret Fixtures.broken_signature Fixtures.broken_body initial).
  - reflexivity.
  - discriminate.
  - vm_compute. reflexivity.
  - left. vm_compute. reflexivity.
Defined.

(** A paid event whose id is an object with an own toString property
    cannot be logged: line 94 throws. *)
Example unprintable_id_is_unreadable :
  readable (Json.Obj [("event", Json.Str "invoice_paid");
                      ("data", Json.Obj [("id", Json.Obj [("toString", Json.Num 1)])])])
  = false.
Proof. reflexivity. Qed.

End StatelessWebhookProperties.

(** ** The stateless server as a whole *)

Section StatelessServer.
Import Buffer Js Crypto Http Server JsMap Props Notions.

Lemma beside_ret {A} (P : A -> Prop) (a : A) : P a -> beside P (ret a).
Proof.
  intros H w. exists (Normal a), []. rewrite app_nil_r. destruct w.
  split; [reflexivity|]. split; [constructor | exact H].
Qed.

Lemma beside_throw {A} (P : A -> Prop) : beside P (@throw A).
Proof.
  intros w. exists Thrown, []. rewrite app_nil_r. destruct w.
  split; [reflexivity|]. split; [constructor | exact Logic.I].
Qed.

Lemma beside_emit (P : unit -> Prop) (e : effect) :
  on_store e = false -> P tt -> beside P (emit e).
Proof.
  intros He H w. exists (Normal tt), [e].
  split; [reflexivity|]. split; [constructor; [exact He | constructor] | exact H].
Qed.

Lemma beside_lift {A} (o : option A) : beside (fun _ => True) (lift o).
Proof. destruct o; [apply beside_ret; exact Logic.I | apply beside_throw]. Qed.

Lemma beside_interpolate v : beside (fun _ => True) (interpolate v).
Proof.
  unfold interpolate.
  destruct (Json.interpolates v); [apply beside_ret; exact Logic.I | apply beside_throw].
Qed.

Lemma beside_bind {A B} (P : B -> Prop) (c : js A) (k : A -> js B) :
  beside (fun _ => True) c -> (forall a, beside P (k a)) -> beside P (bind c k).
Proof.
  intros Hc Hk w. unfold bind.
  destruct (Hc w) as (res & added & -> & Hadd & _).
  destruct res as [a|].
  - destruct (Hk a (World (paymentStore w) (effects w ++ added)))
      as (res' & added' & -> & Hadd' & HP).
    exists res', (added ++ added'). cbn [paymentStore effects].
    rewrite app_assoc. split; [reflexivity|]. split; [|exact HP].
    apply Forall_app. split; assumption.
  - exists Thrown, added. split; [reflexivity|]. split; [exact Hadd | exact Logic.I].
Qed.

Lemma beside_try {A} (P : A -> Prop) (body handler : js A) :
  beside P body -> beside P handler -> beside P (try_catch body handler).
Proof.
  intros Hb Hh w. unfold try_catch.
  destruct (Hb w) as (res & added & -> & Hadd & HP).
  destruct res as [a|].
  - exists (Normal a), added. auto.
  - destruct (Hh (World (paymentStore w) (effects w ++ added)))
      as (res' & added' & -> & Hadd' & HP').
    exists res', (added ++ added'). cbn [paymentStore effects].
    rewrite app_assoc. split; [reflexivity|]. split; [|exact HP'].
    apply Forall_app. split; assumption.
Qed.

Ltac beside_cache :=
  repeat first
    [ progress intros
    | apply beside_bind
    | apply beside_try
    | apply beside_lift
    | apply beside_interpolate
    | apply beside_emit; [reflexivity | exact Logic.I]
    | apply beside_throw
    | apply beside_ret; first [exact Logic.I | unfold stateless_status; cbn; lia]
    | match goal with
      | |- beside _ (if ?b then _ else _) => destruct b
      | |- beside _ (match ?x with _ => _ end) => destruct x
      end ].

Lemma serve_stateless_beside JSON_parse env r :
  beside stateless_status (serve_stateless JSON_parse env r).
Proof.
  destruct r; cbn [serve_stateless].
  - unfold paidly_webhook_stateless, webhook_with, signature_matches, createHmac,
      digest_hex, timingSafeEqual, log_event. beside_cache.
  - unfold Stateless.create_payment. beside_cache.
  - unfold Stateless.check_status. beside_cache.
Qed.

(** Whatever is thrown inside a handler of the stateless server is
    caught. *)
Lemma serve_stateless_answers JSON_parse env r :
  answers (serve_stateless JSON_parse env r).
Proof.
  destruct r; cbn [serve_stateless].
  - unfold paidly_webhook_stateless, webhook_with.
    destruct (present signature); [|apply answers_ret].
    apply answers_try, answers_ret.
  - unfold Stateless.create_payment.
    destruct (_ || _); [apply answers_ret|].
    apply answers_try, answers_ret.
  - unfold Stateless.check_status.
    destruct (_ || _); [apply answers_ret|].
    apply answers_try, answers_ret.
Qed.

(** X4.  Every request to the stateless server is answered: nothing thrown
    inside a handler leaves it, and the status is 200, 400, 401 or 500.  On
    the way the handler neither reads nor writes the status cache (no
    effect it adds to the trace is on the store), and the cache after the
    request is the cache before it. *)
Theorem stateless_server_leaves_cache
        (JSON_parse : bytes -> option Json.value) (env : config)
        (r : stateless_request) (w : world) :
  exists response added,
    serve_stateless JSON_parse env r w
    = (Normal response, World (paymentStore w) (effects w ++ added))
    /\ Forall (fun e => on_store e = false) added
    /\ stateless_status response.
Proof.
  destruct (serve_stateless_beside JSON_parse env r w) as (res & added & Hrun & Hadd & HP).
  destruct (serve_stateless_answers JSON_parse env r w) as (response & w' & Hans).
  destruct res as [a|]; [|rewrite Hrun in Hans; discriminate Hans].
  exists a, added. auto.
Qed.

(** X5.  With token and store id configured, the live status check makes
    one upstream call and always answers 200 with a JSON object.  The
    object is [{status: "Paid"}] exactly when the upstream status is one of
    "Settled", "Complete", "Confirmed" or "Paid"; it is [{status: "Error"}]
    when the call rejects or answers no data. *)
Theorem live_status_paid_iff (env : config) (invoiceId : string)
        (fetched : option Json.jsval) (w : world) :
  missing (PAIDLY_API_TOKEN env) = false ->
  missing (PAIDLY_STORE_ID env) = false ->
  exists fields,
    Stateless.check_status env invoiceId fetched w =
    (Normal (Response 200 (JsonBody (Json.Obj fields))),
     World (paymentStore w) (effects w ++ [HttpGet]))
    /\ (fields = [("status", Json.Str "Paid")]%string <->
        exists data st,
          fetched = Some data
          /\ Json.prop data "status" = Some (Some (Json.Str st))
          /\ (st = "Settled" \/ st = "Complete" \/ st = "Confirmed" \/ st = "Paid")%string)
    /\ (fetched = None \/ fetched = Some None \/ fetched = Some (Some Json.Null) ->
        fields = [("status", Json.Str "Error")]%string).
Proof.
  intros Ht Hs. unfold Stateless.check_status. rewrite Ht, Hs. cbn [orb].
  unfold try_catch, bind, emit, lift, ret, throw. cbn -[Json.prop Json.is_string].
  destruct fetched as [data|].
  - cbn -[Json.prop Json.is_string].
    destruct (Json.prop data "status") as [status|] eqn:Hp.
    + cbn -[Json.prop Json.is_string].
      destruct (Json.is_string status "Settled") eqn:E1;
        [|destruct (Json.is_string status "Complete") eqn:E2;
          [|destruct (Json.is_string status "Confirmed") eqn:E3]];
        cbn [orb];
        try (eexists; split; [reflexivity|]; split;
             [ split; [intros _|reflexivity];
               first [apply is_string_eq in E1 | apply is_string_eq in E2
                     | apply is_string_eq in E3];
               subst status; eexists _, _; repeat split; eauto
             | intros [H | [H | H]]; inversion H; subst; discriminate Hp ]).
      eexists; split; [reflexivity|]. split.
      * split.
        -- destruct status as [v|]; cbn [field]; intros [= ->].
           exists data, "Paid"%string.
           split; [reflexivity|]. split; [exact Hp|]. auto.
        -- intros (d & st & [= <-] & Hst & Hcases). rewrite Hst in Hp.
           injection Hp as <-.
           destruct Hcases as [-> | [-> | [-> | ->]]];
             try discriminate E1; try discriminate E2; try discriminate E3.
           reflexivity.
      * intros [H | [H | H]]; inversion H; subst; discriminate Hp.
    + eexists; split; [reflexivity|]. split.
      * split; [discriminate|].
        intros (d & st & [= <-] & Hst & _). rewrite Hst in Hp. discriminate.
      * reflexivity.
  - eexists; split; [reflexivity|]. split.
    + split; [discriminate|]. intros (d & st & H & _). discriminate.
    + reflexivity.
Qed.

Lemma live_status_paid_iff_witness :
  exists fields,
    Stateless.check_status Samples.env "inv_1"
      (Some (Some (Json.Obj [("status", Json.Str "Settled")]))) initial =
    (Normal (Response 200 (JsonBody (Json.Obj fields))),
     World [] [HttpGet])
    /\ fields = [("status", Json.Str "Paid")]%string.
Proof.
  destruct (live_status_paid_iff Samples.env "inv_1"
              (Some (Some (Json.Obj [("status", Json.Str "Settled")]))) initial)
    as (fields & Hrun & Hiff & _); [reflexivity | reflexivity |].
  exists fields. split; [exact Hrun|].
  apply Hiff. eexists _, _. split; [reflexivity|]. split; [reflexivity|]. auto.
Defined.

End StatelessServer.

(** ** create-payment and check-status of server.js *)

Section StatefulServer.
Import Buffer Js Crypto Http Server JsMap Props Notions.

Lemma configured (env : config) :
  missing (PAIDLY_API_TOKEN env) = false ->
  missing (PAIDLY_STORE_ID env) = false ->
  missing (PAIDLY_API_URL env) = false ->
  missing (PAIDLY_API_TOKEN env) || missing (PAIDLY_STORE_ID env)
  || missing (PAIDLY_API_URL env) = false.
Proof. intros -> -> ->. reflexivity. Qed.

(** X6.  When the API token, the store id or the API URL is not set,
    create-payment (of server.js and of the stateless server alike) answers
    500 "Server configuration error." at once: no upstream call is made and
    the cache is not written. *)
Theorem create_payment_unconfigured (env : config) (body : Json.value) (now : Z)
        (created fetched : option Json.jsval) (w : world) :
  missing (PAIDLY_API_TOKEN env) = true \/ missing (PAIDLY_STORE_ID env) = true
  \/ missing (PAIDLY_API_URL env) = true ->
  let refused :=
    (Normal (Response 500 (JsonBody
       (Json.Obj [("error", Json.Str "Server configuration error.")]))), w)%string in
  create_payment env body now created fetched w = refused
  /\ Stateless.create_payment env body now created fetched w = refused.
Proof.
  intros H. cbn zeta. unfold create_payment, Stateless.create_payment.
  replace (missing (PAIDLY_API_TOKEN env) || missing (PAIDLY_STORE_ID env)
           || missing (PAIDLY_API_URL env)) with true; [split; reflexivity|].
  destruct H as [-> | [-> | ->]]; rewrite ?orb_true_r; reflexivity.
Qed.

Lemma create_payment_unconfigured_witness :
  create_payment (Config (Some "token") (Some "") None (Some "https://api.example"))%string
    Fixtures.payment_body 1700000000000 (Some Fixtures.created_data)
    (Some Fixtures.fetched_methods) initial =
  (Normal (Response 500 (JsonBody
     (Json.Obj [("error", Json.Str "Server configuration error.")]))), initial)%string.
Proof.
  refine (proj1 (create_payment_unconfigured
                   (Config (Some "token") (Some "") None (Some "https://api.example"))%string
                   Fixtures.payment_body 1700000000000 (Some Fixtures.created_data)
                   (Some Fixtures.fetched_methods) initial _)).
  right. left. reflexivity.
Defined.

(** The handler up to the write of "New". *)
Lemma create_payment_writes (env : config) (body : Json.value) (now n : Z)
      (data : Json.jsval) (id : Json.jsval) (fetched : option Json.jsval) (w : world) :
  missing (PAIDLY_API_TOKEN env) = false ->
  missing (PAIDLY_STORE_ID env) = false ->
  missing (PAIDLY_API_URL env) = false ->
  Json.prop (Some body) "amount" = Some (Some (Json.Num n)) ->
  Json.prop data "id" = Some id ->
  exists r tail,
    create_payment env body now (Some data) fetched w =
    (Normal r,
     World (JsMap.set (paymentStore w) (KStr ("ORDER-" +:+ pretty now)) "New")
           (effects w ++ [HttpPost] ++ [StoreSet (KStr ("ORDER-" +:+ pretty now)) "New"]
                      ++ tail))
    /\ (fetched = None ->
        r = Response 500 (JsonBody
              (Json.Obj [("error", Json.Str "Failed to process payment invoice.")]))%string).
Proof.
  intros Ht Hs Hu Ha Hid. unfold create_payment.
  rewrite (configured env Ht Hs Hu).
  unfold try_catch, bind, emit, lift, ret, throw, store_set, interpolate.
  cbn -[Json.prop JsMap.set pretty find_method prop_or_null Json.interpolates].
  rewrite Ha. cbn -[Json.prop JsMap.set pretty find_method prop_or_null Json.interpolates].
  assert (Hc : exists c, Json.prop (Some body) "currency" = Some c).
  { destruct body; try discriminate Ha; cbn; eauto. }
  destruct Hc as (c & Hc). rewrite Hc.
  cbn -[Json.prop JsMap.set pretty find_method prop_or_null Json.interpolates].
  rewrite Hid. cbn -[Json.prop JsMap.set pretty find_method prop_or_null Json.interpolates].
  rewrite <- !app_assoc.
  destruct (Json.interpolates id);
    cbn -[Json.prop JsMap.set pretty find_method prop_or_null];
    [|eexists _, []; split; [reflexivity | reflexivity]].
  rewrite <- !app_assoc.
  destruct fetched as [[[ | | | | items | ]|]|];
    cbn -[Json.prop JsMap.set pretty find_method prop_or_null];
    try (eexists _, [HttpGet]; split;
         [reflexivity | intros H; first [discriminate H | reflexivity]]).
  destruct (find_method "BTC-LightningNetwork" items) as [lp|];
    cbn -[Json.prop JsMap.set pretty find_method prop_or_null];
    [|eexists _, [HttpGet]; split; [reflexivity | discriminate]].
  destruct (prop_or_null lp "destination") as [li|];
    cbn -[Json.prop JsMap.set pretty find_method prop_or_null];
    [|eexists _, [HttpGet]; split; [reflexivity | discriminate]].
  destruct (find_method "BTC" items) as [op|];
    cbn -[Json.prop JsMap.set pretty find_method prop_or_null];
    [|eexists _, [HttpGet]; split; [reflexivity | discriminate]].
  destruct (prop_or_null op "address") as [oa|];
    cbn -[Json.prop JsMap.set pretty find_method prop_or_null];
    eexists _, [HttpGet]; (split; [reflexivity | discriminate]).
Qed.

(** X7.  Once the upstream has created the invoice, the order
    [ORDER-<now>] is in the cache with status "New" and a status query for
    it answers "New", whatever becomes of the payment-methods call: also
    when that call rejects and the client is answered 500.  No other entry
    of the cache changes. *)
Theorem created_order_reads_new (env : config) (body : Json.value) (now n : Z)
        (data : Json.jsval) (id : Json.jsval) (fetched : option Json.jsval) (w : world) :
  missing (PAIDLY_API_TOKEN env) = false ->
  missing (PAIDLY_STORE_ID env) = false ->
  missing (PAIDLY_API_URL env) = false ->
  Json.prop (Some body) "amount" = Some (Some (Json.Num n)) ->
  Json.prop data "id" = Some id ->
  let orderId := ("ORDER-" +:+ pretty now)%string in
  let after := snd (create_payment env body now (Some data) fetched w) in
  JsMap.get (paymentStore after) (KStr orderId) = Some "New"%string
  /\ fst (check_status orderId after)
     = Normal (Response 200 (JsonBody (Json.Obj [("status", Json.Str "New")])))%string
  /\ (forall k, key_eqb k (KStr orderId) = false ->
        JsMap.get (paymentStore after) k = JsMap.get (paymentStore w) k)
  /\ (fetched = None ->
      fst (create_payment env body now (Some data) fetched w)
      = Normal (Response 500 (JsonBody
          (Json.Obj [("error", Json.Str "Failed to process payment invoice.")])))%string).
Proof.
  intros Ht Hs Hu Ha Hid orderId after.
  destruct (create_payment_writes env body now n data id fetched w Ht Hs Hu Ha Hid)
    as (r & tail & Hrun & Hfail).
  assert (Hget : JsMap.get (paymentStore after) (KStr orderId) = Some "New"%string).
  { unfold after. rewrite Hrun. cbn [snd paymentStore].
    apply get_set_same. discriminate. }
  split; [exact Hget|]. split.
  { unfold check_status, bind, store_get, ret. rewrite Hget. reflexivity. }
  split.
  { intros k Hk. unfold after. rewrite Hrun. cbn [snd paymentStore].
    apply get_set_other. exact Hk. }
  intros Hf. rewrite Hrun. cbn [fst]. f_equal. apply Hfail. exact Hf.
Qed.

Lemma created_order_reads_new_witness :
  let after := snd (create_payment Samples.env Fixtures.payment_body 1700000000000
                      (Some Fixtures.created_data) None initial) in
  JsMap.get (paymentStore after) (KStr "ORDER-1700000000000") = Some "New"%string
  /\ fst (check_status "ORDER-1700000000000" after)
     = Normal (Response 200 (JsonBody (Json.Obj [("status", Json.Str "New")])))%string.
Proof.
  destruct (created_order_reads_new Samples.env Fixtures.payment_body 1700000000000 25
              Fixtures.created_data (Some (Json.Str "inv_7")) None initial)
    as (H1 & H2 & _); try reflexivity.
  split; [exact H1 | exact H2].
Defined.

End StatefulServer.

Section StatefulServerEdges.
Import Buffer Js Crypto Http Server JsMap Props Notions.

(** X8.  When the upstream rejects the create call, create-payment answers
    500, has made at most that one call (no payment-methods call follows),
    and leaves the cache as it was. *)
Theorem create_payment_rejected (env : config) (body : Json.value) (now : Z)
        (fetched : option Json.jsval) (w : world) :
  exists payload made,
    create_payment env body now None fetched w =
    (Normal (Response 500 payload), World (paymentStore w) (effects w ++ made))
    /\ (made = [] \/ made = [HttpPost]).
Proof.
  unfold create_payment.
  destruct (missing (PAIDLY_API_TOKEN env) || missing (PAIDLY_STORE_ID env)
            || missing (PAIDLY_API_URL env)).
  - eexists _, []. rewrite app_nil_r. destruct w. split; [reflexivity | auto].
  - unfold try_catch, bind, emit, lift, ret, throw.
    destruct (Json.prop (Some body) "amount") as [amount|];
      [|eexists _, []; rewrite app_nil_r; destruct w; split; [reflexivity | auto]].
    destruct (Json.prop (Some body) "currency") as [currency|];
      [|eexists _, []; rewrite app_nil_r; destruct w; split; [reflexivity | auto]].
    destruct (toFixed2 amount) as [amount2|];
      [|eexists _, []; rewrite app_nil_r; destruct w; split; [reflexivity | auto]].
    cbn. eexists _, [HttpPost]. split; [reflexivity | auto].
Qed.

(** X9.  An amount that is not a number (a string such as "25", or no
    amount at all) is answered 500 "Failed to process payment invoice."
    before any upstream call, and nothing is cached. *)
Theorem create_payment_amount_not_number (env : config) (body : Json.value)
        (now : Z) (created fetched : option Json.jsval) (w : world) :
  missing (PAIDLY_API_TOKEN env) = false ->
  missing (PAIDLY_STORE_ID env) = false ->
  missing (PAIDLY_API_URL env) = false ->
  (forall n, Json.prop (Some body) "amount" <> Some (Some (Json.Num n))) ->
  create_payment env body now created fetched w =
  (Normal (Response 500 (JsonBody
     (Json.Obj [("error", Json.Str "Failed to process payment invoice.")]))), w)%string.
Proof.
  intros Ht Hs Hu Hn. unfold create_payment. rewrite (configured env Ht Hs Hu).
  unfold try_catch, bind, emit, lift, ret, throw.
  destruct (Json.prop (Some body) "amount") as [amount|]; [|reflexivity].
  destruct (Json.prop (Some body) "currency") as [currency|]; [|reflexivity].
  destruct amount as [[]|]; try reflexivity.
  exfalso. eapply Hn. reflexivity.
Qed.

Lemma create_payment_amount_not_number_witness :
  create_payment Samples.env
    (Json.Obj [("amount", Json.Str "25"); ("currency", Json.Str "USD")])%string
    1700000000000 (Some Fixtures.created_data) (Some Fixtures.fetched_methods) initial =
  (Normal (Response 500 (JsonBody
     (Json.Obj [("error", Json.Str "Failed to process payment invoice.")]))), initial)%string.
Proof.
  apply create_payment_amount_not_number; try reflexivity.
  intros n. discriminate.
Defined.

(** A status query for an order id whose cached value is a non-empty
    string answers that value and leaves the cache as it is. *)
Theorem check_status_cached (orderId status : string) (w : world) :
  JsMap.get (paymentStore w) (KStr orderId) = Some status ->
  status <> ""%string ->
  check_status orderId w =
  (Normal (Response 200 (JsonBody (Json.Obj [("status", Json.Str status)]))),
   World (paymentStore w) (effects w ++ [StoreGet (KStr orderId)]))%string.
Proof.
  intros Hg Hne. unfold check_status, bind, store_get, ret, status_or_not_found.
  rewrite Hg. destruct status; [congruence | reflexivity].
Qed.

Lemma check_status_cached_witness :
  check_status "ORDER-1" (World [(KStr "ORDER-1", "New")]%string []) =
  (Normal (Response 200 (JsonBody (Json.Obj [("status", Json.Str "New")]))),
   World [(KStr "ORDER-1", "New")] [StoreGet (KStr "ORDER-1")])%string.
Proof.
  apply (check_status_cached "ORDER-1" "New" (World [(KStr "ORDER-1", "New")]%string []));
    [reflexivity | discriminate].
Defined.

Ltac keep_new :=
  repeat first
    [ progress intros
    | apply keeps_bind
    | apply keeps_try
    | apply keeps_ret | apply keeps_throw | apply keeps_emit | apply keeps_lift
    | apply keeps_interpolate
    | apply keeps_store_get
    | apply keeps_store_set;
      [intros; apply values_set; [assumption | reflexivity]]
    | match goal with
      | |- keeps _ (if ?b then _ else _) => destruct b
      | |- keeps _ (match ?x with _ => _ end) => destruct x
      end ].

Lemma paidly_webhook_store JSON_parse env signature body w :
  paymentStore (snd (paidly_webhook JSON_parse env signature body w)) = paymentStore w.
Proof.
  destruct signature as [[|c s]|]; [reflexivity | | reflexivity].
  rewrite sha266_always_500. reflexivity.
Qed.

Lemma serve_keeps_new JSON_parse env r : keeps all_new (serve JSON_parse env r).
Proof.
  destruct r; cbn [serve].
  - intros w H. rewrite paidly_webhook_store. exact H.
  - unfold create_payment, all_new. keep_new.
  - unfold check_status. keep_new.
Qed.

(** X10.  In server.js as written no request ever puts "Paid" into the
    cache: after any sequence of requests from start-up every cached value
    is "New", and a status query answers "New" or "Not Found". *)
Theorem status_is_new_or_not_found
        (JSON_parse : bytes -> option Json.value) (env : config)
        (rs : list request) (orderId : string) :
  let w := serve_all JSON_parse env rs initial in
  Forall (fun v => v = "New"%string) (values (paymentStore w))
  /\ (fst (check_status orderId w)
      = Normal (Response 200 (JsonBody (Json.Obj [("status", Json.Str "New")])))%string
      \/ fst (check_status orderId w)
         = Normal (Response 200 (JsonBody (Json.Obj [("status", Json.Str "Not Found")])))%string).
Proof.
  cbn zeta.
  assert (Hinv : forall w, all_new (paymentStore w) ->
                           all_new (paymentStore (serve_all JSON_parse env rs w))).
  { induction rs as [|r rest IH]; intros w H; cbn [serve_all]; [exact H|].
    apply IH. apply serve_keeps_new. exact H. }
  specialize (Hinv initial ltac:(constructor)).
  split; [exact Hinv|].
  unfold check_status, bind, store_get, ret, status_or_not_found. cbn [fst].
  destruct (JsMap.get _ (KStr orderId)) as [s|] eqn:G; [|auto].
  rewrite (get_values (fun v => v = "New"%string) _ _ _ Hinv G). auto.
Qed.

End StatefulServerEdges.

(** ** More on sanitizeMetadata *)

Section SanitizeProperties.
Import Sanitize.
Local Open Scope N_scope.

Lemma allowed_not_space (c : N) : allowed c = true -> is_space c = false.
Proof.
  unfold allowed, is_space, underscore, hyphen. intros H.
  repeat rewrite orb_true_iff in H. repeat rewrite andb_true_iff in H.
  repeat rewrite N.leb_le in H. repeat rewrite N.eqb_eq in H.
  repeat (apply orb_false_intro);
    try (apply N.eqb_neq; lia);
    apply andb_false_iff; rewrite !N.leb_gt; lia.
Qed.

Lemma collapse_no_space (s : jsstring) :
  Forall (fun c => is_space c = false) s -> collapse s = s.
Proof.
  induction s as [|c r IH]; intros H; [reflexivity|].
  apply Forall_cons_1 in H as [Hc Hr]. cbn [collapse]. rewrite Hc, IH by assumption.
  reflexivity.
Qed.

Lemma strip_all_allowed (s : jsstring) :
  Forall (fun c => allowed c = true) s -> strip s = s.
Proof.
  induction s as [|c r IH]; intros H; [reflexivity|].
  apply Forall_cons_1 in H as [Hc Hr]. cbn [strip]. rewrite Hc, IH by assumption.
  reflexivity.
Qed.

Lemma sanitize_all_allowed (s : jsstring) :
  Forall (fun c => allowed c = true) s -> sanitizeMetadata s = s.
Proof.
  intros H. unfold sanitizeMetadata.
  rewrite collapse_no_space; [apply strip_all_allowed; exact H|].
  eapply List.Forall_impl; [|exact H]. apply allowed_not_space.
Qed.

(** X11.  [sanitizeMetadata] leaves a string unchanged exactly when all its
    code units are in [[A-Za-z0-9_-]]. *)
Theorem sanitizeMetadata_fixed_iff (value : jsstring) :
  sanitizeMetadata value = value <-> Forall (fun c => allowed c = true) value.
Proof.
  split.
  - intros H. rewrite <- H. apply strip_allowed.
  - apply sanitize_all_allowed.
Qed.

(** X12.  Sanitising twice is sanitising once. *)
Theorem sanitizeMetadata_idempotent (value : jsstring) :
  sanitizeMetadata (sanitizeMetadata value) = sanitizeMetadata value.
Proof. apply sanitize_all_allowed, strip_allowed. Qed.

Lemma length_scan (s : jsstring) :
  (length (collapse s) <= length s)%nat /\ (length (inside s) <= length s)%nat.
Proof.
  induction s as [|c r [IHc IHi]]; [split; reflexivity|].
  cbn [collapse inside]. destruct (is_space c); cbn [length]; lia.
Qed.

Lemma length_strip (s : jsstring) : (length (strip s) <= length s)%nat.
Proof.
  induction s as [|c r IH]; [reflexivity|].
  cbn [strip]. destruct (allowed c); cbn [negb length]; lia.
Qed.

(** X13.  The sanitized string is never longer than the input. *)
Theorem sanitizeMetadata_length (value : jsstring) :
  (length (sanitizeMetadata value) <= length value)%nat.
Proof.
  unfold sanitizeMetadata.
  pose proof (length_strip (collapse value)). pose proof (proj1 (length_scan value)).
  lia.
Qed.

(** X14.  The sanitized string is empty exactly when the input has no
    whitespace and no code unit of the class: a description made of other
    characters only is sent as the empty string. *)
Theorem sanitizeMetadata_empty_iff (value : jsstring) :
  sanitizeMetadata value = [] <->
  Forall (fun c => is_space c = false /\ allowed c = false) value.
Proof.
  unfold sanitizeMetadata. split.
  - induction value as [|c r IH]; intros H; [constructor|].
    cbn [collapse] in H. destruct (is_space c) eqn:Es.
    + cbn [strip] in H. rewrite allowed_underscore in H. discriminate H.
    + cbn [strip] in H. destruct (allowed c) eqn:Ea; [discriminate H|].
      constructor; [auto | apply IH; exact H].
  - intros H. rewrite collapse_no_space.
    + induction value as [|c r IH]; [reflexivity|].
      apply Forall_cons_1 in H as [[_ Ha] Hr]. cbn [strip]. rewrite Ha. cbn [negb].
      apply IH. exact Hr.
    + eapply List.Forall_impl; [|exact H]. intros c [Hs _]. exact Hs.
Qed.

End SanitizeProperties.

Example sanitize_symbols_only :
  Sanitize.sanitizeMetadata (Sanitize.of_ascii "$%&/()!") = [].
Proof. vm_compute. reflexivity. Qed.

(** ** More on the invoice orchestrator *)

Section OrchestratorCalls.
Import Invoice Props Notions.

Lemma total_wait_app (a b : list call) :
  total_wait (a ++ b) = total_wait a + total_wait b.
Proof.
  induction a as [|c a IH]; [reflexivity|].
  destruct c; cbn [app total_wait]; lia.
Qed.

Lemma total_wait_spaced (n : nat) :
  total_wait (spaced_polls n) = 2000 * Z.of_nat (n - 1).
Proof.
  destruct n as [|n]; [reflexivity|].
  unfold spaced_polls. cbn [total_wait].
  replace (S n - 1)%nat with n by lia.
  induction n as [|n IH]; [reflexivity|].
  cbn [repeat concat app total_wait]. rewrite IH. lia.
Qed.

Lemma total_wait_unsent (s : loop_state) :
  total_wait (calls (unsent s)) = total_wait (calls s).
Proof.
  unfold unsent. cbn [calls].
  induction (calls s) as [|c cs IH]; [reflexivity|].
  destruct c; cbn [List.filter total_wait]; lia.
Qed.

Lemma polls_in_unsent (s : loop_state) : polls_in (calls (unsent s)) = 0%nat.
Proof.
  unfold unsent, polls_in. cbn [calls].
  induction (calls s) as [|c cs IH]; [reflexivity|].
  destruct c; cbn [List.filter length]; exact IH.
Qed.

(** The loop of a request waits at most four times, and only for
    on-chain. *)
Lemma attempts_waits (inv : invoice) (requested : Json.jsval) (up : upstream)
      (s : loop_state) :
  attempts inv requested up = Some s ->
  0 <= total_wait (calls s) <= 8000
  /\ (Json.is_string requested "onchain" = false -> total_wait (calls s) = 0).
Proof.
  intros Hs.
  assert (H : exists n, (1 <= n <= maxRetries requested)%nat
                        /\ total_wait (calls s) = 2000 * Z.of_nat (n - 1)).
  { destruct (Json.interpolates (id inv)) eqn:E.
    - rewrite (attempts_sent _ _ _ E) in Hs.
      destruct (poll_loop_run requested up) as (n & final & Hw & Hc & Hn & _).
      rewrite Hw in Hs. injection Hs as <-.
      exists n. rewrite Hc, total_wait_spaced. auto.
    - destruct (attempts_unsent inv requested up E) as (final & Hw & _ & Hc).
      rewrite Hw in Hs. injection Hs as <-.
      exists (maxRetries requested).
      rewrite total_wait_unsent, Hc, total_wait_spaced.
      pose proof (maxRetries_values requested). split; [lia | reflexivity]. }
  destruct H as (n & Hn & ->). unfold maxRetries in Hn.
  destruct (Json.is_string requested "onchain"); split; lia.
Qed.

(** Every run of the orchestrator ends, within the bound on the waits. *)
Lemma orchestrate_waits methods announce shape (b : body) (now : Z)
      (created : option invoice) (up : upstream) :
  exists r cs,
    orchestrate methods announce shape b now created up = Some (r, cs)
    /\ 0 <= total_wait cs <= 8000
    /\ (Json.is_string (req_paymentMethod b) "onchain" = false -> total_wait cs = 0).
Proof.
  unfold orchestrate.
  destruct (logs b);
    [|eexists _, _; split; [reflexivity|]; cbn; split; [lia | auto]].
  destruct (make_invoiceData methods b now) as [d|];
    [|eexists _, _; split; [reflexivity|]; cbn; split; [lia | auto]].
  destruct created as [inv|];
    [|eexists _, _; split; [reflexivity|]; cbn; split; [lia | auto]].
  destruct (announce inv);
    [|eexists _, _; split; [reflexivity|]; cbn; split; [lia | auto]].
  destruct (attempts_run inv (req_paymentMethod b) up) as (s & Hs). rewrite Hs.
  pose proof (attempts_waits _ _ _ _ Hs) as Hwait.
  destruct (paymentMethods s) as [pms|];
    [destruct (shape (req_paymentMethod b) inv pms)|];
    eexists _, _; (split; [reflexivity|]); cbn [total_wait]; exact Hwait.
Qed.

(** X15.  A request to create-invoice.js or to part_001 always ends, and
    the time it spends waiting between polls is at most 8 seconds (four
    waits of 2000 ms); a request that is not for on-chain never waits. *)
Theorem waits_at_most_eight_seconds (http_method : string) (b : body) (now : Z)
        (created : option invoice) (up : upstream) :
  (exists r cs,
      handler http_method b now created up = Some (r, cs)
      /\ 0 <= total_wait cs <= 8000
      /\ (Json.is_string (req_paymentMethod b) "onchain" = false -> total_wait cs = 0))
  /\ (exists r cs,
         create_invoice b now created up = Some (r, cs)
         /\ 0 <= total_wait cs <= 8000
         /\ (Json.is_string (req_paymentMethod b) "onchain" = false -> total_wait cs = 0)).
Proof.
  split; [|apply orchestrate_waits].
  unfold handler.
  destruct (String.eqb http_method "OPTIONS");
    [eexists _, _; split; [reflexivity|]; cbn; split; [lia | auto]|].
  destruct (negb (String.eqb http_method "POST"));
    [eexists _, _; split; [reflexivity|]; cbn; split; [lia | auto]|].
  apply orchestrate_waits.
Qed.

Lemma orchestrate_rejected methods announce shape (b : body) (now : Z) (up : upstream) :
  exists cs,
    orchestrate methods announce shape b now None up
    = Some (Failure 500 "Failed to create invoice", cs)
    /\ polls_in cs = 0%nat
    /\ (length cs = if well_formed b then 1%nat else 0%nat).
Proof.
  pose proof (well_formed_data methods b now) as Hwf. unfold orchestrate.
  destruct (logs b) eqn:El.
  - destruct (make_invoiceData methods b now) as [d|] eqn:Hd.
    + rewrite (proj2 Hwf) by eauto. eexists. repeat split.
    + destruct (well_formed b);
        [destruct (proj1 Hwf eq_refl) as (_ & d & H); discriminate H|].
      eexists. repeat split.
  - unfold well_formed. rewrite El. eexists. repeat split.
Qed.

(** X16.  When the upstream rejects the create call, both handlers answer
    500 "Failed to create invoice" and never poll: the create call is the
    only call made, and a body from which the call cannot be made (the
    first log line or [amount.toString()] throws, or the description is not
    a string) is refused before any call. *)
Theorem rejected_create_is_not_polled (b : body) (now : Z) (up : upstream) :
  (exists cs,
      handler "POST" b now None up = Some (Failure 500 "Failed to create invoice", cs)
      /\ polls_in cs = 0%nat
      /\ (length cs = if well_formed b then 1%nat else 0%nat))
  /\ (exists cs,
         create_invoice b now None up = Some (Failure 500 "Failed to create invoice", cs)
         /\ polls_in cs = 0%nat
         /\ (length cs = if well_formed b then 1%nat else 0%nat)).
Proof.
  split; [rewrite handler_post | unfold create_invoice]; apply orchestrate_rejected.
Qed.

End OrchestratorCalls.

Section FoundDestination.
Import Invoice Props Notions.
Local Open Scope nat_scope.

(** The loop when poll number [i] is the first to meet the stop test. *)
Lemma poll_loop_first_hit (requested : Json.jsval) (up : upstream) (i : nat) :
  i < maxRetries requested ->
  (forall j, j < i -> hit requested (up j) = false) ->
  hit requested (up i) = true ->
  exists final,
    poll_loop requested up = Some final
    /\ calls final = spaced_polls (S i)
    /\ up i = Answered (paymentMethods final).
Proof.
  intros Hi Hbefore Hhit.
  destruct (poll_loop_run requested up)
    as (n & final & Hw & Hc & Hn & Hnone & Hlast).
  assert (En : n = S i).
  { destruct (Nat.lt_trichotomy (n - 1) i) as [Hlt | [Heq | Hgt]]; [| lia |].
    - destruct Hlast as [(Hh & _) | (-> & _)]; [|lia].
      rewrite Hbefore in Hh by exact Hlt. discriminate.
    - rewrite Hnone in Hhit by lia. discriminate. }
  subst n. exists final. split; [exact Hw|]. split; [exact Hc|].
  replace (S i - 1) with i in Hlast by lia.
  destruct Hlast as [(_ & Hans) | (_ & Hall & _)]; [exact Hans|].
  rewrite Hall in Hhit by lia. discriminate.
Qed.

Lemma truthy_amount_of (m : entry) : Json.truthy (amount_of m) = true.
Proof.
  unfold amount_of, or_else.
  destruct (Json.truthy (amount m)) eqn:Ea; [exact Ea|].
  destruct (Json.truthy (cryptoAmount m)) eqn:Ec; [exact Ec | reflexivity].
Qed.

Lemma not_both_names (v : Json.jsval) :
  Json.is_string v LN = true -> Json.is_string v ONCHAIN = false.
Proof. intros H. apply is_string_eq in H. subst v. reflexivity. Qed.

Lemma for_of_inv (P : responseData -> Prop)
      (f : responseData -> entry -> option responseData) (l : list entry) :
  forall (a r : responseData),
    P a ->
    (forall a x a', In x l -> P a -> f a x = Some a' -> P a') ->
    for_of f l a = Some r -> P r.
Proof.
  induction l as [|x l IH]; intros a r Ha Hf; cbn [for_of]; [intros [= <-]; exact Ha|].
  destruct (f a x) as [a'|] eqn:E; [|discriminate].
  apply IH.
  - apply (Hf a x a'); [left; reflexivity | exact Ha | exact E].
  - intros b y b' Hy. apply Hf. right. exact Hy.
Qed.

(** The same for a loop body that may throw. *)
Lemma for_of_selected {T} (sel : entry -> bool) (value : entry -> T)
      (get : responseData -> T)
      (f : responseData -> entry -> option responseData) :
  (forall a m a', sel m = true -> f a m = Some a' -> get a' = value m) ->
  (forall a m a', sel m = false -> f a m = Some a' -> get a' = get a) ->
  forall (pms : list entry) (a r : responseData),
    existsb sel pms = true ->
    for_of f pms a = Some r ->
    exists m, In m pms /\ sel m = true /\ get r = value m.
Proof.
  intros Hset Hkeep pms. induction pms as [|x l IH]; intros a r Hex; [discriminate|].
  cbn [for_of]. destruct (f a x) as [a'|] eqn:E; [|discriminate]. intros Hr.
  destruct (existsb sel l) eqn:El.
  - destruct (IH a' r eq_refl Hr) as (m & Hin & Hs & Hv).
    exists m. split; [right; exact Hin | auto].
  - cbn [existsb] in Hex. rewrite El, orb_false_r in Hex.
    exists x. split; [left; reflexivity|]. split; [exact Hex|].
    rewrite <- (Hset a x a' Hex E).
    apply (for_of_inv (fun r => get r = get a') f l a' r); [reflexivity | | exact Hr].
    intros b y b' Hy Hb Hfb. rewrite (Hkeep b y b'); [exact Hb | | exact Hfb].
    apply (existsb_false_in sel l y El Hy).
Qed.

(** The loop of part_001 runs to its end over entries that can be
    logged. *)
Lemma express_for_of_prints requested (pms : list entry) : forall r,
  Forall (fun m => prints m = true) pms ->
  exists r', for_of (Express.visit requested) pms r = Some r'.
Proof.
  induction pms as [|m l IH]; intros r Hpr; [eauto|].
  apply Forall_cons_1 in Hpr as [Hm Hl]. cbn [for_of].
  unfold prints in Hm. apply andb_true_iff in Hm as [Hm Ha].
  apply andb_true_iff in Hm as [Hp Hd].
  unfold Express.visit at 1. rewrite Hp, (interpolates_or_else _ _ Hd). cbn [andb].
  destruct (Json.is_string requested "lightning" && _ && _); [apply IH; exact Hl|].
  destruct (Json.is_string requested "onchain" && _ && _); [|apply IH; exact Hl].
  cbn [address btcAmount set_address]. rewrite Hd, Ha. cbn [andb]. apply IH; exact Hl.
Qed.

Lemma express_visit_cases requested (r r' : responseData) (m : entry) :
  Express.visit requested r m = Some r' ->
  r' = set_lightningInvoice (destination m) r
     /\ Json.is_string requested "lightning" = true
     /\ Json.is_string (paymentMethod m) LN = true
     /\ Json.truthy (destination m) = true
  \/ r' = set_address (destination m) (amount_of m) r
     /\ Json.is_string requested "onchain" = true
     /\ Json.is_string (paymentMethod m) ONCHAIN = true
     /\ Json.truthy (destination m) = true
  \/ r' = r
     /\ Json.is_string requested "lightning" && Json.is_string (paymentMethod m) LN
        && Json.truthy (destination m) = false
     /\ Json.is_string requested "onchain" && Json.is_string (paymentMethod m) ONCHAIN
        && Json.truthy (destination m) = false.
Proof.
  unfold Express.visit.
  destruct (Json.interpolates (paymentMethod m) && _); [|discriminate].
  destruct (Json.is_string requested "lightning" && Json.is_string (paymentMethod m) LN
            && Json.truthy (destination m)) eqn:E1.
  - intros [= <-]. left. apply andb_true_iff in E1 as [E1 Hd].
    apply andb_true_iff in E1 as [Hr Hn]. auto.
  - destruct (Json.is_string requested "onchain"
              && Json.is_string (paymentMethod m) ONCHAIN
              && Json.truthy (destination m)) eqn:E2.
    + destruct (Json.interpolates _ && Json.interpolates _); [|discriminate].
      intros [= <-]. right. left. apply andb_true_iff in E2 as [E2 Hd].
      apply andb_true_iff in E2 as [Hr Hn]. auto.
    + intros [= <-]. right. right. auto.
Qed.

Lemma express_visit_plain requested (pms : list entry) (r r' : responseData) :
  plain r -> for_of (Express.visit requested) pms r = Some r' -> plain r'.
Proof.
  intros H. apply for_of_inv; [exact H|]. clear. intros a m a' _ Ha Hv.
  destruct (express_visit_cases _ _ _ _ Hv) as [(-> & _) | [(-> & _) | (-> & _)]];
    exact Ha.
Qed.

Lemma api_shape_lightning (inv : invoice) (pms : list entry) :
  has_destination LN pms = true ->
  carries LN pms (Api.shape (Some (Json.Str "lightning")) inv (Some pms))
  /\ plain (Api.shape (Some (Json.Str "lightning")) inv (Some pms)).
Proof.
  intros Hhas. unfold Api.shape.
  assert (Hun : unavailable (Some (Json.Str "lightning")) (Some pms) = false)
    by (destruct pms; reflexivity).
  rewrite Hun. cbn [entries].
  destruct (fold_left_selected
              (fun m => Json.is_string (paymentMethod m) LN && Json.truthy (destination m))
              destination lightningInvoice
              (Api.visit (Some (Json.Str "lightning")) false)) with (pms := pms) (a := start inv)
    as (m & Hin & Hsel & Hget).
  - intros a m Hm. unfold Api.visit. rewrite Hm. reflexivity.
  - intros a m Hm. unfold Api.visit. rewrite Hm.
    destruct (Json.is_string (paymentMethod m) ONCHAIN && Json.truthy (destination m));
      reflexivity.
  - exact Hhas.
  - apply andb_true_iff in Hsel as [Hname Hdest]. apply is_string_eq in Hname.
    rewrite Hget, Hdest. cbn [negb andb]. split.
    + exists m. split; [exact Hin|]. split; [exact Hname|]. split; [exact Hdest|].
      split; [intros _; exact Hget|]. intros H. discriminate H.
    + apply api_visit_plain, plain_start.
Qed.

Lemma express_shape_lightning (inv : invoice) (pms : list entry) :
  has_destination LN pms = true ->
  Forall (fun m => prints m = true) pms ->
  exists r,
    Express.shape (Some (Json.Str "lightning")) inv (Some pms) = Some r
    /\ carries LN pms r /\ plain r.
Proof.
  intros Hhas Hpr. unfold Express.shape.
  assert (Hun : unavailable (Some (Json.Str "lightning")) (Some pms) = false)
    by (destruct pms; reflexivity).
  rewrite Hun. cbn [entries].
  destruct (express_for_of_prints (Some (Json.Str "lightning")) pms (start inv) Hpr)
    as (r & Hr).
  rewrite Hr. eexists. split; [reflexivity|].
  destruct (for_of_selected
              (fun m => Json.is_string (paymentMethod m) LN && Json.truthy (destination m))
              destination lightningInvoice
              (Express.visit (Some (Json.Str "lightning")))) with (pms := pms)
              (a := start inv) (r := r)
    as (m & Hin & Hsel & Hget).
  - intros a m a' Hm Hv.
    destruct (express_visit_cases _ _ _ _ Hv) as [(-> & _) | [(-> & H & _) | (-> & H & _)]];
      [reflexivity | discriminate H |].
    replace (Json.is_string (Some (Json.Str "lightning")) "lightning") with true in H
      by reflexivity.
    cbn [andb] in H. congruence.
  - intros a m a' Hm Hv.
    destruct (express_visit_cases _ _ _ _ Hv)
      as [(-> & _ & H1 & H2) | [(-> & H & _) | (-> & _)]];
      [rewrite H1, H2 in Hm; discriminate Hm | discriminate H | reflexivity].
  - exact Hhas.
  - exact Hr.
  - apply andb_true_iff in Hsel as [Hname Hdest]. apply is_string_eq in Hname.
    unfold Express.finish. rewrite Hget, Hdest. cbn [negb andb]. split.
    + exists m. split; [exact Hin|]. split; [exact Hname|]. split; [exact Hdest|].
      split; [intros _; exact Hget|]. intros H. discriminate H.
    + eapply express_visit_plain; [apply plain_start | exact Hr].
Qed.

Lemma onchain_available (pms : list entry) :
  has_destination ONCHAIN pms = true ->
  unavailable (Some (Json.Str "onchain")) (Some pms) = false.
Proof.
  intros Hhas. apply has_destination_iff in Hhas as (m & Hin & Hname & _).
  unfold unavailable. destruct pms as [|m0 l]; [destruct Hin|].
  assert (He : existsb (fun m => Json.is_string (paymentMethod m) ONCHAIN) (m0 :: l) = true).
  { apply existsb_exists. exists m. split; [exact Hin|]. rewrite Hname. reflexivity. }
  rewrite He. cbn [negb]. rewrite andb_false_r. reflexivity.
Qed.

Lemma api_shape_onchain (inv : invoice) (pms : list entry) :
  has_destination ONCHAIN pms = true ->
  carries ONCHAIN pms (Api.shape (Some (Json.Str "onchain")) inv (Some pms))
  /\ plain (Api.shape (Some (Json.Str "onchain")) inv (Some pms)).
Proof.
  intros Hhas. unfold Api.shape. rewrite (onchain_available pms Hhas). cbn [entries].
  destruct (fold_left_selected
              (fun m => Json.is_string (paymentMethod m) ONCHAIN && Json.truthy (destination m))
              (fun m => (destination m, amount_of m))
              (fun r => (address r, btcAmount r))
              (Api.visit (Some (Json.Str "onchain")) false)) with (pms := pms) (a := start inv)
    as (m & Hin & Hsel & Hget).
  - intros a m Hm. unfold Api.visit. rewrite Hm.
    apply andb_true_iff in Hm as [Hname _].
    apply is_string_eq in Hname. rewrite Hname.
    replace (Json.is_string (Some (Json.Str ONCHAIN)) LN) with false by reflexivity.
    reflexivity.
  - intros a m Hm. unfold Api.visit. rewrite Hm.
    destruct (Json.is_string (paymentMethod m) LN && Json.truthy (destination m));
      reflexivity.
  - exact Hhas.
  - apply andb_true_iff in Hsel as [Hname Hdest]. apply is_string_eq in Hname.
    injection Hget as Haddr Hamt.
    rewrite Haddr, Hdest. rewrite andb_false_r. split.
    + exists m. split; [exact Hin|]. split; [exact Hname|]. split; [exact Hdest|].
      split; [intros H; discriminate H|]. intros _.
      split; [exact Haddr|]. rewrite Hamt. apply truthy_amount_of.
    + apply api_visit_plain, plain_start.
Qed.

Lemma express_shape_onchain (inv : invoice) (pms : list entry) :
  has_destination ONCHAIN pms = true ->
  Forall (fun m => prints m = true) pms ->
  exists r,
    Express.shape (Some (Json.Str "onchain")) inv (Some pms) = Some r
    /\ carries ONCHAIN pms r /\ plain r.
Proof.
  intros Hhas Hpr. unfold Express.shape. rewrite (onchain_available pms Hhas).
  cbn [entries].
  destruct (express_for_of_prints (Some (Json.Str "onchain")) pms (start inv) Hpr)
    as (r & Hr).
  rewrite Hr. eexists. split; [reflexivity|].
  destruct (for_of_selected
              (fun m => Json.is_string (paymentMethod m) ONCHAIN && Json.truthy (destination m))
              (fun m => (destination m, amount_of m))
              (fun r => (address r, btcAmount r))
              (Express.visit (Some (Json.Str "onchain")))) with (pms := pms)
              (a := start inv) (r := r)
    as (m & Hin & Hsel & Hget).
  - intros a m a' Hm Hv.
    destruct (express_visit_cases _ _ _ _ Hv) as [(-> & H & _) | [(-> & _) | (-> & _ & H)]];
      [discriminate H | reflexivity |].
    replace (Json.is_string (Some (Json.Str "onchain")) "onchain") with true in H
      by reflexivity.
    cbn [andb] in H. congruence.
  - intros a m a' Hm Hv.
    destruct (express_visit_cases _ _ _ _ Hv)
      as [(-> & H & _) | [(-> & _ & H1 & H2) | (-> & _)]];
      [discriminate H | rewrite H1, H2 in Hm; discriminate Hm | reflexivity].
  - exact Hhas.
  - exact Hr.
  - apply andb_true_iff in Hsel as [Hname Hdest]. apply is_string_eq in Hname.
    injection Hget as Haddr Hamt.
    unfold Express.finish. rewrite Haddr, Hdest. rewrite andb_false_r. split.
    + exists m. split; [exact Hin|]. split; [exact Hname|]. split; [exact Hdest|].
      split; [intros H; discriminate H|]. intros _.
      split; [exact Haddr|]. rewrite Hamt. apply truthy_amount_of.
    + eapply express_visit_plain; [apply plain_start | exact Hr].
Qed.

End FoundDestination.

Section FoundDestinationProperties.
Import Invoice Props Notions.
Local Open Scope nat_scope.

Lemma api_shape_carries (requested : Json.jsval) (name : string) (inv : invoice)
      (pms : list entry) :
  wanted requested = Some name ->
  has_destination name pms = true ->
  carries name pms (Api.shape requested inv (Some pms))
  /\ plain (Api.shape requested inv (Some pms)).
Proof.
  intros Hw Hhas. destruct (wanted_cases _ _ Hw) as [[-> ->] | [-> ->]].
  - apply api_shape_lightning, Hhas.
  - apply api_shape_onchain, Hhas.
Qed.

Lemma express_shape_carries (requested : Json.jsval) (name : string) (inv : invoice)
      (pms : list entry) :
  wanted requested = Some name ->
  has_destination name pms = true ->
  Forall (fun m => prints m = true) pms ->
  exists r,
    Express.shape requested inv (Some pms) = Some r
    /\ carries name pms r /\ plain r.
Proof.
  intros Hw Hhas Hpr. destruct (wanted_cases _ _ Hw) as [[-> ->] | [-> ->]].
  - apply express_shape_lightning; assumption.
  - apply express_shape_onchain; assumption.
Qed.

(** X17.  When the invoice id has a string and poll number [i] is the
    first whose answer holds a destination of the requested method,
    create-invoice.js answers 200 after exactly [i + 1] polls; the result
    carries the destination of an entry of that answer ([lightningInvoice]
    for a lightning request, [address] with a [btcAmount] for an on-chain
    one) and has neither [useCheckoutLink] nor [onchainNotAvailable] nor a
    message.  So does part_001 when the entries of that answer can be
    logged. *)
Theorem found_destination_is_returned (b : body) (now : Z) (inv : invoice)
        (up : upstream) (i : nat) (name : string) :
  well_formed b = true ->
  Json.interpolates (id inv) = true ->
  wanted (req_paymentMethod b) = Some name ->
  i < maxRetries (req_paymentMethod b) ->
  (forall j, j < i -> hit (req_paymentMethod b) (up j) = false) ->
  hit (req_paymentMethod b) (up i) = true ->
  delivers name up i (handler "POST" b now (Some inv) up)
  /\ ((forall pms, up i = Answer (Some pms) -> Forall (fun m => prints m = true) pms) ->
      delivers name up i (create_invoice b now (Some inv) up)).
Proof.
  intros Hwf Hid Hw Hi Hbefore Hhit.
  destruct (poll_loop_first_hit _ up i Hi Hbefore Hhit) as (final & Hloop & Hcalls & Hans).
  destruct (proj1 (hit_iff _ _) Hhit) as (name' & pms & m & Hw' & Hup & Hin & Hname & Hdest).
  rewrite Hw in Hw'. injection Hw' as <-.
  assert (Hfinal : paymentMethods final = Listed (Some pms)).
  { rewrite Hup in Hans. unfold Answer in Hans. congruence. }
  assert (Hfm : final_methods inv (req_paymentMethod b) up = Listed (Some pms)).
  { unfold final_methods. rewrite (attempts_sent _ _ _ Hid), Hloop. exact Hfinal. }
  assert (Hhas : has_destination name pms = true)
    by (apply has_destination_iff; eauto).
  split.
  - destruct (orchestrate_run Api.checkout_methods (fun _ => true)
                (fun requested inv pms => Some (Api.shape requested inv pms))
                b now inv up Hwf eq_refl)
      as (d & s & Hs & Hrun).
    rewrite (attempts_sent _ _ _ Hid), Hloop in Hs. injection Hs as <-.
    destruct (api_shape_carries _ name inv pms Hw Hhas) as [Hc Hp].
    unfold delivers. rewrite handler_post, Hrun, Hfm, Hcalls.
    eexists _, d, pms. eauto.
  - intros Hpr.
    destruct (orchestrate_run Express.checkout_methods
                (fun inv => Json.interpolates (id inv)) Express.shape b now inv up Hwf Hid)
      as (d & s & Hs & Hrun).
    rewrite (attempts_sent _ _ _ Hid), Hloop in Hs. injection Hs as <-.
    destruct (express_shape_carries _ name inv pms Hw Hhas (Hpr pms Hup))
      as (r & Hr & Hc & Hp).
    unfold delivers, create_invoice. rewrite Hrun, Hfm, Hr, Hcalls.
    eexists _, d, pms. eauto.
Qed.

Lemma found_destination_is_returned_witness :
  let up := fun n => match n with
                     | 0 | 1 => Answer (Some [])
                     | _ => Answer (Some [Samples.onchain_entry])
                     end in
  delivers ONCHAIN up 2
    (handler "POST" (Samples.request_for "onchain") 1700000000000
             (Some Samples.invoice_1) up)
  /\ delivers ONCHAIN up 2
       (create_invoice (Samples.request_for "onchain") 1700000000000
                       (Some Samples.invoice_1) up).
Proof.
  intros up.
  destruct (found_destination_is_returned (Samples.request_for "onchain") 1700000000000%Z
              Samples.invoice_1 up 2 ONCHAIN) as [Ha He].
  - reflexivity.
  - reflexivity.
  - reflexivity.
  - vm_compute. lia.
  - intros j Hj. destruct j as [|[|j]]; [reflexivity | reflexivity | lia].
  - reflexivity.
  - split; [exact Ha|]. apply He.
    intros pms H. inversion H. repeat constructor.
Defined.

End FoundDestinationProperties.

Section ResultInvariants.
Import Invoice Props Notions.
Local Open Scope nat_scope.

Lemma shaped_start (inv : invoice) : shaped inv (start inv).
Proof. unfold shaped, plain. cbn. repeat split; congruence. Qed.

Lemma shaped_set_lightningInvoice inv r v :
  Json.truthy v = true -> shaped inv r -> shaped inv (set_lightningInvoice v r).
Proof.
  intros Hv (H1 & H2 & H3 & H4 & H5 & H6 & H7).
  unfold shaped, plain in *. cbn. repeat split; try tauto.
Qed.

Lemma shaped_set_fallback inv r :
  shaped inv r -> shaped inv (set_fallbackToLightning r).
Proof. intros H. exact H. Qed.

Lemma shaped_set_address inv r a amt :
  Json.truthy a = true -> Json.truthy amt = true ->
  shaped inv r -> shaped inv (set_address a amt r).
Proof.
  intros Ha Hamt (H1 & H2 & H3 & H4 & H5 & H6 & H7).
  unfold shaped, plain in *. cbn. repeat split; try tauto.
Qed.

Lemma api_fold_shaped requested flag inv (pms : list entry) :
  shaped inv (fold_left (Api.visit requested flag) pms (start inv)).
Proof.
  apply fold_left_inv; [apply shaped_start|]. intros a m _ Ha. unfold Api.visit.
  destruct (Json.is_string (paymentMethod m) LN && Json.truthy (destination m)) eqn:E1.
  - apply andb_true_iff in E1 as [_ Hd].
    destruct (Json.is_string requested "lightning");
      [apply shaped_set_lightningInvoice; assumption|].
    destruct (Json.is_string requested "onchain" && flag); [|exact Ha].
    apply shaped_set_fallback, shaped_set_lightningInvoice; assumption.
  - destruct (Json.is_string (paymentMethod m) ONCHAIN && Json.truthy (destination m)) eqn:E2;
      [|exact Ha].
    apply andb_true_iff in E2 as [_ Hd].
    apply shaped_set_address; [exact Hd | apply truthy_amount_of | exact Ha].
Qed.

Lemma express_fold_shaped requested inv (pms : list entry) (r : responseData) :
  for_of (Express.visit requested) pms (start inv) = Some r -> shaped inv r.
Proof.
  apply for_of_inv; [apply shaped_start|]. intros a m a' _ Ha Hv.
  destruct (express_visit_cases _ _ _ _ Hv)
    as [(-> & _ & _ & Hd) | [(-> & _ & _ & Hd) | (-> & _)]].
  - apply shaped_set_lightningInvoice; assumption.
  - apply shaped_set_address; [exact Hd | apply truthy_amount_of | exact Ha].
  - exact Ha.
Qed.

(** The last step of both [shape] functions. *)
Lemma consistent_finish (inv : invoice) (flag : bool) (msg1 msg2 : string)
      (r : responseData) :
  shaped inv r ->
  consistent inv
    (if flag then set_useCheckoutLink true msg1 r
     else if negb (Json.truthy (lightningInvoice r)) && negb (Json.truthy (address r))
          then set_useCheckoutLink false msg2 r
          else r).
Proof.
  intros (H1 & H2 & H3 & H4 & (P1 & P2 & P3) & H6 & H7).
  destruct flag.
  - unfold consistent. cbn. repeat split; auto; try tauto; try discriminate.
  - destruct (Json.truthy (lightningInvoice r)) eqn:T1;
      destruct (Json.truthy (address r)) eqn:T2; cbn [negb andb];
      unfold consistent; cbn; rewrite ?P1, ?P2, ?P3, ?T1, ?T2;
      repeat split; auto; try tauto; try discriminate; try congruence;
      try (intros [H | [Ha Hb]]; discriminate).
Qed.

Lemma api_shape_consistent requested inv pms :
  consistent inv (Api.shape requested inv pms).
Proof. unfold Api.shape. apply consistent_finish, api_fold_shaped. Qed.

Lemma express_shape_consistent requested inv pms r :
  Express.shape requested inv pms = Some r -> consistent inv r.
Proof.
  unfold Express.shape, Express.finish.
  destruct (for_of (Express.visit requested) (entries pms) (start inv)) as [r0|] eqn:E;
    [|discriminate].
  intros [= <-]. apply consistent_finish. exact (express_fold_shaped _ _ _ _ E).
Qed.

Lemma every_result_orchestrate methods announce shape (P : responseData -> Prop)
      (b : body) (now : Z) (created : option invoice) (up : upstream) :
  (forall inv pms r, created = Some inv ->
                     shape (req_paymentMethod b) inv pms = Some r -> P r) ->
  every_result P (orchestrate methods announce shape b now created up).
Proof.
  intros HP. unfold orchestrate.
  destruct (logs b); [|exact Logic.I].
  destruct (make_invoiceData methods b now) as [d|]; [|exact Logic.I].
  destruct created as [inv|]; [|exact Logic.I].
  destruct (announce inv); [|exact Logic.I].
  destruct (attempts_run inv (req_paymentMethod b) up) as (s & Hs). rewrite Hs.
  destruct (paymentMethods s) as [pms|]; [|exact Logic.I].
  destruct (shape (req_paymentMethod b) inv pms) as [r|] eqn:E; [|exact Logic.I].
  cbn. split; [reflexivity | exact (HP inv pms r eq_refl E)].
Qed.

(** X18.  Every result of create-invoice.js and of part_001 is answered
    with status 200, repeats the id, checkout link, expiry and status of
    the invoice, and is consistent: it has a message exactly when it has
    [useCheckoutLink]; [onchainNotAvailable] implies [useCheckoutLink];
    [useCheckoutLink] is set exactly when on-chain is unavailable or the
    result has neither a Lightning invoice nor an address; and an [address]
    always comes with a [btcAmount]. *)
Theorem results_are_consistent (http_method : string) (b : body) (now : Z)
        (inv : invoice) (up : upstream) :
  every_result (consistent inv) (handler http_method b now (Some inv) up)
  /\ every_result (consistent inv) (create_invoice b now (Some inv) up).
Proof.
  split.
  - unfold handler.
    destruct (String.eqb http_method "OPTIONS"); [exact Logic.I|].
    destruct (negb (String.eqb http_method "POST")); [exact Logic.I|].
    apply every_result_orchestrate. intros inv' pms r [= <-] [= <-].
    apply api_shape_consistent.
  - apply every_result_orchestrate. intros inv' pms r [= <-] Hr.
    exact (express_shape_consistent _ _ _ _ Hr).
Qed.

Lemma express_fold_requested_only requested inv (pms : list entry) (r : responseData) :
  for_of (Express.visit requested) pms (start inv) = Some r ->
  requested_only requested r.
Proof.
  apply for_of_inv; [repeat split|]. intros a m a' _ (Hf & Hl & Ha) Hv.
  unfold requested_only.
  destruct (express_visit_cases _ _ _ _ Hv)
    as [(-> & Hr & _) | [(-> & Hr & _) | (-> & _)]]; cbn.
  - repeat split; auto. rewrite Hr. discriminate.
  - repeat split; auto. rewrite Hr. discriminate.
  - auto.
Qed.

(** X19.  part_001 reports only the requested method: its result never has
    [fallbackToLightning], has no [lightningInvoice] unless lightning was
    requested and no [address] unless on-chain was requested; so it never
    has both, and for a request that names neither method it has neither. *)
Theorem express_reports_requested_method_only (b : body) (now : Z)
        (created : option invoice) (up : upstream) :
  every_result
    (fun r => requested_only (req_paymentMethod b) r
              /\ (lightningInvoice r = None \/ address r = None))
    (create_invoice b now created up).
Proof.
  apply every_result_orchestrate. intros inv pms r _ Hr.
  assert (H : requested_only (req_paymentMethod b) r).
  { unfold Express.shape, Express.finish in Hr.
    destruct (for_of _ (entries pms) (start inv)) as [r0|] eqn:E; [|discriminate].
    pose proof (express_fold_requested_only _ _ _ _ E) as H.
    injection Hr as <-.
    destruct (unavailable _ pms); [exact H|].
    destruct (negb _ && negb _); exact H. }
  split; [exact H|].
  destruct H as (_ & Hl & Ha).
  destruct (Json.is_string (req_paymentMethod b) "lightning") eqn:El; [|auto].
  right. apply Ha. apply is_string_eq in El. rewrite El. reflexivity.
Qed.

End ResultInvariants.

Section FallbackPolicy.
Import Invoice Props Notions.
Local Open Scope nat_scope.

(** X20.  The two orchestrators differ when on-chain was requested and the
    final list holds Lightning entries only, one of them with a
    destination: create-invoice.js offers that Lightning invoice in
    [lightningInvoice] and sets [fallbackToLightning]; part_001, when the
    destinations can be logged, offers nothing but the checkout link.  Both
    flag [onchainNotAvailable]. *)
Theorem lightning_offered_instead
        (b : body) (now : Z) (inv : invoice) (up : upstream) (pms : list entry) :
  well_formed b = true ->
  req_paymentMethod b = Some (Json.Str "onchain") ->
  final_methods inv (req_paymentMethod b) up = Listed (Some pms) ->
  only_lightning pms ->
  has_destination LN pms = true ->
  (exists r cs m,
      handler "POST" b now (Some inv) up = Some (Success 200 r, cs)
      /\ In m pms /\ Json.truthy (destination m) = true
      /\ lightningInvoice r = destination m
      /\ fallbackToLightning r = true /\ onchainNotAvailable r = true)
  /\ (Forall (fun m => Json.interpolates (destination m) = true) pms ->
      exists r cs,
        create_invoice b now (Some inv) up = Some (Success 200 r, cs)
        /\ lightningInvoice r = None
        /\ fallbackToLightning r = false /\ onchainNotAvailable r = true).
Proof.
  intros Hwf Hreq Hfinal Hall Hhas.
  assert (Hne : pms <> []) by (intros ->; discriminate Hhas).
  pose proof (only_lightning_unavailable pms Hne Hall) as Hun.
  split.
  - destruct (orchestrate_run Api.checkout_methods (fun _ => true)
                (fun requested inv pms => Some (Api.shape requested inv pms))
                b now inv up Hwf eq_refl)
      as (d & s & _ & Hrun).
    rewrite handler_post, Hrun, Hfinal.
    unfold Api.shape. rewrite Hreq, Hun. cbn [entries].
    destruct (fold_left_selected
                (fun m => Json.is_string (paymentMethod m) LN
                          && Json.truthy (destination m))
                (fun m => (destination m, true))
                (fun r => (lightningInvoice r, fallbackToLightning r))
                (Api.visit (Some (Json.Str "onchain")) true))
      with (pms := pms) (a := start inv) as (m & Hin & Hsel & Hget).
    + intros a m Hm. unfold Api.visit. rewrite Hm. reflexivity.
    + intros a m Hm. unfold Api.visit. rewrite Hm.
      destruct (Json.is_string (paymentMethod m) ONCHAIN && Json.truthy (destination m));
        reflexivity.
    + exact Hhas.
    + apply andb_true_iff in Hsel as [_ Hdest]. injection Hget as Hl Hf.
      eexists _, _, m. split; [reflexivity|].
      cbn [lightningInvoice fallbackToLightning onchainNotAvailable set_useCheckoutLink].
      auto.
  - intros Hpr.
    destruct (express_onchain_unavailable_flagged b now inv up pms Hwf Hreq Hfinal Hne
                Hall Hpr) as (r & cs & Hrun & Hflag & _ & Hl & Hf).
    exists r, cs. auto.
Qed.

Lemma lightning_offered_instead_witness :
  let up := fun _ : nat => Answer (Some [Samples.lightning_entry]) in
  (exists r cs m,
      handler "POST" (Samples.request_for "onchain") 1700000000000
              (Some Samples.invoice_1) up = Some (Success 200 r, cs)
      /\ In m [Samples.lightning_entry] /\ Json.truthy (destination m) = true
      /\ lightningInvoice r = destination m
      /\ fallbackToLightning r = true /\ onchainNotAvailable r = true)
  /\ (exists r cs,
         create_invoice (Samples.request_for "onchain") 1700000000000
                        (Some Samples.invoice_1) up = Some (Success 200 r, cs)
         /\ lightningInvoice r = None
         /\ fallbackToLightning r = false /\ onchainNotAvailable r = true).
Proof.
  intros up.
  destruct (lightning_offered_instead (Samples.request_for "onchain") 1700000000000%Z
              Samples.invoice_1 up [Samples.lightning_entry]) as [Ha He].
  - reflexivity.
  - reflexivity.
  - vm_compute. reflexivity.
  - repeat constructor.
  - reflexivity.
  - split; [exact Ha|]. apply He. repeat constructor.
Defined.

End FallbackPolicy.

(** ** The handlers without state *)

Section PlainHandlers.
Import Invoice Props Notions Plain.

Lemma make_invoiceData_clean methods (b : body) (now : Z) (d : invoiceData) :
  make_invoiceData methods b now = Some d ->
  Forall (fun u => Sanitize.allowed u = true) (description d)
  /\ order_id d = ("order_" +:+ pretty now)%string
  /\ expirationMinutes d = 15.
Proof.
  intros H. split; [eapply transmitted_description_allowed; exact H|].
  unfold make_invoiceData in H.
  destruct (req_amount b) as [a|]; [|discriminate].
  destruct (Json.has_toString (Some a)); [|discriminate].
  destruct (metadata_description (req_description b)); [|discriminate].
  injection H as <-. split; reflexivity.
Qed.

(** The loop makes no create call. *)
Lemma attempts_clean (now : Z) (inv : invoice) (requested : Json.jsval)
      (up : upstream) (s : loop_state) :
  attempts inv requested up = Some s -> sends_clean_metadata now (calls s).
Proof.
  intros Hs.
  assert (Hsp : forall n, sends_clean_metadata now (spaced_polls n)).
  { intros [|n]; [constructor|].
    unfold spaced_polls. constructor; [exact Logic.I|].
    induction n as [|n IH]; [constructor|].
    cbn [repeat concat app]. repeat (constructor; [exact Logic.I|]). exact IH. }
  destruct (Json.interpolates (id inv)) eqn:E.
  - rewrite (attempts_sent _ _ _ E) in Hs.
    destruct (poll_loop_run requested up) as (n & final & Hw & Hc & _).
    rewrite Hw in Hs. injection Hs as <-. rewrite Hc. apply Hsp.
  - destruct (attempts_unsent inv requested up E) as (final & Hw & _ & Hc).
    rewrite Hw in Hs. injection Hs as <-.
    unfold unsent. cbn [calls]. rewrite Hc.
    apply List.Forall_forall. intros c Hin. apply List.filter_In in Hin as [Hin _].
    exact (proj1 (List.Forall_forall _ _) (Hsp _) c Hin).
Qed.

Lemma orchestrate_clean methods announce shape (b : body) (now : Z)
      (created : option invoice) (up : upstream) :
  match orchestrate methods announce shape b now created up with
  | Some (_, cs) => sends_clean_metadata now cs
  | None => False
  end.
Proof.
  unfold orchestrate.
  destruct (logs b); [|constructor].
  destruct (make_invoiceData methods b now) as [d|] eqn:Hd; [|constructor].
  pose proof (make_invoiceData_clean methods b now d Hd) as Hclean.
  destruct created as [inv|]; [|constructor; [exact Hclean | constructor]].
  destruct (announce inv); [|constructor; [exact Hclean | constructor]].
  destruct (attempts_run inv (req_paymentMethod b) up) as (s & Hs). rewrite Hs.
  pose proof (attempts_clean now _ _ _ _ Hs) as Hcalls.
  destruct (paymentMethods s) as [pms|];
    [destruct (shape (req_paymentMethod b) inv pms)|];
    (constructor; [exact Hclean | exact Hcalls]).
Qed.

(** X21.  Whatever create-invoice.js, part_001 and part_003 send upstream
    as the metadata description consists of code units of
    [[A-Za-z0-9_-]] only; the order id sent is [order_<now>] and the expiry
    15 minutes.  No handler makes a create call with an unsanitized
    description. *)
Theorem metadata_sent_is_sanitized (http_method : string) (b : body) (now : Z)
        (created : option invoice) (up : upstream) (polled : poll_answer) :
  match handler http_method b now created up with
  | Some (_, cs) => sends_clean_metadata now cs
  | None => False
  end
  /\ match create_invoice b now created up with
     | Some (_, cs) => sends_clean_metadata now cs
     | None => False
     end
  /\ sends_clean_metadata now (snd (handler3 http_method b now created polled)).
Proof.
  split; [|split].
  - unfold handler.
    destruct (String.eqb http_method "OPTIONS"); [constructor|].
    destruct (negb (String.eqb http_method "POST")); [constructor|].
    apply orchestrate_clean.
  - apply orchestrate_clean.
  - unfold handler3.
    destruct (negb (String.eqb http_method "POST")); [constructor|].
    destruct (make_invoiceData methods3 b now) as [d|] eqn:Hd; [|constructor].
    pose proof (make_invoiceData_clean methods3 b now d Hd) as Hclean.
    destruct created as [inv|]; [|constructor; [exact Hclean | constructor]].
    destruct (Json.interpolates (id inv)); [|constructor; [exact Hclean | constructor]].
    destruct polled; (constructor; [exact Hclean|]); repeat constructor.
Qed.

(** [sendable] is the condition under which the object literal is
    built. *)
Lemma sendable_data methods (b : body) (now : Z) :
  sendable b = true <-> exists d, make_invoiceData methods b now = Some d.
Proof.
  unfold sendable, make_invoiceData, metadata_description.
  destruct (req_amount b) as [a|];
    [|split; [discriminate | intros [d H]; discriminate H]].
  destruct (Json.has_toString (Some a)); cbn [andb];
    [|split; [discriminate | intros [d H]; discriminate H]].
  destruct (req_description b); split; eauto; try discriminate.
  intros [d H]. discriminate H.
Qed.

(** X22.  part_003 makes at most two upstream calls and passes the invoice
    and the payment methods on exactly when the method is POST, the object
    literal can be built from the body ([amount.toString()] completes, the
    description is a string or falsy), the create call answers an invoice
    whose id has a string and the poll does not reject; a rejected poll
    fails the whole request. *)
Theorem single_poll_passes_iff (http_method : string) (b : body) (now : Z)
        (created : option invoice) (polled : poll_answer) :
  (length (snd (handler3 http_method b now created polled)) <= 2)%nat
  /\ ((exists inv pms,
          fst (handler3 http_method b now created polled) = Passed3 inv pms)
      <-> http_method = "POST"%string /\ sendable b = true
          /\ (exists inv, created = Some inv /\ Json.interpolates (id inv) = true)
          /\ polled <> Rejected).
Proof.
  pose proof (sendable_data methods3 b now) as Hsend.
  unfold handler3.
  destruct (String.eqb http_method "POST") eqn:Em; cbn [negb].
  - apply String.eqb_eq in Em. subst http_method.
    destruct (make_invoiceData methods3 b now) as [d|].
    + rewrite (proj2 Hsend) by eauto.
      destruct created as [inv|].
      * destruct (Json.interpolates (id inv)) eqn:Ei.
        -- destruct polled as [|pms]; cbn; (split; [lia|]).
           ++ split; [intros (i & p & H); discriminate H
                     | intros (_ & _ & _ & H); congruence].
           ++ split; [intros _; repeat split; eauto; discriminate | eauto].
        -- cbn. split; [lia|].
           split; [intros (i & p & H); discriminate H
                  | intros (_ & _ & (i & [= <-] & H) & _); congruence].
      * cbn. split; [lia|].
        split; [intros (i & p & H); discriminate H
               | intros (_ & _ & (i & H & _) & _); discriminate H].
    + cbn. split; [lia|].
      split; [intros (i & p & H); discriminate H|].
      intros (_ & H & _). destruct (proj1 Hsend H) as (d & Hd). discriminate Hd.
  - apply String.eqb_neq in Em. cbn. split; [lia|].
    split; [intros (i & p & H); discriminate H | intros (H & _); congruence].
Qed.

(** An amount that hides [toString] is refused before the create call. *)
Example part_003_unprintable_amount :
  handler3 "POST"
    (Body (Some (Json.Obj [("toString", Json.Num 1)])) (Some (Json.Str "USD")) Falsy
          (Some (Json.Str "lightning")))
    1700000000000 (Some Samples.invoice_1) (Answer (Some [Samples.lightning_entry]))
  = (Failed3, []).
Proof. reflexivity. Qed.

(** X23.  part_000 answers with the invoice's Lightning invoice whenever
    the invoice has one, unless on-chain was requested and the invoice has
    an address; and with the invoice's address whenever it has one, unless
    lightning was requested and the invoice has a Lightning invoice.  So a
    request is answered with the other method's details when its own are
    missing. *)
Theorem part_000_offers_what_exists (requested : Json.jsval) (inv : invoice0) :
  let a := shape0 requested inv in
  a_lightningInvoice a =
    (if Json.truthy (lightningInvoice0 inv)
        && negb (Json.is_string requested "onchain" && Json.truthy (address0 inv))
     then lightningInvoice0 inv else None)
  /\ a_address a =
     (if Json.truthy (address0 inv)
         && negb (Json.is_string requested "lightning"
                  && Json.truthy (lightningInvoice0 inv))
      then address0 inv else None)
  /\ a_btcAmount a = match a_address a with
                     | Some _ => btcAmount0 inv
                     | None => None
                     end
  /\ a_invoiceId a = id0 inv /\ a_checkoutURL a = checkoutURL0 inv
  /\ a_expiresAt a = expiresAt0 inv /\ a_status a = status0 inv.
Proof.
  cbn zeta. unfold shape0.
  destruct (Json.is_string requested "lightning") eqn:El.
  - assert (Eo : Json.is_string requested "onchain" = false)
      by (apply is_string_eq in El; subst; reflexivity).
    rewrite Eo. cbn [andb negb].
    destruct (Json.truthy (lightningInvoice0 inv)) eqn:Tl;
      destruct (Json.truthy (address0 inv)) eqn:Ta; cbn;
      rewrite ?Tl, ?Ta; repeat split;
      destruct (address0 inv); try reflexivity; discriminate Ta.
  - cbn [andb negb].
    destruct (Json.is_string requested "onchain") eqn:Eo;
      destruct (Json.truthy (lightningInvoice0 inv)) eqn:Tl;
      destruct (Json.truthy (address0 inv)) eqn:Ta; cbn;
      rewrite ?Tl, ?Ta; repeat split;
      destruct (address0 inv); try reflexivity; discriminate Ta.
Qed.

(** X24.  The webhook handlers without verification look at no signature.
    Of an event that is not [null] they log the type, invoice id and
    status, and then print one value in a template literal: the invoice id
    when the type is 'invoice.paid', 'invoice.expired' or
    'invoice.processing', the type itself otherwise.  When that value has
    a string the event is acknowledged with 200 [{received: true}] after a
    second log line, which is the "unknown event" line exactly for the
    other types; when it has none (an object with an own toString
    property), the handler throws and answers 500 after the first line. *)
Theorem unverified_webhook_acknowledges (event : Json.value) :
  event <> Json.Null ->
  exists type invoiceId status,
    Json.prop (Some event) "type" = Some type
    /\ Json.prop (Some event) "invoiceId" = Some invoiceId
    /\ Json.prop (Some event) "status" = Some status
    /\ let known :=
         Json.is_string type "invoice.paid" || Json.is_string type "invoice.expired"
         || Json.is_string type "invoice.processing" in
       let printed := if known then invoiceId else type in
       (Json.interpolates printed = true ->
        exists line,
          webhook "POST" (Some event)
          = (Json 200 received, [Received type invoiceId status; line])
          /\ express_webhook (Some event)
             = (Json 200 received, [Received type invoiceId status; line])
          /\ (line = UnknownEvent type <->
              type <> Some (Json.Str "invoice.paid")
              /\ type <> Some (Json.Str "invoice.expired")
              /\ type <> Some (Json.Str "invoice.processing")))
       /\ (Json.interpolates printed = false ->
           webhook "POST" (Some event)
           = (Problem 500 None, [Received type invoiceId status])
           /\ express_webhook (Some event)
              = (Problem 500 (Some "Webhook processing failed"),
                 [Received type invoiceId status])).
Proof.
  intros Hne.
  assert (H : exists t i s,
             Json.prop (Some event) "type" = Some t
             /\ Json.prop (Some event) "invoiceId" = Some i
             /\ Json.prop (Some event) "status" = Some s).
  { destruct event; try congruence; eexists _, _, _; repeat split; reflexivity. }
  destruct H as (t & i & s & Ht & Hi & Hs).
  exists t, i, s. split; [exact Ht|]. split; [exact Hi|]. split; [exact Hs|].
  cbn zeta. unfold webhook, express_webhook, acknowledge.
  cbn [String.eqb Ascii.eqb Bool.eqb negb]. rewrite Ht, Hi, Hs.
  unfold dispatch.
  destruct (Json.is_string t "invoice.paid") eqn:E1; cbn [orb].
  { apply is_string_eq in E1. split; intros ->; [|split; reflexivity].
    eexists. split; [reflexivity|]. split; [reflexivity|].
    split; [discriminate | intros (H & _); congruence]. }
  destruct (Json.is_string t "invoice.expired") eqn:E2; cbn [orb].
  { apply is_string_eq in E2. split; intros ->; [|split; reflexivity].
    eexists. split; [reflexivity|]. split; [reflexivity|].
    split; [discriminate | intros (_ & H & _); congruence]. }
  destruct (Json.is_string t "invoice.processing") eqn:E3; cbn [orb].
  { apply is_string_eq in E3. split; intros ->; [|split; reflexivity].
    eexists. split; [reflexivity|]. split; [reflexivity|].
    split; [discriminate | intros (_ & _ & H); congruence]. }
  split; intros ->; [|split; reflexivity].
  eexists. split; [reflexivity|]. split; [reflexivity|].
  split; [|reflexivity]. intros _.
  repeat split; intros H; apply is_string_eq in H; congruence.
Qed.

Lemma unverified_webhook_acknowledges_witness :
  webhook "POST" (Some (Json.Obj [("type", Json.Str "invoice.refunded")]))
  = (Json 200 received,
     [Received (Some (Json.Str "invoice.refunded")) None None;
      UnknownEvent (Some (Json.Str "invoice.refunded"))])
  /\ express_webhook (Some (Json.Obj [("type", Json.Obj [("toString", Json.Num 1)])]))
     = (Problem 500 (Some "Webhook processing failed"),
        [Received (Some (Json.Obj [("toString", Json.Num 1)])) None None]).
Proof.
  split.
  - destruct (unverified_webhook_acknowledges
                (Json.Obj [("type", Json.Str "invoice.refunded")]))
      as (t & i & s & Ht & Hi & Hs & Hok & _); [discriminate|].
    injection Ht as <-. injection Hi as <-. injection Hs as <-.
    destruct (Hok eq_refl) as (line & Hw & _ & Hline).
    rewrite Hw. do 3 f_equal. apply Hline. repeat split; discriminate.
  - destruct (unverified_webhook_acknowledges
                (Json.Obj [("type", Json.Obj [("toString", Json.Num 1)])]))
      as (t & i & s & Ht & Hi & Hs & _ & Hbad); [discriminate|].
    injection Ht as <-. injection Hi as <-. injection Hs as <-.
    exact (proj2 (Hbad eq_refl)).
Defined.

End PlainHandlers.

Section StatusLookup.
Import Invoice Props Notions Plain.



End StatusLookup.

(** The same upstream answer through the two status checks: passed on by
    api/check-status.js, mapped to "Paid" by the stateless server. *)
Example settled_two_ways :
  fst (Plain.check_status "GET" (Some "inv_1")
         (Some (Some (Json.Obj [("status", Json.Str "Settled")]))))
  = Plain.Json 200 (Json.Obj [("status", Json.Str "Settled")])
  /\ fst (Stateless.check_status Samples.env "inv_1"
            (Some (Some (Json.Obj [("status", Json.Str "Settled")]))) Server.initial)
     = Js.Normal (Http.Response 200
                    (Http.JsonBody (Json.Obj [("status", Json.Str "Paid")]))).
Proof. split; reflexivity. Qed.
